(** * gestor_xlsx: the record-store engine of [BD_DOCENTES_STLL.py]

    A shallow embedding of the class [GestorDocentes] and of the helpers it
    calls, followed by the properties of its validators, of the lock and
    backup life cycle, of the key lookup, of the search and of the
    pagination.

    Conventions of the embedding.
    - A Python [str] is a [string] wherever the text is ASCII: there a
      character is its code point below 128, and the character classes of
      [re] and the methods [upper], [lower], [strip], [isdigit] are the
      restrictions of the Unicode ones to ASCII ([es_ascii] says that a text
      is in that range). The ID validator is also given over arbitrary
      text, as a list of code points and relative to the character data of
      Python (module [Unicode]); on ASCII text the two coincide.
    - A Python [int] is a [Z].
    - A [pandas.DataFrame] of string cells is its list of column names and
      its list of rows in index order (the index is always the default
      [0..n-1]: [read_excel], [concat(ignore_index=True)] and
      [reset_index(drop=True)] produce nothing else); a row is a finite map
      from column names to cells.
    - [input], [print], [logging], the file system and the clock are an
      explicit world that each operation transforms. *)

From Stdlib Require Import ZArith QArith Lia Bool Ascii String DecimalString.
From stdpp Require Import base option list strings gmap.

Open Scope string_scope.
Open Scope list_scope.

(** ** Python text primitives, on ASCII *)

Module Texto.

Definition ord (c : ascii) : N := N_of_ascii c.

Definition entre (a b : N) (c : ascii) : bool :=
  ((a <=? ord c) && (ord c <=? b))%N.

(** [str.isspace] and the class [\s]: TAB, LF, VT, FF, CR, the four
    separators 0x1c-0x1f and the space. *)
Definition es_espacio (c : ascii) : bool := entre 9 13 c || entre 28 32 c.

(** [\d] and [str.isdigit] on one character. *)
Definition es_digito (c : ascii) : bool := entre 48 57 c.

(** [\w]: letters, digits and the underscore. *)
Definition es_palabra (c : ascii) : bool :=
  entre 97 122 c || entre 65 90 c || es_digito c || (ord c =? 95)%N.

Definition upper_c (c : ascii) : ascii :=
  if entre 97 122 c then ascii_of_N (ord c - 32) else c.

Definition lower_c (c : ascii) : ascii :=
  if entre 65 90 c then ascii_of_N (ord c + 32) else c.

Fixpoint mapear (f : ascii -> ascii) (s : string) : string :=
  match s with
  | EmptyString => EmptyString
  | String c r => String (f c) (mapear f r)
  end.

(** [re.sub(clase, "", s)] for a one-character class, also under [+]:
    every character of the class is dropped. *)
Fixpoint quitar (p : ascii -> bool) (s : string) : string :=
  match s with
  | EmptyString => EmptyString
  | String c r => if p c then quitar p r else String c (quitar p r)
  end.

Fixpoint todos (p : ascii -> bool) (s : string) : bool :=
  match s with
  | EmptyString => true
  | String c r => p c && todos p r
  end.

Definition upper : string -> string := mapear upper_c.
Definition lower : string -> string := mapear lower_c.

Fixpoint lstrip (s : string) : string :=
  match s with
  | EmptyString => EmptyString
  | String c r => if es_espacio c then lstrip r else s
  end.

Fixpoint rstrip (s : string) : string :=
  match s with
  | EmptyString => EmptyString
  | String c r =>
      match rstrip r with
      | EmptyString => if es_espacio c then EmptyString else String c EmptyString
      | r' => String c r'
      end
  end.

(** [s.strip()] *)
Definition strip (s : string) : string := rstrip (lstrip s).

(** [s.isdigit()]: non-empty and only digits. *)
Definition isdigit (s : string) : bool :=
  match s with
  | EmptyString => false
  | _ => todos es_digito s
  end.

(** [sub in s] *)
Fixpoint contiene (sub s : string) : bool :=
  String.prefix sub s ||
  match s with
  | EmptyString => false
  | String _ r => contiene sub r
  end.

(** [s[:-1]] *)
Fixpoint sin_ultimo (s : string) : string :=
  match s with
  | EmptyString => EmptyString
  | String c EmptyString => EmptyString
  | String c r => String c (sin_ultimo r)
  end.

(** [s[-1]]; [None] stands for the [IndexError] on the empty string. *)
Fixpoint ultimo (s : string) : option ascii :=
  match s with
  | EmptyString => None
  | String c EmptyString => Some c
  | String c r => ultimo r
  end.

(** [int(c)] for a one-character string; [None] stands for [ValueError]. *)
Definition int_de_caracter (c : ascii) : option Z :=
  if es_digito c then Some (Z.of_N (ord c) - 48)%Z else None.

(** [int(s)] for a string that passed [isdigit]. *)
Definition int_de_digitos (s : string) : Z :=
  fold_left (fun acc c => (10 * acc + (Z.of_N (ord c) - 48))%Z)
            (list_ascii_of_string s) 0%Z.

(** [str(n)] *)
Definition str_de_int (n : Z) : string := NilZero.string_of_int (Z.to_int n).

Definition caracter (c : ascii) : string := String c EmptyString.

(** [s.isascii()]: on such a text the primitives above are those of
    Python. *)
Definition es_ascii (s : string) : bool := todos (fun c => (ord c <? 128)%N) s.

End Texto.

(** ** Regular expressions, as [re.match] uses them

    Every pattern of the program is anchored at both ends, so [re.match]
    decides membership of the whole subject in the language of the pattern;
    the final [$] also accepts one line feed before the end. *)

Module Regex.

Inductive re : Type :=
| Nada
| Vacia
| Clase (p : ascii -> bool)
| Sec (r1 r2 : re)
| Alt (r1 r2 : re)
| Estrella (r : re).

(** [r+], [r?], [r{n}], [r{n,m}] and a final [$] *)
Definition Mas (r : re) : re := Sec r (Estrella r).
Definition Opc (r : re) : re := Alt Vacia r.

Fixpoint Veces (n : nat) (r : re) : re :=
  match n with
  | O => Vacia
  | S k => Sec r (Veces k r)
  end.

Definition Rango (n m : nat) (r : re) : re := Sec (Veces n r) (Veces (m - n) (Opc r)).

Definition FinDeTexto : re := Opc (Clase (fun c => (Texto.ord c =? 10)%N)).

Fixpoint anulable (r : re) : bool :=
  match r with
  | Nada => false
  | Vacia => true
  | Clase _ => false
  | Sec r1 r2 => anulable r1 && anulable r2
  | Alt r1 r2 => anulable r1 || anulable r2
  | Estrella _ => true
  end.

Fixpoint derivada (c : ascii) (r : re) : re :=
  match r with
  | Nada => Nada
  | Vacia => Nada
  | Clase p => if p c then Vacia else Nada
  | Sec r1 r2 =>
      if anulable r1
      then Alt (Sec (derivada c r1) r2) (derivada c r2)
      else Sec (derivada c r1) r2
  | Alt r1 r2 => Alt (derivada c r1) (derivada c r2)
  | Estrella r1 => Sec (derivada c r1) (Estrella r1)
  end.

Fixpoint acepta (r : re) (s : string) : bool :=
  match s with
  | EmptyString => anulable r
  | String c s' => acepta (derivada c r) s'
  end.

(** [re.match("^" r "$", s) is not None] *)
Definition re_match (r : re) (s : string) : bool := acepta (Sec r FinDeTexto) s.

(** The language of a pattern, for reasoning. *)
Inductive en : re -> string -> Prop :=
| en_vacia : en Vacia EmptyString
| en_clase p c : p c = true -> en (Clase p) (String c EmptyString)
| en_sec r1 r2 s1 s2 : en r1 s1 -> en r2 s2 -> en (Sec r1 r2) (s1 +:+ s2)
| en_alt_i r1 r2 s : en r1 s -> en (Alt r1 r2) s
| en_alt_d r1 r2 s : en r2 s -> en (Alt r1 r2) s
| en_estrella_0 r : en (Estrella r) EmptyString
| en_estrella_s r s1 s2 :
    en r s1 -> en (Estrella r) s2 -> en (Estrella r) (s1 +:+ s2).

End Regex.

(** ** The validators of [GestorDocentes] *)

Import Texto Regex.

(** [re.sub(r"[.\-\s]", "", rut).upper()] *)
Definition es_separador (c : ascii) : bool :=
  (ord c =? 46)%N || (ord c =? 45)%N || es_espacio c.

Definition clean_rut (rut : string) : string := upper (quitar es_separador rut).

Definition format_rut (rut : string) : string :=
  let rn := clean_rut rut in
  if (String.length rn <? 2)%nat then rut
  else sin_ultimo rn +:+ "-" +:+
       match ultimo rn with Some dv => caracter dv | None => "" end.

(** [^\d{7,8}[0-9K]$] *)
Definition es_dv (c : ascii) : bool := entre 48 57 c || (ord c =? 75)%N.

Definition patron_rut : re := Sec (Rango 7 8 (Clase es_digito)) (Clase es_dv).

Definition factors : list Z := [2; 3; 4; 5; 6; 7]%Z.

(** The [for d in reversed_digits] loop: [total] and [factor_index] are the
    two variables it updates. *)
Fixpoint bucle_rut (ds : list Z) (total : Z) (factor_index : nat) : Z :=
  match ds with
  | [] => total
  | d :: r =>
      bucle_rut r (total + d * nth factor_index factors 0)%Z
                ((factor_index + 1) mod length factors)
  end.

Definition dv_calculado (total : Z) : string :=
  let mod_ := (11 - total mod 11)%Z in
  if (mod_ =? 10)%Z then "K"
  else if (mod_ =? 11)%Z then "0"
  else str_de_int mod_.

(** [map(int, reversed(num))]; [None] is the [ValueError] that the
    [try] turns into [False]. *)
Definition reversed_digits (num : string) : option (list Z) :=
  mapM int_de_caracter (rev (list_ascii_of_string num)).

Definition validar_rut (rut : string) : bool :=
  let rut_clean := clean_rut rut in
  if negb (re_match patron_rut rut_clean) then false
  else
    let num := sin_ultimo rut_clean in
    match ultimo rut_clean with
    | None => false (* not reached: the pattern needs 8 characters *)
    | Some dv =>
        match reversed_digits num with
        | Some ds => bool_decide (dv_calculado (bucle_rut ds 0 0) = caracter dv)
        | None => false
        end
    end.

(** [^[\w\.-]+@[\w\.-]+\.\w+$] *)
Definition es_local (c : ascii) : bool :=
  es_palabra c || (ord c =? 46)%N || (ord c =? 45)%N.

Definition patron_email : re :=
  Sec (Mas (Clase es_local))
      (Sec (Clase (fun c => (ord c =? 64)%N))
           (Sec (Mas (Clase es_local))
                (Sec (Clase (fun c => (ord c =? 46)%N)) (Mas (Clase es_palabra))))).

Definition validar_email (email : string) : bool := re_match patron_email email.

(** [re.sub(r"[ \-()]+", "", telefono)] then [isdigit] and the length. *)
Definition es_relleno_tel (c : ascii) : bool :=
  (ord c =? 32)%N || (ord c =? 45)%N || (ord c =? 40)%N || (ord c =? 41)%N.

Definition validar_telefono (telefono : string) : bool :=
  let t := quitar es_relleno_tel telefono in
  isdigit t && (7 <=? String.length t)%nat && (String.length t <=? 15)%nat.


(** ** The world: console, log, disk and clock *)

Inductive Tipo := info | exito | advertencia | error | pregunta.
Inductive Nivel := INFO | WARNING | ERROR.

(** A row maps column names to cells; the frame is loaded with
    [fillna("")] and every inserted row defines every column, so a missing
    cell is read as the empty string, as [fillna("")] would. *)
Record DataFrame := {
  columns : list string;
  filas : list (gmap string string)
}.

Definition celda (fila : gmap string string) (col : string) : string :=
  default "" (fila !! col).

(** What the program shows or logs: [mostrar_mensaje(msg, tipo)],
    [print(tabulate(subset, ...))] and the [logging] calls. The variable
    parts that come from [tabulate], from a dictionary or from an exception
    text, and the pictograms, are left out of the message text. *)
Inductive Evento :=
| Mensaje (tipo : Tipo) (texto : string)
| Impreso (subset : list (gmap string string))
| Log (nivel : Nivel) (texto : string).

Inductive Excepcion := EOFError | ZeroDivisionError | InvalidIndexError.

Inductive Res (A : Type) :=
| Valor (a : A)
| Lanza (e : Excepcion).
Arguments Valor {A} a.
Arguments Lanza {A} e.

(** [entrada] holds the lines that [input] will return, [salida] the events
    so far, oldest first. *)
Record Consola := {
  entrada : list string;
  salida : list Evento
}.

Definition IO (A : Type) : Type := Consola -> Res A * Consola.

#[global] Instance io_ret : MRet IO := fun A (a : A) (w : Consola) => (Valor a, w).

#[global] Instance io_bind : MBind IO :=
  fun A B (k : A -> IO B) (m : IO A) (w : Consola) =>
    match m w with
    | (Valor a, w') => k a w'
    | (Lanza e, w') => (Lanza e, w')
    end.

Definition emitir (ev : Evento) : IO unit :=
  fun w => (Valor tt, {| entrada := entrada w; salida := salida w ++ [ev] |}).

Definition mostrar_mensaje (msg : string) (tipo : Tipo) : IO unit :=
  emitir (Mensaje tipo msg).

(** [input(prompt)]; the prompt itself is not recorded. *)
Definition input : IO string :=
  fun w =>
    match entrada w with
    | [] => (Lanza EOFError, w)
    | linea :: resto => (Valor linea, {| entrada := resto; salida := salida w |})
    end.

Definition lanzar {A : Type} (e : Excepcion) : IO A := fun w => (Lanza e, w).

(** [input_validado]: one line is read per turn of the [while True], so the
    loop is a recursion on the pending lines. [formato_func] never raises in
    this program ([format_rut] is total on strings). *)
Fixpoint input_validado_desde (validacion_func : string -> bool)
    (mensaje_error : string) (formato_func : option (string -> string))
    (opcional : bool) (pendientes : list string) (sal : list Evento)
    : Res string * Consola :=
  match pendientes with
  | [] => (Lanza EOFError, {| entrada := []; salida := sal |})
  | linea :: resto =>
      let valor := strip linea in
      if opcional && bool_decide (valor = "")
      then (Valor "", {| entrada := resto; salida := sal |})
      else
        let valor_formateado :=
          match formato_func with Some f => f valor | None => valor end in
        if validacion_func valor_formateado
        then (Valor valor_formateado, {| entrada := resto; salida := sal |})
        else input_validado_desde validacion_func mensaje_error formato_func
               opcional resto (sal ++ [Mensaje error mensaje_error])
  end.

Definition input_validado (validacion_func : string -> bool)
    (mensaje_error : string) (formato_func : option (string -> string))
    (opcional : bool) : IO string :=
  fun w => input_validado_desde validacion_func mensaje_error formato_func
             opcional (entrada w) (salida w).

(** The fields of [self] that the operations read. *)
Record GestorDocentes := {
  columnas : list string;
  col_rut : option string;
  col_email : option string;
  col_tel : option string;
  lock_timeout : Z
}.

(** [self.col_x and col == self.col_x]: [None] and the empty name are
    falsy. *)
Definition es_columna (rol : option string) (col : string) : bool :=
  match rol with
  | Some c => negb (bool_decide (c = "")) && bool_decide (col = c)
  | None => false
  end.

(** ** Search and pagination *)

(** The two branches of [buscar]: with [unidecode] imported, and without. *)
Definition plegar (unidecode : option (string -> string)) (s : string) : string :=
  match unidecode with
  | Some u => u (lower s)
  | None => lower s
  end.

(** On a frame without rows [df.apply(..., axis=1)] does not give a
    boolean mask but an empty result, and [df[mask]] then selects the
    columns that it lists, none: the result has neither rows nor columns. *)
Definition buscar (unidecode : option (string -> string)) (df : DataFrame)
    (criterio : string) : DataFrame :=
  let crit := plegar unidecode (strip criterio) in
  let match_ (val : string) := contiene crit (plegar unidecode val) in
  match filas df with
  | [] => {| columns := []; filas := [] |}
  | _ =>
      let mask := map (fun row => existsb (fun c => match_ (celda row c)) (columns df))
                      (filas df) in
      {| columns := columns df;
         filas := map fst (filter (fun p => snd p = true) (zip (filas df) mask)) |}
  end.

(** [l[start:end]] with Python's treatment of negative and overlong
    bounds. *)
Definition ajustar (n i : Z) : Z :=
  if (i <? 0)%Z then Z.max (i + n) 0 else Z.min i n.

Definition iloc {A : Type} (l : list A) (start end_ : Z) : list A :=
  let n := Z.of_nat (length l) in
  let a := ajustar n start in
  let b := ajustar n end_ in
  take (Z.to_nat (b - a)) (drop (Z.to_nat a) l).

(** [range(pages)] *)
Definition range (pages : Z) : list Z := map Z.of_nat (seq 0 (Z.to_nat pages)).

Definition pie_de_pagina (i pages start end_ total : Z) : string :=
  "Página " +:+ str_de_int (i + 1) +:+ "/" +:+ str_de_int pages +:+ " (" +:+
  str_de_int (start + 1) +:+ "-" +:+ str_de_int (Z.min end_ total) +:+ " de " +:+
  str_de_int total +:+ ")".

(** The body of [for i in range(pages)]. The iterator [range(pages)] is
    built once, before the loop: [pendientes] are the values it has not
    produced yet. Rebinding [pages] and [i] inside the body changes the
    variables that the body reads afterwards, not the iterator, and [i] is
    rebound by the next turn of the [for]; so of the three assignments of
    the resize branch only [page_size] and [pages] are carried to the next
    turn. *)
Fixpoint paginar_desde (df : DataFrame) (total : Z) (pendientes : list Z)
    (page_size pages : Z) : IO unit :=
  match pendientes with
  | [] => mret tt
  | i :: resto =>
      let start := (i * page_size)%Z in
      let end_ := (start + page_size)%Z in
      emitir (Impreso (iloc (filas df) start end_));;
      mostrar_mensaje (pie_de_pagina i pages start end_ total) info;;
      if (i <? pages - 1)%Z then
        cont ← input;
        let cont := lower (strip cont) in
        if bool_decide (cont = "q") then mret tt
        else if bool_decide (cont = "s") then
          nuevo_size ← input;
          let nuevo_size := strip nuevo_size in
          if isdigit nuevo_size && (0 <? int_de_digitos nuevo_size)%Z then
            let page_size' := int_de_digitos nuevo_size in
            let pages' := ((total + page_size' - 1) / page_size')%Z in
            paginar_desde df total resto page_size' pages'
          else paginar_desde df total resto page_size pages
        else paginar_desde df total resto page_size pages
      else paginar_desde df total resto page_size pages
  end.

Definition paginar (df : DataFrame) (page_size : Z) : IO unit :=
  let total := Z.of_nat (length (filas df)) in
  if (total =? 0)%Z then mostrar_mensaje "No hay registros para mostrar." advertencia
  else if (page_size =? 0)%Z then lanzar ZeroDivisionError
  else
    let pages := ((total + page_size - 1) / page_size)%Z in
    paginar_desde df total (range pages) page_size pages.

(** The tables that a run printed, in order. *)
Definition paginas_impresas (sal : list Evento) : list (list (gmap string string)) :=
  omap (fun ev => match ev with Impreso t => Some t | _ => None end) sal.

(** ** Key lookup, insert, update and delete: the branches of
    [run_interactivo] *)

(** [df[col].fillna("").astype(str).apply(self.clean_rut)] *)
Definition ser_norm (df : DataFrame) (col : string) : list string :=
  map (fun fila => clean_rut (celda fila col)) (filas df).

Fixpoint indices_desde {A : Type} (p : A -> bool) (l : list A) (i : nat) : list nat :=
  match l with
  | [] => []
  | x :: r => if p x then i :: indices_desde p r (S i) else indices_desde p r (S i)
  end.

(** [df[ser_norm == clave_norm].index.tolist()], for the key as typed. *)
Definition idx_list (df : DataFrame) (col clave : string) : list nat :=
  let clave_norm := clean_rut clave in
  indices_desde (fun v => bool_decide (v = clave_norm)) (ser_norm df col) 0.

(** The truth value of [self.col_rut], with the name when it is truthy. *)
Definition ligada (rol : option string) : option string :=
  match rol with
  | Some c => if bool_decide (c = "") then None else Some c
  | None => None
  end.

(** [df.at[idx, col] = valor]; [idx] is always a row of the frame, it comes
    from [idx_list]. *)
Definition at_set (df : DataFrame) (idx : nat) (col valor : string) : DataFrame :=
  {| columns := columns df;
     filas := alter (fun fila => <[col := valor]> fila) idx (filas df) |}.

(** One turn of [for col in self.columnas] of the update (lines 413-430).
    [mret df] after a warning is the [continue]. *)
Definition actualizar_columna (g : GestorDocentes) (idx : nat) (df : DataFrame)
    (col : string) : IO DataFrame :=
  linea ← input;
  let nuevo_valor := strip linea in
  if bool_decide (nuevo_valor = "") then mret df
  else if es_columna (col_rut g) col then
    if negb (validar_rut nuevo_valor) then
      mostrar_mensaje "RUT inválido. Se mantiene el valor anterior." advertencia;;
      mret df
    else mret (at_set df idx col (format_rut nuevo_valor))
  else if es_columna (col_email g) col then
    if negb (validar_email nuevo_valor) then
      mostrar_mensaje "Email inválido. Se mantiene el valor anterior." advertencia;;
      mret df
    else mret (at_set df idx col nuevo_valor)
  else if es_columna (col_tel g) col then
    if negb (validar_telefono nuevo_valor) then
      mostrar_mensaje "Teléfono inválido. Se mantiene el valor anterior." advertencia;;
      mret df
    else mret (at_set df idx col nuevo_valor)
  else mret (at_set df idx col nuevo_valor).

Fixpoint actualizar_columnas (g : GestorDocentes) (idx : nat) (cols : list string)
    (df : DataFrame) : IO DataFrame :=
  match cols with
  | [] => mret df
  | col :: resto =>
      df' ← actualizar_columna g idx df col;
      actualizar_columnas g idx resto df'
  end.

(** Option 4 / u (lines 395-432). *)
Definition opcion_actualizar (g : GestorDocentes) (df : DataFrame) : IO DataFrame :=
  match ligada (col_rut g) with
  | Some c =>
      linea ← input;
      let clave := strip linea in
      match idx_list df c clave with
      | [] =>
          mostrar_mensaje ("No se encontró un registro con " +:+ c +:+ " = " +:+ clave +:+ ".") error;;
          mret df
      | idx :: otros =>
          (if (1 <? length (idx :: otros))%nat
           then mostrar_mensaje "Hay múltiples coincidencias. Se mostrará la primera." advertencia
           else mret tt);;
          mostrar_mensaje "Registro actual:" info;;
          df' ← actualizar_columnas g idx (columnas g) df;
          mostrar_mensaje "Registro actualizado correctamente." exito;;
          emitir (Log INFO "Actualizado registro");;
          mret df'
      end
  | None =>
      mostrar_mensaje "No está configurado el campo RUT para búsqueda. Abortando actualización." error;;
      mret df
  end.

(** Option 5 / d (lines 433-453); [df.drop(idx).reset_index(drop=True)]
    removes the row and renumbers the rest. *)
Definition opcion_eliminar (g : GestorDocentes) (df : DataFrame) : IO DataFrame :=
  match ligada (col_rut g) with
  | Some c =>
      linea ← input;
      let clave := strip linea in
      match idx_list df c clave with
      | [] =>
          mostrar_mensaje ("No se encontró un registro con " +:+ c +:+ " = " +:+ clave +:+ ".") error;;
          mret df
      | idx :: _ =>
          mostrar_mensaje "Registro a eliminar:" advertencia;;
          linea ← input;
          let confirm := lower (strip linea) in
          if bool_decide (confirm = "s") then
            mostrar_mensaje "Registro eliminado." exito;;
            emitir (Log INFO "Eliminado registro");;
            mret {| columns := columns df; filas := delete idx (filas df) |}
          else
            mostrar_mensaje "Eliminación cancelada." info;;
            mret df
      end
  | None =>
      mostrar_mensaje "No está configurado el campo RUT para búsqueda. Abortando eliminación." error;;
      mret df
  end.

(** Option 3 / a (lines 379-394): one value per column, then
    [pd.concat([df, pd.DataFrame([nuevo])], ignore_index=True)]. The keys
    of [nuevo] are distinct, so when a column name is repeated in [df] the
    columns of the two frames differ and [concat] has to reindex [df],
    which raises [InvalidIndexError] on repeated names. *)
Definition pedir_valor (g : GestorDocentes) (col : string) : IO string :=
  if es_columna (col_rut g) col then
    input_validado validar_rut "RUT inválido. Intenta nuevamente." (Some format_rut) false
  else if es_columna (col_email g) col then
    input_validado validar_email "Email inválido." None true
  else if es_columna (col_tel g) col then
    input_validado validar_telefono "Teléfono inválido." None true
  else linea ← input; mret (strip linea).

Fixpoint pedir_valores (g : GestorDocentes) (cols : list string)
    (nuevo : gmap string string) : IO (gmap string string) :=
  match cols with
  | [] => mret nuevo
  | col :: resto =>
      valor ← pedir_valor g col;
      pedir_valores g resto (<[col := valor]> nuevo)
  end.

Definition opcion_agregar (g : GestorDocentes) (df : DataFrame) : IO DataFrame :=
  mostrar_mensaje "Ingrese los datos del nuevo registro:" info;;
  nuevo ← pedir_valores g (columnas g) ∅;
  if bool_decide (NoDup (columns df)) then
    mostrar_mensaje "Registro agregado correctamente." exito;;
    emitir (Log INFO "Agregado registro");;
    mret {| columns := columns df; filas := filas df ++ [nuevo] |}
  else lanzar InvalidIndexError.

(** ** Lock, backup and save *)

(** What [df.to_excel(self.ruta)] does: it writes the frame, or it raises
    and leaves the file as [queda]. *)
Inductive Escritura :=
| EscrituraOk
| EscrituraFalla (queda : option DataFrame).

(** What the operating system and the other processes do during one save.
    [liberado k]: by the [k]-th test of [lock_file.exists()] the holder of a
    sentinel found at the start has removed it. [transcurrido k]: what the
    clock of the system shows for [time.time() - start] at the [k]-th turn
    of the loop, in seconds. [marca]: the text of [str(time.time())]
    written into the sentinel. [falla_crear]: [lock_file.write_text]
    raises; [queda_cerrojo] is then what it leaves at the path of the
    sentinel: nothing when the file could not be opened, the text written
    so far (the empty text for a file created and not written) when the
    failure came after the file was created. [sello]: the text of
    [datetime.now().strftime("%Y%m%d_%H%M%S")], which names the backup.
    [falla_copia], [escritura] and [falla_borrar] say whether
    [shutil.copy2], [to_excel] and [unlink] raise. *)
Record Entorno := {
  liberado : nat -> bool;
  transcurrido : nat -> Q;
  marca : string;
  falla_crear : bool;
  queda_cerrojo : option string;
  sello : string;
  falla_copia : bool;
  escritura : Escritura;
  falla_borrar : bool
}.

(** The backing file [ruta], the sentinel [lock_file], the files of
    [backup_dir], each under the time stamp of its name, oldest name first,
    and what was shown or logged. *)
Record Sistema := {
  archivo : option DataFrame;
  cerrojo : option string;
  respaldos : list (string * DataFrame);
  eventos : list Evento
}.

Definition anotar (ev : Evento) (s : Sistema) : Sistema :=
  {| archivo := archivo s; cerrojo := cerrojo s; respaldos := respaldos s;
     eventos := eventos s ++ [ev] |}.

Definition con_cerrojo (c : option string) (s : Sistema) : Sistema :=
  {| archivo := archivo s; cerrojo := c; respaldos := respaldos s;
     eventos := eventos s |}.

Definition con_archivo (a : option DataFrame) (s : Sistema) : Sistema :=
  {| archivo := a; cerrojo := cerrojo s; respaldos := respaldos s;
     eventos := eventos s |}.

(** [self.lock_file.exists()] at the [k]-th test. *)
Definition existe_cerrojo (e : Entorno) (s : Sistema) (k : nat) : bool :=
  match cerrojo s with
  | Some _ => negb (liberado e k)
  | None => false
  end.

Inductive Espera :=
| Libre (k : nat)
| Vencido (k : nat).

(** [time.time() - start] as the [k]-th turn of the loop reads it. Each of
    the [k] turns before it ended with [time.sleep(1)], which suspends the
    process for one second at least: on a clock that is not set back
    during the wait, the reading is what the clock of the system shows and
    not less than [k] seconds. *)
Definition lectura (e : Entorno) (k : nat) : Q :=
  let dormido := inject_Z (Z.of_nat k) in
  if Qle_bool dormido (transcurrido e k) then transcurrido e k else dormido.

(** [time.time() - start > self.lock_timeout] at the [k]-th turn. *)
Definition vencido (g : GestorDocentes) (e : Entorno) (k : nat) : bool :=
  negb (Qle_bool (lectura e k) (inject_Z (lock_timeout g))).

(** The [while self.lock_file.exists()] loop; each turn ends with
    [time.sleep(1)], which [lectura] accounts for. [None]: the loop is still
    running after [fuel] turns. *)
Fixpoint esperar (g : GestorDocentes) (e : Entorno) (s : Sistema)
    (fuel k : nat) : option Espera :=
  match fuel with
  | O => None
  | S fuel' =>
      if existe_cerrojo e s k then
        if vencido g e k
        then Some (Vencido k)
        else esperar g e s fuel' (S k)
      else Some (Libre k)
  end.

(** After the loop, [write_text] opens the sentinel for writing and writes
    the time stamp; when it raises, the sentinel path is left as the failed
    call left it ([queda_cerrojo]), and nothing removes it. *)
Definition acquire_lock (g : GestorDocentes) (e : Entorno) (fuel : nat)
    (s : Sistema) : option (bool * Sistema) :=
  match esperar g e s fuel 0 with
  | None => None
  | Some (Vencido _) =>
      Some (false,
            anotar (Log WARNING "Timeout esperando lock")
              (anotar (Mensaje advertencia
                 "El archivo está bloqueado por mucho tiempo. Verifique manualmente.") s))
  | Some (Libre _) =>
      if falla_crear e
      then Some (false, anotar (Log ERROR "No se pudo crear archivo de lock")
                          (con_cerrojo (queda_cerrojo e) s))
      else Some (true, con_cerrojo (Some (marca e)) s)
  end.

Definition release_lock (e : Entorno) (s : Sistema) : Sistema :=
  match cerrojo s with
  | Some _ =>
      if falla_borrar e
      then anotar (Log ERROR "No se pudo eliminar archivo de lock") s
      else con_cerrojo None s
  | None => s
  end.

(** [shutil.copy2(self.ruta, destino)] that succeeds: the file [destino]
    of [backup_dir] holds the content; a backup of the same name, made in
    the same second, is overwritten, the files of other names stay. *)
Fixpoint copiar (destino : string) (contenido : DataFrame)
    (rs : list (string * DataFrame)) : list (string * DataFrame) :=
  match rs with
  | [] => [(destino, contenido)]
  | (nombre, c) :: r =>
      if bool_decide (nombre = destino) then (destino, contenido) :: r
      else (nombre, c) :: copiar destino contenido r
  end.

(** The backup kept under a name, if any. *)
Fixpoint respaldo_de (nombre : string) (rs : list (string * DataFrame))
    : option DataFrame :=
  match rs with
  | [] => None
  | (n, c) :: r => if bool_decide (n = nombre) then Some c else respaldo_de nombre r
  end.

(** [backup] returns [None] on every path; a failed [shutil.copy2] is
    logged inside it. The stem and the suffix of [destino] are those of
    [ruta], the same at every call: the time stamp [sello] stands for the
    name. *)
Definition backup (e : Entorno) (s : Sistema) : Sistema :=
  match archivo s with
  | None => s
  | Some contenido =>
      if falla_copia e
      then anotar (Log ERROR "Error al crear backup") s
      else anotar (Log INFO "Backup creado")
             {| archivo := archivo s; cerrojo := cerrojo s;
                respaldos := copiar (sello e) contenido (respaldos s);
                eventos := eventos s |}
  end.

(** The [try] of [guardar] with its [except]: the backup when the file
    exists, then the write; a write that raises is logged and reported.
    [backup] itself raises nothing, and [animacion_carga] only sleeps and
    draws. *)
Definition tras_escribir (e : Entorno) (df : DataFrame) (s1 : Sistema) : Sistema :=
  let s2 := if bool_decide (is_Some (archivo s1)) then backup e s1 else s1 in
  match escritura e with
  | EscrituraOk =>
      anotar (Mensaje exito "Archivo guardado exitosamente.")
        (anotar (Log INFO "Archivo guardado correctamente.")
           (con_archivo (Some df) s2))
  | EscrituraFalla queda =>
      anotar (Mensaje error "No se pudo guardar el archivo")
        (anotar (Log ERROR "Error al guardar Excel") (con_archivo queda s2))
  end.

(** [guardar]: the early return without the lock, else the [try] and, in
    the [finally], [release_lock]. *)
Definition guardar (g : GestorDocentes) (e : Entorno) (fuel : nat)
    (df : DataFrame) (s : Sistema) : option Sistema :=
  match acquire_lock g e fuel s with
  | None => None
  | Some (false, s1) =>
      Some (anotar (Mensaje error "No se pudo obtener lock para guardar. Abortando.") s1)
  | Some (true, s1) => Some (release_lock e (tras_escribir e df s1))
  end.

(** ** The check character, as the specification words it

    The digits of the body are taken from least significant to most
    significant, the digit at position [i] is multiplied by the weight at
    position [i mod 6] of [[2,3,4,5,6,7]], the products are summed, and
    [11 - (sum mod 11)] is mapped to a character: 10 to K, 11 to 0, any
    other value to its decimal digit. *)

Definition pesos : list Z := [2; 3; 4; 5; 6; 7]%Z.

Definition valor_digito (c : ascii) : Z := (Z.of_N (ord c) - 48)%Z.

Definition digitos_desde_unidades (cuerpo : string) : list Z :=
  rev (map valor_digito (list_ascii_of_string cuerpo)).

Definition suma_ponderada (ds : list Z) : Z :=
  foldr Z.add 0%Z (imap (fun i d => (d * nth (i mod 6) pesos 0)%Z) ds).

Definition caracter_verificador (cuerpo : string) : ascii :=
  let r := (11 - suma_ponderada (digitos_desde_unidades cuerpo) mod 11)%Z in
  if (r =? 10)%Z then "K"%char
  else if (r =? 11)%Z then "0"%char
  else ascii_of_N (Z.to_N (48 + r)).

(** ** Pages, as the specification words them *)

(** The rows [[a, b)] of a table. *)
Definition tramo {A : Type} (l : list A) (a b : nat) : list A :=
  take (b - a) (drop a l).

(** An answer to the prompt between two pages that is neither [q] nor
    [s]: the traversal goes on. *)
Definition continua (linea : string) : Prop :=
  lower (strip linea) <> "q" /\ lower (strip linea) <> "s".

(** A frame of [n] rows with one column [N]; row [i] holds the text of
    [i]. *)
Definition fila_numerada (i : nat) : gmap string string :=
  {[ "N" := str_de_int (Z.of_nat i) ]}.

Definition tabla_numerada (n : nat) : DataFrame :=
  {| columns := ["N"]; filas := map fila_numerada (seq 0 n) |}.

(** ** Search, as the specification words it *)


(** The row has a column whose folded cell contains [crit]. *)
Definition fila_coincide (unidecode : option (string -> string))
    (cols : list string) (crit : string) (fila : gmap string string) : Prop :=
  Exists (fun c => contiene crit (plegar unidecode (celda fila c)) = true) cols.

#[global] Instance fila_coincide_dec unidecode cols crit fila :
  Decision (fila_coincide unidecode cols crit fila).
Proof. unfold fila_coincide. apply _. Defined.

(** ** Roles, as the specification names them *)

Inductive Rol := ID | EMAIL | PHONE.

(** The role is bound to the column. *)
Definition ligado (g : GestorDocentes) (r : Rol) (col : string) : bool :=
  match r with
  | ID => es_columna (col_rut g) col
  | EMAIL => es_columna (col_email g) col
  | PHONE => es_columna (col_tel g) col
  end.

(** The role under which the update and the insert treat a column: the
    first of ID, EMAIL, PHONE bound to it, in the order of their
    [if] / [elif] chain. *)
Definition rol_de (g : GestorDocentes) (col : string) : option Rol :=
  if ligado g ID col then Some ID
  else if ligado g EMAIL col then Some EMAIL
  else if ligado g PHONE col then Some PHONE
  else None.

Definition validador (r : Rol) : string -> bool :=
  match r with
  | ID => validar_rut
  | EMAIL => validar_email
  | PHONE => validar_telefono
  end.

(** The message of the update when the validator of the role fails. *)
Definition aviso (r : Rol) : string :=
  match r with
  | ID => "RUT inválido. Se mantiene el valor anterior."
  | EMAIL => "Email inválido. Se mantiene el valor anterior."
  | PHONE => "Teléfono inválido. Se mantiene el valor anterior."
  end.

(** What the update stores for an accepted value. *)
Definition almacenado (r : Rol) (v : string) : string :=
  match r with
  | ID => format_rut v
  | _ => v
  end.

(** ** Counting characters *)

(** The number of characters of [s] that satisfy [p]. *)
Fixpoint contar (p : ascii -> bool) (s : string) : nat :=
  match s with
  | EmptyString => O
  | String c r => if p c then S (contar p r) else contar p r
  end.

(** ** Values that the insert and the update accept *)

(** [formato_func(valor)] when a format function is given. *)
Definition formateado (formato_func : option (string -> string)) (valor : string) : string :=
  match formato_func with
  | Some f => f valor
  | None => valor
  end.

(** What the insert can store in a column, by the role under which the
    [if] / [elif] chain treats it ([rol_de]: the first of ID, email, phone
    bound to the column, the only one whose validator runs): a valid ID in
    the form [format_rut] gives it, a valid or empty email or phone,
    anything in a column without role. *)
Definition celda_admitida (g : GestorDocentes) (col v : string) : Prop :=
  match rol_de g col with
  | Some ID => validar_rut v = true /\ format_rut v = v
  | Some r => v = "" \/ validador r v = true
  | None => True
  end.

(** What the update can store in a column: a non-empty text that the
    validator of [rol_de], the first role bound to the column, accepts; the
    validators of the other roles bound to the same column are not run. *)
Definition celda_actualizada (g : GestorDocentes) (col v : string) : Prop :=
  v <> "" /\
  match rol_de g col with
  | Some ID => validar_rut v = true /\ format_rut v = v
  | Some r => validador r v = true
  | None => True
  end.

(** The cell of a column bound to a role is empty or passes the validator
    of the first role bound to the column ([rol_de]); nothing is asked of
    the validators of further roles bound to the same column. *)
Definition celda_valida (g : GestorDocentes) (col v : string) : Prop :=
  match rol_de g col with
  | Some r => v = "" \/ validador r v = true
  | None => True
  end.

Definition tabla_valida (g : GestorDocentes) (df : DataFrame) : Prop :=
  forall (fila : gmap string string) (col v : string),
    fila ∈ filas df -> fila !! col = Some v -> celda_valida g col v.

(** ** The column mapper and the column names of a new file *)

(** [[c for c in cols if any(pat.lower() in c.lower() for pat in patrones)]] *)
Definition candidatos (cols patrones : list string) : list string :=
  List.filter
    (fun c => existsb (fun pat => contiene (lower pat) (lower c)) patrones) cols.

(** The loop [for c in candidatos] of [detectar_y_preguntar], left at the
    first answer [s]; over no candidate it asks nothing, which is what the
    guard [if candidatos] is for. *)
Fixpoint preguntar_candidatos (cands : list string) : IO (option string) :=
  match cands with
  | [] => mret None
  | c :: resto =>
      linea ← input;
      if bool_decide (lower (strip linea) = "s") then mret (Some c)
      else preguntar_candidatos resto
  end.

Definition detectar_y_preguntar (cols : list string) (tipo : string)
    (patrones : list string) : IO (option string) :=
  elegido ← preguntar_candidatos (candidatos cols patrones);
  match ligada elegido with
  | Some _ => mret elegido
  | None =>
      linea ← input;
      let resp := strip linea in
      if bool_decide (resp = "") then mret elegido
      else if bool_decide (resp ∈ cols) then mret (Some resp)
      else
        mostrar_mensaje
          ("No existe columna '" +:+ resp +:+ "'. Se omitirá validación de " +:+
           tipo +:+ ".") advertencia;;
        mret None
  end.

(** The message that follows each call, by the truth value of the
    binding. *)
Definition anunciar (rol : option string) (activada omitida : string) : IO unit :=
  match ligada rol with
  | Some c => mostrar_mensaje (activada +:+ c +:+ "'.") exito
  | None => mostrar_mensaje omitida advertencia
  end.

(** [mapear_columnas_clave] returns [self] with its three bindings set. *)
Definition mapear_columnas_clave (g : GestorDocentes) : IO GestorDocentes :=
  let cols := columnas g in
  mostrar_mensaje "Columnas detectadas" info;;
  r ← detectar_y_preguntar cols "RUT (para validar formato chileno)" ["rut"];
  anunciar r "Validación de RUT activada en columna '"
             "No se validará RUT (columna no mapeada).";;
  e ← detectar_y_preguntar cols "Email" ["email"; "correo"];
  anunciar e "Validación de email activada en columna '"
             "No se validará email (columna no mapeada).";;
  t ← detectar_y_preguntar cols "Teléfono" ["tel"; "fono"; "telefono"];
  anunciar t "Validación de teléfono activada en columna '"
             "No se validará teléfono (columna no mapeada).";;
  mret {| columnas := cols; col_rut := r; col_email := e; col_tel := t;
          lock_timeout := lock_timeout g |}.

(** [s.split(',')] *)
Fixpoint split_coma (s : string) : list string :=
  match s with
  | EmptyString => [EmptyString]
  | String c r =>
      if (ord c =? 44)%N then EmptyString :: split_coma r
      else
        match split_coma r with
        | x :: xs => String c x :: xs
        | [] => [String c EmptyString]
        end
  end.

(** The column names of a new file, lines 161-162 of [leer]:
    [cols = input(...).strip()] and
    [[c.strip() for c in cols.split(',') if c.strip()]]. *)
Definition nombres_de_columnas (linea : string) : list string :=
  List.filter (fun c => negb (bool_decide (c = EmptyString)))
              (map strip (split_coma (strip linea))).

(** [','.join(nombres)] *)
Fixpoint unir (nombres : list string) : string :=
  match nombres with
  | [] => EmptyString
  | [x] => x
  | x :: resto => x +:+ "," +:+ unir resto
  end.

(** A name as [nombres_de_columnas] returns them: not empty, without
    whitespace around it, without comma. *)
Definition no_coma (c : ascii) : bool := negb (ord c =? 44)%N.

Definition nombre_limpio (n : string) : Prop :=
  n <> EmptyString /\ strip n = n /\ todos no_coma n = true.

(** ** The ID validator on arbitrary text

    A Python [str] is a sequence of code points. What the class [\s] and
    the class [\d] of [re], [int] and [str.upper] do with a character
    depends on the character data of the interpreter, which are not part of
    the program: they are a parameter of this model, where [clean_rut] and
    [validar_rut] are read again from lines 144-147 and 217-235. *)

Module Unicode.

(** [u_espacio c]: the class [\s] has [c]. [u_decimal c]: [int(c)] when the
    class [\d] has [c], a decimal digit of any script, and [None] when it
    has not. [u_upper c]: the characters of [c.upper()], which can be
    several. *)
Record Caracteres := {
  u_espacio : N -> bool;
  u_decimal : N -> option Z;
  u_upper : N -> list N
}.

Definition texto : Type := list N.

(** The code points of an ASCII text. *)
Definition codigos (s : string) : texto := map N_of_ascii (list_ascii_of_string s).

(** The patterns that [validar_rut] needs, matched by derivatives as in
    [Regex]. *)
Inductive re : Type :=
| Nada
| Vacia
| Clase (p : N -> bool)
| Sec (r1 r2 : re)
| Alt (r1 r2 : re).

Definition Opc (r : re) : re := Alt Vacia r.

Fixpoint Veces (n : nat) (r : re) : re :=
  match n with
  | O => Vacia
  | S k => Sec r (Veces k r)
  end.

Definition Rango (n m : nat) (r : re) : re := Sec (Veces n r) (Veces (m - n) (Opc r)).

Definition FinDeTexto : re := Opc (Clase (fun c => (c =? 10)%N)).

Fixpoint anulable (r : re) : bool :=
  match r with
  | Nada => false
  | Vacia => true
  | Clase _ => false
  | Sec r1 r2 => anulable r1 && anulable r2
  | Alt r1 r2 => anulable r1 || anulable r2
  end.

Fixpoint derivada (c : N) (r : re) : re :=
  match r with
  | Nada => Nada
  | Vacia => Nada
  | Clase p => if p c then Vacia else Nada
  | Sec r1 r2 =>
      if anulable r1
      then Alt (Sec (derivada c r1) r2) (derivada c r2)
      else Sec (derivada c r1) r2
  | Alt r1 r2 => Alt (derivada c r1) (derivada c r2)
  end.

Fixpoint acepta (r : re) (s : texto) : bool :=
  match s with
  | [] => anulable r
  | c :: s' => acepta (derivada c r) s'
  end.

(** [re.match("^" r "$", s) is not None] *)
Definition re_match (r : re) (s : texto) : bool := acepta (Sec r FinDeTexto) s.

(** The language of a pattern, for reasoning. *)
Inductive en : re -> texto -> Prop :=
| en_vacia : en Vacia []
| en_clase p c : p c = true -> en (Clase p) [c]
| en_sec r1 r2 s1 s2 : en r1 s1 -> en r2 s2 -> en (Sec r1 r2) (s1 ++ s2)
| en_alt_i r1 r2 s : en r1 s -> en (Alt r1 r2) s
| en_alt_d r1 r2 s : en r2 s -> en (Alt r1 r2) s.

Section Validador.

Variable U : Caracteres.

(** [re.sub(r"[.\-\s]", "", rut).upper()] *)
Definition es_separador (c : N) : bool :=
  (c =? 46)%N || (c =? 45)%N || u_espacio U c.

Definition upper (s : texto) : texto := flat_map (u_upper U) s.

Definition clean_rut (rut : texto) : texto :=
  upper (List.filter (fun c => negb (es_separador c)) rut).

(** [^\d{7,8}[0-9K]$]: [\d] is any decimal digit, [[0-9K]] is literal. *)
Definition es_decimal (c : N) : bool :=
  match u_decimal U c with
  | Some _ => true
  | None => false
  end.

Definition es_dv (c : N) : bool := ((48 <=? c) && (c <=? 57) || (c =? 75))%N.

Definition patron_rut : re := Sec (Rango 7 8 (Clase es_decimal)) (Clase es_dv).

(** [map(int, reversed(num))] *)
Definition reversed_digits (num : texto) : option (list Z) :=
  mapM (u_decimal U) (rev num).

(** The loop and [dv_calculado] are those of the model on ASCII text: they
    work on integers and produce an ASCII text. *)
Definition validar_rut (rut : texto) : bool :=
  let rut_clean := clean_rut rut in
  if negb (re_match patron_rut rut_clean) then false
  else
    let num := removelast rut_clean in
    match last rut_clean with
    | None => false (* not reached: the pattern needs 8 characters *)
    | Some dv =>
        match reversed_digits num with
        | Some ds => bool_decide (codigos (dv_calculado (bucle_rut ds 0 0)) = [dv])
        | None => false
        end
    end.

(** The normalized form, as the specification words it: the separators
    '.', '-' and whitespace are removed, and what is left is uppercased
    character by character. *)
Inductive normaliza : texto -> texto -> Prop :=
| normaliza_fin : normaliza [] []
| normaliza_separador (c : N) (x n : texto) :
    c = 46%N \/ c = 45%N \/ u_espacio U c = true ->
    normaliza x n -> normaliza (c :: x) n
| normaliza_caracter (c : N) (x n : texto) :
    c <> 46%N -> c <> 45%N -> u_espacio U c = false ->
    normaliza x n -> normaliza (c :: x) (u_upper U c ++ n).

(** The value of a digit, and the check character of a body of digits, as
    the specification words it (see [caracter_verificador]). *)
Definition valor_decimal (c : N) : Z := default 0%Z (u_decimal U c).

Definition caracter_verificador (cuerpo : texto) : N :=
  let r := (11 - suma_ponderada (rev (map valor_decimal cuerpo)) mod 11)%Z in
  if (r =? 10)%Z then 75%N
  else if (r =? 11)%Z then 48%N
  else Z.to_N (48 + r).

(** Two facts of the character data of Python that the validator relies
    on. No character but whitespace has a line feed in its uppercase
    form; and on ASCII the classes, the digits and the uppercase forms are
    the usual ones. *)
Definition sin_salto : Prop :=
  forall c : N, In 10%N (u_upper U c) -> u_espacio U c = true.

Definition ascii_usual : Prop :=
  forall c : N, (c < 128)%N ->
    u_espacio U c = ((9 <=? c) && (c <=? 13) || (28 <=? c) && (c <=? 32))%N /\
    u_decimal U c =
      (if ((48 <=? c) && (c <=? 57))%N then Some (Z.of_N c - 48)%Z else None) /\
    u_upper U c = [if ((97 <=? c) && (c <=? 122))%N then (c - 32)%N else c].

End Validador.

(** Character data for a sample: ASCII, the next-line and no-break spaces,
    and the Arabic-Indic digits; no case outside ASCII. *)
Definition muestra : Caracteres := {|
  u_espacio c :=
    ((9 <=? c) && (c <=? 13) || (28 <=? c) && (c <=? 32) || (c =? 133) || (c =? 160))%N;
  u_decimal c :=
    if ((48 <=? c) && (c <=? 57))%N then Some (Z.of_N c - 48)%Z
    else if ((1632 <=? c) && (c <=? 1641))%N then Some (Z.of_N c - 1632)%Z
    else None;
  u_upper c := [if ((97 <=? c) && (c <=? 122))%N then (c - 32)%N else c]
|}.

End Unicode.

(** * Properties *)

(** ** Text *)

Section TextoLemas.

Lemma append_nil (t : string) : "" +:+ t = t.
Proof. reflexivity. Qed.

Lemma append_cons (c : ascii) (s t : string) : String c s +:+ t = String c (s +:+ t).
Proof. reflexivity. Qed.

Lemma append_vacia_d (s : string) : s +:+ "" = s.
Proof. induction s as [|c s IH]; [done | by rewrite append_cons, IH]. Qed.

Lemma append_asoc (a b c : string) : (a +:+ b) +:+ c = a +:+ (b +:+ c).
Proof. induction a as [|x a IH]; [done | by rewrite !append_cons, IH]. Qed.

Lemma append_es_vacia (a b : string) : a +:+ b = "" -> a = "" /\ b = "".
Proof. destruct a; [done | rewrite append_cons; discriminate]. Qed.

Lemma longitud_append (a b : string) :
  String.length (a +:+ b) = (String.length a + String.length b)%nat.
Proof. induction a as [|x a IH]; [done | rewrite append_cons; simpl; by rewrite IH]. Qed.

Lemma todos_append p (a b : string) : todos p (a +:+ b) = todos p a && todos p b.
Proof.
  induction a as [|x a IH]; [done |].
  rewrite append_cons. simpl. by rewrite IH, andb_assoc.
Qed.

Lemma sin_ultimo_append (a : string) (c : ascii) : sin_ultimo (a +:+ caracter c) = a.
Proof.
  induction a as [|x a IH]; [done |].
  rewrite append_cons. destruct a as [|y a]; [done |].
  rewrite append_cons in *.
  change (sin_ultimo (String x (String y (a +:+ caracter c))))
    with (String x (sin_ultimo (String y (a +:+ caracter c)))).
  by rewrite IH.
Qed.

Lemma ultimo_append (a : string) (c : ascii) : ultimo (a +:+ caracter c) = Some c.
Proof.
  induction a as [|x a IH]; [done |].
  rewrite append_cons. destruct a as [|y a]; [done |].
  rewrite append_cons in *.
  change (ultimo (String x (String y (a +:+ caracter c))))
    with (ultimo (String y (a +:+ caracter c))).
  by rewrite IH.
Qed.

Lemma partir_ultimo (s : string) (c : ascii) :
  ultimo s = Some c -> s = sin_ultimo s +:+ caracter c.
Proof.
  induction s as [|x s IH]; [discriminate |].
  destruct s as [|y s]; [intros [= ->]; done |].
  intros H.
  change (sin_ultimo (String x (String y s))) with (String x (sin_ultimo (String y s))).
  rewrite append_cons. f_equal. apply IH. exact H.
Qed.

Lemma lista_de_append (a b : string) :
  list_ascii_of_string (a +:+ b) =
  list_ascii_of_string a ++ list_ascii_of_string b.
Proof. induction a as [|x a IH]; [done | rewrite append_cons; simpl; by rewrite IH]. Qed.

Lemma todos_Forall p (s : string) :
  todos p s = true <-> Forall (fun c => p c = true) (list_ascii_of_string s).
Proof.
  induction s as [|x s IH]; simpl.
  - split; [constructor | done].
  - rewrite andb_true_iff, IH, Forall_cons. done.
Qed.

End TextoLemas.

(** ** The derivative matcher decides the language of a pattern *)

Module RegexLemas.
Import Regex.

Ltac desplegar_append :=
  unfold caracter; rewrite ?append_cons, ?append_nil; simpl.

Lemma en_vacia_inv s : en Vacia s -> s = "".
Proof. by inversion 1. Qed.

Lemma en_clase_inv p s : en (Clase p) s <-> exists c, s = caracter c /\ p c = true.
Proof.
  split.
  - inversion 1; subst. eauto.
  - intros (c & -> & Hc). by constructor.
Qed.

Lemma en_sec_inv r1 r2 s :
  en (Sec r1 r2) s <-> exists s1 s2, s = s1 +:+ s2 /\ en r1 s1 /\ en r2 s2.
Proof.
  split.
  - inversion 1; subst. eauto.
  - intros (s1 & s2 & -> & H1 & H2). by constructor.
Qed.

Lemma anulable_en r : anulable r = true <-> en r "".
Proof.
  split.
  - induction r; simpl; intros H; try discriminate.
    + constructor.
    + apply andb_true_iff in H as [H1 H2].
      change "" with ("" +:+ ""). constructor; auto.
    + apply orb_true_iff in H as [H|H]; [apply en_alt_i | apply en_alt_d]; auto.
    + constructor.
  - intros H. remember "" as s eqn:Hs.
    induction H; simpl; subst; try done.
    + apply append_es_vacia in Hs as [-> ->]. rewrite IHen1, IHen2; done.
    + rewrite IHen; done.
    + rewrite IHen, orb_true_r; done.
Qed.

Lemma derivada_en c r s : en (derivada c r) s <-> en r (String c s).
Proof.
  split.
  - revert s. induction r; simpl; intros s H.
    + inversion H.
    + inversion H.
    + destruct (p c) eqn:Hp; inversion H; subst. by constructor.
    + destruct (anulable r1) eqn:Hn.
      * inversion H as [| |  | ? ? ? H1 | ? ? ? H1 | |]; subst.
        -- inversion H1; subst.
           change (String c (s1 +:+ s2)) with (String c s1 +:+ s2).
           constructor; auto.
        -- change (String c s) with ("" +:+ String c s).
           constructor; [by apply anulable_en | auto].
      * inversion H; subst.
        change (String c (s1 +:+ s2)) with (String c s1 +:+ s2).
        constructor; auto.
    + inversion H; subst; [apply en_alt_i | apply en_alt_d]; auto.
    + inversion H; subst.
      change (String c (s1 +:+ s2)) with (String c s1 +:+ s2).
      constructor; auto.
  - intros H. remember (String c s) as t eqn:Ht. revert s Ht.
    induction H as [| p x Hx | r1 r2 s1 s2 H1 IH1 H2 IH2 | r1 r2 u H1 IH1
                    | r1 r2 u H1 IH1 | r1 | r1 s1 s2 H1 IH1 H2 IH2];
      intros w Ht; simpl; try discriminate.
    + injection Ht as -> <-. rewrite Hx. constructor.
    + destruct s1 as [|x s1]; [rewrite append_nil in Ht | rewrite append_cons in Ht].
      * subst s2. assert (Hn : anulable r1 = true) by (by apply anulable_en).
        rewrite Hn. apply en_alt_d. auto.
      * injection Ht as -> <-.
        destruct (anulable r1); [apply en_alt_i |]; constructor; auto.
    + apply en_alt_i. auto.
    + apply en_alt_d. auto.
    + destruct s1 as [|x s1]; [rewrite append_nil in Ht | rewrite append_cons in Ht].
      * auto.
      * injection Ht as -> <-. constructor; auto.
Qed.

Lemma acepta_en r s : acepta r s = true <-> en r s.
Proof.
  revert r. induction s as [|c s IH]; intros r; simpl.
  - apply anulable_en.
  - rewrite IH. apply derivada_en.
Qed.

Lemma en_veces_clase p n s :
  en (Veces n (Clase p)) s <-> String.length s = n /\ todos p s = true.
Proof.
  revert s. induction n as [|n IH]; intros s; simpl.
  - split.
    + intros H. apply en_vacia_inv in H as ->. done.
    + intros [H _]. destruct s; [constructor | done].
  - split.
    + inversion 1 as [| | ? ? ? ? H1 H2 | | | |]; subst.
      apply en_clase_inv in H1 as (c & -> & Hc). apply IH in H2 as [<- Ht].
      desplegar_append. by rewrite Hc, Ht.
    + intros [Hl Ht]. destruct s as [|c s]; [done |]. simpl in *.
      apply andb_true_iff in Ht as [Hc Ht].
      change (String c s) with (caracter c +:+ s).
      constructor; [by constructor | apply IH; split; [lia | done]].
Qed.

Lemma en_veces_opc p n s :
  en (Veces n (Opc (Clase p))) s <-> (String.length s <= n)%nat /\ todos p s = true.
Proof.
  revert s. induction n as [|n IH]; intros s; simpl.
  - split.
    + intros H. apply en_vacia_inv in H as ->. done.
    + intros [H _]. destruct s; [constructor | simpl in H; lia].
  - split.
    + inversion 1 as [| | ? ? ? ? H1 H2 | | | |]; subst.
      apply IH in H2 as [Hl Ht].
      inversion H1 as [| | | ? ? ? H3 | ? ? ? H3 | |]; subst.
      * apply en_vacia_inv in H3 as ->. desplegar_append. split; [lia | done].
      * apply en_clase_inv in H3 as (c & -> & Hc). desplegar_append.
        rewrite Hc, Ht. split; [lia | done].
    + intros [Hl Ht]. destruct s as [|c s].
      * change "" with ("" +:+ ""). constructor.
        -- apply en_alt_i. constructor.
        -- apply IH. simpl. split; [lia | done].
      * simpl in *. apply andb_true_iff in Ht as [Hc Ht].
        change (String c s) with (caracter c +:+ s). constructor.
        -- apply en_alt_d. by constructor.
        -- apply IH. split; [lia | done].
Qed.

Lemma partir_en (n : nat) (s : string) :
  (n <= String.length s)%nat ->
  exists a b, s = a +:+ b /\ String.length a = n.
Proof.
  revert s. induction n as [|n IH]; intros s Hl.
  - exists "", s. done.
  - destruct s as [|c s]; simpl in Hl; [lia |].
    destruct (IH s) as (a & b & -> & Ha); [lia |].
    exists (String c a), b. simpl. by rewrite Ha.
Qed.

Lemma en_rango_clase p n m s :
  (n <= m)%nat ->
  en (Rango n m (Clase p)) s <->
  (n <= String.length s <= m)%nat /\ todos p s = true.
Proof.
  intros Hnm. unfold Rango. split.
  - inversion 1 as [| | ? ? ? ? H1 H2 | | | |]; subst.
    apply en_veces_clase in H1 as [H1 T1]. apply en_veces_opc in H2 as [H2 T2].
    rewrite longitud_append, todos_append, T1, T2. split; [lia | done].
  - intros [Hl Ht]. destruct (partir_en n s) as (a & b & -> & Ha); [lia |].
    rewrite todos_append in Ht. apply andb_true_iff in Ht as [Ta Tb].
    rewrite longitud_append in Hl.
    constructor; [apply en_veces_clase | apply en_veces_opc]; split; auto; lia.
Qed.

Lemma en_fin_de_texto s :
  en FinDeTexto s <-> s = "" \/ s = caracter (ascii_of_N 10).
Proof.
  unfold FinDeTexto, Opc. split.
  - inversion 1 as [| | | ? ? ? H1 | ? ? ? H1 | |]; subst.
    + apply en_vacia_inv in H1. auto.
    + apply en_clase_inv in H1 as (c & -> & Hc). right.
      apply N.eqb_eq in Hc. unfold Texto.ord in Hc.
      by rewrite <- Hc, ascii_N_embedding.
  - intros [-> | ->]; [apply en_alt_i; constructor | apply en_alt_d; by constructor].
Qed.

End RegexLemas.

(** ** The ID validator *)

Section ValidarRut.

Lemma upper_c_separador (c : ascii) : es_separador (upper_c c) = es_separador c.
Proof. destruct c as [[] [] [] [] [] [] [] []]; reflexivity. Qed.

Lemma clean_rut_sin_separador (x : string) :
  todos (fun c => negb (es_separador c)) (clean_rut x) = true.
Proof.
  unfold clean_rut, upper. induction x as [|c x IH]; simpl; [done |].
  destruct (es_separador c) eqn:Hc; [done |].
  simpl. by rewrite upper_c_separador, Hc, IH.
Qed.

Lemma mapM_digitos (l : list ascii) :
  Forall (fun c => es_digito c = true) l ->
  mapM int_de_caracter l = Some (map valor_digito l).
Proof.
  intros H. apply mapM_Some_2.
  induction H as [|c l Hc _ IH]; simpl; constructor; [| exact IH].
  unfold int_de_caracter. by rewrite Hc.
Qed.

Lemma reversed_digits_cuerpo (cuerpo : string) :
  todos es_digito cuerpo = true ->
  reversed_digits cuerpo = Some (digitos_desde_unidades cuerpo).
Proof.
  intros H. unfold reversed_digits, digitos_desde_unidades.
  rewrite mapM_digitos, map_rev; [done |].
  apply Forall_rev. by apply todos_Forall.
Qed.

(** The running index of the loop is the position modulo 6. *)
Lemma bucle_rut_suma (ds : list Z) (total : Z) (k : nat) :
  bucle_rut ds total (k mod 6) =
  (total + foldr Z.add 0 (imap (fun i d => d * nth ((k + i) mod 6) pesos 0) ds))%Z.
Proof.
  revert total k. induction ds as [|d ds IH]; intros total k.
  - simpl. lia.
  - cbn [bucle_rut imap foldr].
    replace ((k mod 6 + 1) mod length factors)%nat with (S k mod 6)%nat.
    2:{ change (length factors) with 6%nat.
        rewrite Nat.Div0.add_mod_idemp_l. by replace (k + 1)%nat with (S k) by lia. }
    rewrite IH. rewrite Nat.add_0_r.
    change factors with pesos.
    rewrite (imap_ext (fun i d0 => (d0 * nth ((S k + i) mod 6) pesos 0)%Z)
                      ((fun i d0 => (d0 * nth ((k + i) mod 6) pesos 0)%Z) ∘ S)).
    2:{ intros i x _. simpl. by replace (k + S i)%nat with (S (k + i)) by lia. }
    lia.
Qed.

Lemma bucle_rut_spec (ds : list Z) : bucle_rut ds 0 0 = suma_ponderada ds.
Proof.
  change 0%nat with (0 mod 6)%nat at 1. rewrite bucle_rut_suma.
  unfold suma_ponderada. simpl. done.
Qed.

Lemma dv_calculado_caracter (total : Z) :
  dv_calculado total =
  caracter (let r := (11 - total mod 11)%Z in
            if (r =? 10)%Z then "K"%char
            else if (r =? 11)%Z then "0"%char
            else ascii_of_N (Z.to_N (48 + r))).
Proof.
  unfold dv_calculado.
  assert (H : (0 <= total mod 11 < 11)%Z) by (apply Z.mod_pos_bound; lia).
  set (m := (total mod 11)%Z) in *. cbv zeta.
  assert (Hm : (m = 0 \/ m = 1 \/ m = 2 \/ m = 3 \/ m = 4 \/ m = 5 \/ m = 6 \/
               m = 7 \/ m = 8 \/ m = 9 \/ m = 10)%Z) by lia.
  destruct Hm as [-> | [-> | [-> | [-> | [-> | [-> | [-> | [-> | [-> | [-> | ->]]]]]]]]]];
    reflexivity.
Qed.

Lemma es_dv_casos (c : ascii) :
  es_dv c = true <-> es_digito c = true \/ c = "K"%char.
Proof.
  unfold es_dv, es_digito. rewrite orb_true_iff, N.eqb_eq. unfold ord.
  split; (intros [H | H]; [by left | right]).
  - by rewrite <- (ascii_N_embedding c), H.
  - by subst.
Qed.

(** What the pattern [^\d{7,8}[0-9K]$] accepts among cleaned strings. *)
Lemma re_match_patron_rut (x : string) :
  re_match patron_rut (clean_rut x) = true <->
  exists cuerpo dv,
    clean_rut x = cuerpo +:+ caracter dv /\
    (7 <= String.length cuerpo <= 8)%nat /\
    todos es_digito cuerpo = true /\ es_dv dv = true.
Proof.
  unfold re_match. rewrite RegexLemas.acepta_en. split.
  - intros H. apply RegexLemas.en_sec_inv in H as (s1 & s2 & E & H1 & H2).
    apply RegexLemas.en_sec_inv in H1 as (a & b & -> & Ha & Hb).
    apply RegexLemas.en_rango_clase in Ha as [Hl Ht]; [| lia].
    apply RegexLemas.en_clase_inv in Hb as (dv & -> & Hdv).
    apply RegexLemas.en_fin_de_texto in H2 as [-> | ->].
    + rewrite append_vacia_d in E. eauto 10.
    + pose proof (clean_rut_sin_separador x) as Hs. rewrite E in Hs.
      rewrite !todos_append in Hs.
      apply andb_true_iff in Hs as [_ Hs]. discriminate.
  - intros (cuerpo & dv & -> & Hl & Ht & Hdv).
    rewrite <- (append_vacia_d (cuerpo +:+ caracter dv)).
    constructor; [| apply RegexLemas.en_fin_de_texto; by left].
    constructor; [apply RegexLemas.en_rango_clase; [lia | done] | by constructor].
Qed.

End ValidarRut.

Example validar_rut_k : validar_rut "11.111.112-k" = true.
Proof. vm_compute. reflexivity. Qed.

Example validar_email_muestra :
  validar_email "ana.perez@liceo.cl" = true /\ validar_email "12345678-5" = false.
Proof. vm_compute. auto. Qed.

Example validar_telefono_muestra :
  validar_telefono "(56) 9-1234 5678" = true /\ validar_telefono "12345" = false.
Proof. vm_compute. auto. Qed.

(** ** Pagination *)

Section Paginar.

Lemma iloc_no_negativo {A : Type} (l : list A) (a b : Z) :
  (0 <= a <= b)%Z ->
  iloc l a b = take (Z.to_nat (b - a)) (drop (Z.to_nat a) l).
Proof.
  intros Hab. unfold iloc, ajustar.
  destruct (Z.ltb_spec a 0) as [?|_]; [lia |].
  destruct (Z.ltb_spec b 0) as [?|_]; [lia |].
  set (n := Z.of_nat (length l)).
  destruct (Z.le_gt_cases n a) as [Hna | Hna].
  - rewrite !drop_ge by lia. by rewrite !take_nil.
  - rewrite (Z.min_l a n) by lia.
    destruct (Z.le_gt_cases b n) as [Hbn | Hbn].
    + by rewrite (Z.min_l b n) by lia.
    + rewrite (Z.min_r b n) by lia.
      rewrite !take_ge; [done | |]; rewrite length_drop; lia.
Qed.

Lemma paginas_impresas_app (a b : list Evento) :
  paginas_impresas (a ++ b) = paginas_impresas a ++ paginas_impresas b.
Proof. unfold paginas_impresas. apply omap_app. Qed.

(** The traversal when every answer lets it go on: it ends normally and
    has printed one slice per pending page number. *)
Lemma paginar_desde_continua (df : DataFrame) (total page_size pages : Z)
    (k a : nat) (ent : list string) (sal : list Evento) :
  Forall continua ent ->
  (k <= length ent + 1)%nat ->
  (Z.of_nat (a + k) = pages)%Z ->
  exists w',
    paginar_desde df total (map Z.of_nat (seq a k)) page_size pages
      {| entrada := ent; salida := sal |} = (Valor tt, w') /\
    paginas_impresas (salida w') =
    paginas_impresas sal ++
    map (fun i => iloc (filas df) (i * page_size) (i * page_size + page_size))
        (map Z.of_nat (seq a k)).
Proof.
  revert a ent sal. induction k as [|k IH]; intros a ent sal Hent Hlen Hpages.
  - eexists. split; [reflexivity |]. simpl. by rewrite app_nil_r.
  - cbn [seq map paginar_desde].
    unfold mbind, io_bind, emitir, mostrar_mensaje, emitir. cbn [entrada salida].
    destruct (Z.ltb_spec (Z.of_nat a) (pages - 1)) as [Hlt | Hge].
    + destruct ent as [|linea ent]; [simpl in Hlen; lia |].
      apply Forall_cons in Hent as [[Hq Hs] Hent].
      unfold input at 1. cbn [entrada salida].
      rewrite (bool_decide_eq_false_2 _ Hq), (bool_decide_eq_false_2 _ Hs).
      destruct (IH (S a) ent
                  ((sal ++ [Impreso (iloc (filas df) (Z.of_nat a * page_size)
                                       (Z.of_nat a * page_size + page_size))]) ++
                   [Mensaje info (pie_de_pagina (Z.of_nat a) pages
                      (Z.of_nat a * page_size)
                      (Z.of_nat a * page_size + page_size) total)]))
        as (w' & Hrun & Hpag); [done | simpl in Hlen; lia | lia |].
      exists w'. split; [exact Hrun |].
      rewrite Hpag, !paginas_impresas_app. simpl. by rewrite app_nil_r, <- app_assoc.
    + assert (k = 0%nat) as -> by lia.
      eexists. split; [reflexivity |].
      cbn [salida]. rewrite !paginas_impresas_app. simpl.
      by rewrite app_nil_r.
Qed.

Lemma concat_tramos {A : Type} (l : list A) (p k a : nat) :
  concat (map (fun i => take p (drop (i * p) l)) (seq a k)) =
  take (k * p) (drop (a * p) l).
Proof.
  revert a. induction k as [|k IH]; intros a; [done |].
  cbn [seq map concat]. rewrite IH.
  replace (S k * p)%nat with (p + k * p)%nat by lia.
  rewrite <- take_take_drop, drop_drop.
  by replace (S a * p)%nat with (a * p + p)%nat by lia.
Qed.

End Paginar.

Section PaginarTeoremas.

Lemma techo_paginas (n ps : Z) :
  (0 <= n)%Z -> (1 <= ps)%Z ->
  let pages := ((n + ps - 1) / ps)%Z in
  (0 <= pages /\ n <= pages * ps < n + ps)%Z.
Proof.
  intros Hn Hps pages.
  pose proof (Z.div_mod (n + ps - 1) ps ltac:(lia)) as Hdm.
  pose proof (Z.mod_pos_bound (n + ps - 1) ps ltac:(lia)) as Hr.
  fold pages in Hdm. split; [apply Z.div_pos; lia | nia].
Qed.

Lemma paginas_como_tramos {A : Type} (l : list A) (ps : Z) (k : nat) :
  (1 <= ps)%Z ->
  map (fun i => iloc l (i * ps) (i * ps + ps)) (map Z.of_nat (seq 0 k)) =
  map (fun i => take (Z.to_nat ps) (drop (i * Z.to_nat ps) l)) (seq 0 k).
Proof.
  intros Hps. rewrite map_map. apply map_ext. intros i.
  rewrite iloc_no_negativo by nia.
  f_equal; [f_equal; lia | f_equal; nia].
Qed.

(** C5. For a table of [n] rows and a page size of at least 1, a traversal
    in which every answer between pages lets it go on (and the console
    holds enough answers for its prompts) ends normally and has printed
    exactly [ceil(n / page_size)] pages; page [i] is the rows from
    [i * page_size] up to, not including, [min ((i + 1) * page_size) n];
    the pages concatenated in order are the table. *)
Theorem paginar_sin_perdidas (df : DataFrame) (page_size : Z) (w : Consola) :
  (1 <= page_size)%Z ->
  Forall continua (entrada w) ->
  (length (filas df) <= (length (entrada w) + 1) * Z.to_nat page_size)%nat ->
  exists (w' : Consola) (P : list (list (gmap string string))),
    paginar df page_size w = (Valor tt, w') /\
    paginas_impresas (salida w') = paginas_impresas (salida w) ++ P /\
    (length (filas df) <= length P * Z.to_nat page_size
       < length (filas df) + Z.to_nat page_size)%nat /\
    (forall i : nat, (i < length P)%nat ->
       P !! i = Some (tramo (filas df) (i * Z.to_nat page_size)
                        (Nat.min ((i + 1) * Z.to_nat page_size) (length (filas df))))) /\
    concat P = filas df.
Proof.
  intros Hps Hent Hlen. unfold paginar.
  set (l := filas df) in *. set (n := Z.of_nat (length l)).
  set (p := Z.to_nat page_size) in *.
  destruct (Z.eqb_spec n 0) as [Hn0 | Hn0].
  - exists {| entrada := entrada w;
              salida := salida w ++ [Mensaje advertencia "No hay registros para mostrar."] |}, [].
    assert (l = []) as Hl by (destruct l; [done | simpl in *; lia]).
    rewrite Hl. simpl. repeat split; try lia.
    by rewrite paginas_impresas_app.
  - destruct (Z.eqb_spec page_size 0) as [? | _]; [lia |].
    destruct (techo_paginas n page_size ltac:(lia) Hps) as (Hp0 & Hp1 & Hp2).
    set (pages := ((n + page_size - 1) / page_size)%Z) in *.
    unfold range. set (k := Z.to_nat pages).
    assert (Hkp : (Z.of_nat (k * p) = pages * page_size)%Z).
    { unfold k, p. rewrite Nat2Z.inj_mul, !Z2Nat.id; lia. }
    destruct (paginar_desde_continua df n page_size pages k 0 (entrada w) (salida w))
      as (w' & Hrun & Hpag); [done | | unfold k; simpl; lia |].
    { assert ((pages * page_size < (Z.of_nat (length (entrada w)) + 2) * page_size)%Z)
        by (unfold n in *; unfold p in Hlen; nia).
      assert ((pages < Z.of_nat (length (entrada w)) + 2)%Z) by nia.
      unfold k. lia. }
    rewrite paginas_como_tramos in Hpag by done. fold p l in Hpag.
    exists w'. eexists. destruct w as [ent sal]. split; [exact Hrun |].
    split; [exact Hpag |]. rewrite length_map, length_seq.
    split; [unfold n in *; lia |]. split.
    + intros i Hi. rewrite list_lookup_fmap, lookup_seq_lt by done. simpl.
      f_equal. unfold tramo.
      destruct (Nat.le_gt_cases ((i + 1) * p) (length l)) as [Hle | Hgt].
      * rewrite Nat.min_l by done. f_equal. lia.
      * rewrite Nat.min_r by lia.
        rewrite !take_ge; [done | |]; rewrite length_drop; lia.
    + rewrite concat_tramos. simpl. rewrite drop_0.
      apply take_ge. unfold n in *. lia.
Qed.

(** A run of three rows in pages of two. *)
Lemma paginar_sin_perdidas_testigo :
  exists (w' : Consola) (P : list (list (gmap string string))),
    paginar (tabla_numerada 3) 2 {| entrada := [""]; salida := [] |} = (Valor tt, w') /\
    paginas_impresas (salida w') = [] ++ P /\
    (3 <= length P * 2 < 3 + 2)%nat /\
    (forall i : nat, (i < length P)%nat ->
       P !! i = Some (tramo (filas (tabla_numerada 3)) (i * 2) (Nat.min ((i + 1) * 2) 3))) /\
    concat P = filas (tabla_numerada 3).
Proof.
  apply (paginar_sin_perdidas (tabla_numerada 3) 2 {| entrada := [""]; salida := [] |}).
  - lia.
  - repeat constructor; discriminate.
  - simpl. lia.
Defined.

End PaginarTeoremas.

(** C6. The resize branch of [paginar] recomputes [pages] but does not
    restart the traversal: assigning [i = -1] inside [for i in
    range(pages)] does not move the iterator. With 21 rows and the default
    page size 20, the answers [s] and [5] after the first page are followed
    by the rows 5 to 9, announced as page 2 of 5, and the traversal ends
    there, at the end of the original [range(2)]; the rows 0 to 4 of a
    restarted traversal are not what is printed. *)
Theorem paginar_cambio_de_tamano_no_reinicia :
  let df := tabla_numerada 21 in
  let w' := snd (paginar df 20 {| entrada := ["s"; "5"; ""]; salida := [] |}) in
  fst (paginar df 20 {| entrada := ["s"; "5"; ""]; salida := [] |}) = Valor tt /\
  salida w' =
    [ Impreso (tramo (filas df) 0 20);
      Mensaje info "Página 1/2 (1-20 de 21)";
      Impreso (tramo (filas df) 5 10);
      Mensaje info "Página 2/5 (6-10 de 21)" ] /\
  entrada w' = [] /\
  paginas_impresas (salida w') <>
    tramo (filas df) 0 20 ::
    map (fun i => tramo (filas df) (i * 5) (Nat.min ((i + 1) * 5) 21)) (seq 0 5).
Proof.
  vm_compute. repeat split; discriminate.
Qed.

(** ** Search *)

Section Buscar.






End Buscar.

Section BuscarTeoremas.



(** The empty query on a table with a column returns the table. *)
Example buscar_consulta_vacia :
  let df := {| columns := ["NOMBRE"];
               filas := [ {[ "NOMBRE" := "Ana" ]}; {[ "NOMBRE" := "Luis" ]} ] |} in
  filas (buscar None df "") = filas df.
Proof. vm_compute. reflexivity. Qed.

End BuscarTeoremas.

(** ** Update of a row *)

Section Actualizar.

Lemma format_rut_no_vacio (v : string) : v <> "" -> format_rut v <> "".
Proof.
  intros Hv. unfold format_rut.
  destruct (String.length (clean_rut v) <? 2)%nat; [done |].
  intros H. apply append_es_vacia in H as [_ H]. discriminate.
Qed.

Lemma celda_at_set (df : DataFrame) (idx : nat) (col v : string)
    (fila : gmap string string) :
  filas df !! idx = Some fila ->
  exists fila', filas (at_set df idx col v) !! idx = Some fila' /\
                celda fila' col = v /\
                forall c, c <> col -> fila' !! c = fila !! c.
Proof.
  intros H. exists (<[col := v]> fila). cbn [at_set filas].
  rewrite list_lookup_alter_eq, H. split; [done |]. split.
  - unfold celda. by rewrite lookup_insert_eq.
  - intros c Hc. by rewrite lookup_insert_ne.
Qed.

(** One turn of the update loop reads one line and either leaves the frame
    as it is or stores a non-empty value in the cell of its column. *)
Lemma actualizar_columna_forma (g : GestorDocentes) (idx : nat) (df : DataFrame)
    (col linea : string) (ent : list string) (sal : list Evento) :
  exists df1 sal1,
    actualizar_columna g idx df col {| entrada := linea :: ent; salida := sal |} =
      (Valor df1, {| entrada := ent; salida := sal1 |}) /\
    (df1 = df \/
     (strip linea <> "" /\ exists v, v <> "" /\ df1 = at_set df idx col v)).
Proof.
  unfold actualizar_columna, mbind, io_bind, input. cbn [entrada salida].
  destruct (decide (strip linea = "")) as [He | Hne].
  - rewrite bool_decide_eq_true_2 by done. eexists _, _. split; [reflexivity | by left].
  - rewrite bool_decide_eq_false_2 by done.
    destruct (es_columna (col_rut g) col).
    { destruct (validar_rut (strip linea)); cbn.
      - eexists _, _. split; [reflexivity |]. right. split; [done |].
        eexists. split; [| reflexivity]. by apply format_rut_no_vacio.
      - eexists _, _. split; [reflexivity | by left]. }
    destruct (es_columna (col_email g) col).
    { destruct (validar_email (strip linea)); cbn.
      - eexists _, _. split; [reflexivity |]. right. eauto.
      - eexists _, _. split; [reflexivity | by left]. }
    destruct (es_columna (col_tel g) col).
    { destruct (validar_telefono (strip linea)); cbn.
      - eexists _, _. split; [reflexivity |]. right. eauto.
      - eexists _, _. split; [reflexivity | by left]. }
    eexists _, _. split; [reflexivity |]. right. eauto.
Qed.

Lemma actualizar_columna_vacia (g : GestorDocentes) (idx : nat) (df : DataFrame)
    (col linea : string) (ent : list string) (sal : list Evento) :
  strip linea = "" ->
  actualizar_columna g idx df col {| entrada := linea :: ent; salida := sal |} =
    (Valor df, {| entrada := ent; salida := sal |}).
Proof.
  intros He. unfold actualizar_columna, mbind, io_bind, input. cbn [entrada salida].
  by rewrite bool_decide_eq_true_2.
Qed.

Lemma actualizar_columna_eof (g : GestorDocentes) (idx : nat) (df : DataFrame)
    (col : string) (sal : list Evento) :
  actualizar_columna g idx df col {| entrada := []; salida := sal |} =
    (Lanza EOFError, {| entrada := []; salida := sal |}).
Proof. reflexivity. Qed.

Lemma actualizar_columnas_cons (g : GestorDocentes) (idx : nat) (df : DataFrame)
    (col : string) (resto : list string) (w : Consola) :
  actualizar_columnas g idx (col :: resto) df w =
  match actualizar_columna g idx df col w with
  | (Valor df1, w1) => actualizar_columnas g idx resto df1 w1
  | (Lanza e, w1) => (Lanza e, w1)
  end.
Proof. reflexivity. Qed.

End Actualizar.

Section ActualizarTeoremas.

(** C7, as the code has it. In the update of a row, a non-empty answer for
    a column bound to a role is checked by the validator of that role, the
    role of a column bound to several roles being the first of ID, email
    and phone. When the validator rejects the answer the frame is left as
    it is, a warning is shown and the loop goes on with the remaining
    columns; when it accepts, the cell is replaced by the answer, an ID
    being stored as [format_rut] writes it, and the loop goes on. *)
Theorem actualizar_celda_con_rol (g : GestorDocentes) (idx : nat) (df : DataFrame)
    (col linea : string) (ent : list string) (sal : list Evento) (r : Rol) :
  rol_de g col = Some r ->
  strip linea <> "" ->
  let v := strip linea in
  let w := {| entrada := linea :: ent; salida := sal |} in
  (validador r v = false ->
   let w1 := {| entrada := ent; salida := sal ++ [Mensaje advertencia (aviso r)] |} in
   actualizar_columna g idx df col w = (Valor df, w1) /\
   forall resto : list string,
     actualizar_columnas g idx (col :: resto) df w =
     actualizar_columnas g idx resto df w1) /\
  (validador r v = true ->
   let df1 := at_set df idx col (almacenado r v) in
   let w1 := {| entrada := ent; salida := sal |} in
   actualizar_columna g idx df col w = (Valor df1, w1) /\
   (forall fila : gmap string string,
      filas df !! idx = Some fila ->
      exists fila', filas df1 !! idx = Some fila' /\ celda fila' col = almacenado r v) /\
   forall resto : list string,
     actualizar_columnas g idx (col :: resto) df w =
     actualizar_columnas g idx resto df1 w1).
Proof.
  intros Hr Hv v w.
  assert (Hpaso :
    actualizar_columna g idx df col w =
    if validador r v
    then (Valor (at_set df idx col (almacenado r v)),
          {| entrada := ent; salida := sal |})
    else (Valor df,
          {| entrada := ent; salida := sal ++ [Mensaje advertencia (aviso r)] |})).
  { unfold actualizar_columna, mbind, io_bind, input, w. cbn [entrada salida].
    fold v. rewrite bool_decide_eq_false_2 by done.
    unfold rol_de, ligado in Hr.
    destruct (es_columna (col_rut g) col).
    { injection Hr as <-. cbn [validador almacenado aviso].
      destruct (validar_rut v); reflexivity. }
    destruct (es_columna (col_email g) col).
    { injection Hr as <-. cbn [validador almacenado aviso].
      destruct (validar_email v); reflexivity. }
    destruct (es_columna (col_tel g) col); [| discriminate].
    injection Hr as <-. cbn [validador almacenado aviso].
    destruct (validar_telefono v); reflexivity. }
  split; intros Hval; rewrite Hval in Hpaso; cbv zeta.
  - split; [exact Hpaso |]. intros resto.
    by rewrite actualizar_columnas_cons, Hpaso.
  - split; [exact Hpaso |]. split.
    + intros fila Hfila.
      destruct (celda_at_set df idx col (almacenado r v) fila Hfila)
        as (fila' & H1 & H2 & _).
      eauto.
    + intros resto. by rewrite actualizar_columnas_cons, Hpaso.
Qed.

(** An invalid ID typed over a valid one: the cell is kept and the warning
    is shown. *)
Lemma actualizar_celda_con_rol_testigo :
  let g := {| columnas := ["RUT"; "NOMBRE"]; col_rut := Some "RUT";
              col_email := None; col_tel := None; lock_timeout := 300 |} in
  let df := {| columns := ["RUT"; "NOMBRE"];
               filas := [ {[ "RUT" := "12345678-5"; "NOMBRE" := "Ana" ]} ] |} in
  actualizar_columna g 0 df "RUT" {| entrada := ["12345678-9"]; salida := [] |} =
    (Valor df, {| entrada := []; salida := [Mensaje advertencia (aviso ID)] |}).
Proof.
  intros g df.
  apply (actualizar_celda_con_rol g 0 df "RUT" "12345678-9" [] [] ID).
  - reflexivity.
  - vm_compute. discriminate.
  - vm_compute. reflexivity.
Defined.

(** A column bound both to the ID role and to the email role is treated as
    an ID only: a valid ID, which the email validator rejects, replaces the
    cell. *)
Lemma actualizar_columna_con_dos_roles :
  let g := {| columnas := ["RUT"]; col_rut := Some "RUT";
              col_email := Some "RUT"; col_tel := None; lock_timeout := 300 |} in
  let df := {| columns := ["RUT"]; filas := [ {[ "RUT" := "11111111-1" ]} ] |} in
  ligado g EMAIL "RUT" = true /\
  validador EMAIL (strip "12345678-5") = false /\
  actualizar_columna g 0 df "RUT" {| entrada := ["12345678-5"]; salida := [] |} =
    (Valor {| columns := ["RUT"]; filas := [ {[ "RUT" := "12345678-5" ]} ] |},
     {| entrada := []; salida := [] |}).
Proof. vm_compute. auto. Qed.

End ActualizarTeoremas.

Section RespuestaVacia.

(** What a run of the update loop over [cols] can have done to a frame. *)
Lemma actualizar_columnas_marco (g : GestorDocentes) (idx : nat) (cols : list string) :
  forall (df : DataFrame) (w : Consola) (df' : DataFrame) (w' : Consola),
  actualizar_columnas g idx cols df w = (Valor df', w') ->
  columns df' = columns df /\
  length (filas df') = length (filas df) /\
  (forall i : nat, i <> idx -> filas df' !! i = filas df !! i) /\
  (forall fila' : gmap string string,
     filas df' !! idx = Some fila' ->
     exists fila : gmap string string,
       filas df !! idx = Some fila /\
       (forall c : string,
          fila' !! c = fila !! c \/ exists v, fila' !! c = Some v /\ v <> "") /\
       (forall c : string,
          (forall j : nat, cols !! j = Some c ->
             exists linea, entrada w !! j = Some linea /\ strip linea = "") ->
          fila' !! c = fila !! c)).
Proof.
  induction cols as [|col resto IH]; intros df w df' w' Hrun.
  - injection Hrun as <- <-. repeat split; try done.
    intros fila' Hf. exists fila'. repeat split; auto.
  - rewrite actualizar_columnas_cons in Hrun.
    destruct w as [[|linea ent] sal].
    { rewrite actualizar_columna_eof in Hrun. discriminate. }
    destruct (actualizar_columna_forma g idx df col linea ent sal)
      as (df1 & sal1 & Hpaso & Hdf1).
    rewrite Hpaso in Hrun.
    destruct (IH _ _ _ _ Hrun) as (Hc & Hl & Hotros & Hfila). clear IH.
    cbn [entrada] in Hfila.
    destruct Hdf1 as [-> | (Hne & v & Hv & ->)].
    + repeat split; try done.
      intros fila' Hf'. destruct (Hfila fila' Hf') as (fila & Hf & Hcel & Hsalto).
      exists fila. repeat split; try done.
      intros c Hc'. apply Hsalto. intros j Hj. apply (Hc' (S j)). exact Hj.
    + cbn [at_set columns filas] in *. rewrite length_alter in Hl.
      repeat split; try done.
      * intros i Hi. rewrite Hotros by done. by apply list_lookup_alter_ne.
      * intros fila' Hf'. destruct (Hfila fila' Hf') as (fila1 & Hf1 & Hcel & Hsalto).
        rewrite list_lookup_alter_eq in Hf1.
        destruct (filas df !! idx) as [fila|] eqn:Hf; [| discriminate].
        injection Hf1 as <-.
        exists fila. split; [done |]. split.
        -- intros c. destruct (decide (c = col)) as [-> | Hcc].
           ++ destruct (Hcel col) as [H | H]; [| by right].
              right. exists v. by rewrite H, lookup_insert_eq.
           ++ destruct (Hcel c) as [H | H]; [| by right].
              left. by rewrite H, lookup_insert_ne.
        -- intros c Hc'.
           assert (c <> col) as Hcc.
           { intros ->. destruct (Hc' 0%nat eq_refl) as (l0 & [= <-] & Hl0). done. }
           rewrite Hsalto, lookup_insert_ne; [done | done |].
           intros j Hj. apply (Hc' (S j)). exact Hj.
Qed.

(** C10. In the update of a row, an answer that is empty (once stripped)
    leaves the frame as it is, whatever the column and its role. Over the
    whole loop: the other rows are untouched, every cell of the row either
    keeps its value or holds a non-empty text, so no cell is set to the
    empty string, and a column whose every answer was empty keeps its
    cell. *)
Theorem actualizar_respuesta_vacia (g : GestorDocentes) (idx : nat)
    (cols : list string) (df : DataFrame) (w : Consola) (df' : DataFrame)
    (w' : Consola) :
  actualizar_columnas g idx cols df w = (Valor df', w') ->
  (forall (col linea : string) (ent : list string) (sal : list Evento)
          (df0 : DataFrame),
     strip linea = "" ->
     actualizar_columna g idx df0 col {| entrada := linea :: ent; salida := sal |} =
       (Valor df0, {| entrada := ent; salida := sal |})) /\
  columns df' = columns df /\
  length (filas df') = length (filas df) /\
  (forall i : nat, i <> idx -> filas df' !! i = filas df !! i) /\
  (forall fila' : gmap string string,
     filas df' !! idx = Some fila' ->
     exists fila : gmap string string,
       filas df !! idx = Some fila /\
       (forall c : string,
          fila' !! c = fila !! c \/ exists v, fila' !! c = Some v /\ v <> "") /\
       (forall c : string,
          (forall j : nat, cols !! j = Some c ->
             exists linea, entrada w !! j = Some linea /\ strip linea = "") ->
          fila' !! c = fila !! c)).
Proof.
  intros Hrun. split.
  - intros col linea ent sal df0 He. by apply actualizar_columna_vacia.
  - by apply (actualizar_columnas_marco g idx cols df w df' w').
Qed.

(** The name is retyped, the ID and the email are skipped with an empty
    answer. *)
Lemma actualizar_respuesta_vacia_testigo :
  let g := {| columnas := ["RUT"; "NOMBRE"; "EMAIL"]; col_rut := Some "RUT";
              col_email := Some "EMAIL"; col_tel := None; lock_timeout := 300 |} in
  let df := {| columns := ["RUT"; "NOMBRE"; "EMAIL"];
               filas := [ {[ "RUT" := "12345678-5"; "NOMBRE" := "Ana"; "EMAIL" := "" ]} ] |} in
  let w := {| entrada := [""; "Ana Rosa"; "  "]; salida := [] |} in
  let df' := {| columns := ["RUT"; "NOMBRE"; "EMAIL"];
                filas := [ {[ "RUT" := "12345678-5"; "NOMBRE" := "Ana Rosa"; "EMAIL" := "" ]} ] |} in
  actualizar_columnas g 0 (columnas g) df w = (Valor df', {| entrada := []; salida := [] |}) /\
  length (filas df') = length (filas df).
Proof.
  intros g df w df'.
  assert (Hrun : actualizar_columnas g 0 (columnas g) df w =
                 (Valor df', {| entrada := []; salida := [] |}))
    by (vm_compute; reflexivity).
  split; [exact Hrun |].
  apply (actualizar_respuesta_vacia g 0 (columnas g) df w df' _ Hrun).
Defined.

End RespuestaVacia.

(** ** Lookup by key *)

Section BusquedaPorClave.

Lemma indices_desde_app {A : Type} (p : A -> bool) (l1 l2 : list A) (k : nat) :
  indices_desde p (l1 ++ l2) k =
  indices_desde p l1 k ++ indices_desde p l2 (k + length l1).
Proof.
  revert k. induction l1 as [|x l1 IH]; intros k; simpl.
  - by rewrite Nat.add_0_r.
  - rewrite IH. replace (S k + length l1)%nat with (k + S (length l1))%nat by lia.
    by destruct (p x).
Qed.

Lemma indices_desde_elem {A : Type} (p : A -> bool) (l : list A) (k i : nat) :
  i ∈ indices_desde p l k <->
  (k <= i)%nat /\ exists x, l !! (i - k)%nat = Some x /\ p x = true.
Proof.
  revert k. induction l as [|x l IH]; intros k; simpl.
  - split; [by intros ?%elem_of_nil | intros (_ & y & Hy & _); done].
  - assert (Hrec : i ∈ indices_desde p l (S k) <->
                   (k < i)%nat /\ exists y, (x :: l) !! (i - k)%nat = Some y /\ p y = true).
    { rewrite IH. split.
      - intros (Hk & y & Hy & Hp). split; [lia |]. exists y. split; [| done].
        replace (i - k)%nat with (S (i - S k)) by lia. done.
      - intros (Hk & y & Hy & Hp). split; [lia |]. exists y. split; [| done].
        replace (i - k)%nat with (S (i - S k)) in Hy by lia. done. }
    destruct (p x) eqn:Hx.
    + rewrite elem_of_cons, Hrec. split.
      * intros [-> | (Hk & H)]; [| split; [lia | done]].
        split; [done |]. exists x. by rewrite Nat.sub_diag.
      * intros (Hk & y & Hy & Hp).
        destruct (decide (i = k)) as [-> | Hne]; [by left | right].
        split; [lia |]. eauto.
    + rewrite Hrec. split.
      * intros (Hk & H). split; [lia | done].
      * intros (Hk & y & Hy & Hp).
        destruct (decide (i = k)) as [-> | Hne].
        -- rewrite Nat.sub_diag in Hy. injection Hy as <-. congruence.
        -- split; [lia |]. eauto.
Qed.

(** The head of the list of matches is the first match. *)
Lemma indices_desde_primero {A : Type} (p : A -> bool) (l : list A) (k i : nat)
    (otros : list nat) :
  indices_desde p l k = i :: otros ->
  forall (j : nat) (y : A), (k <= j < i)%nat -> l !! (j - k)%nat = Some y -> p y = false.
Proof.
  revert k. induction l as [|x l IH]; intros k H j y Hj Hy; simpl in H; [done |].
  destruct (p x) eqn:Hx.
  - injection H as <- _. lia.
  - destruct (decide (j = k)) as [-> | Hne].
    + rewrite Nat.sub_diag in Hy. injection Hy as <-. done.
    + apply (IH (S k) H j y); [lia |].
      replace (j - k)%nat with (S (j - S k)) in Hy by lia. done.
Qed.

Lemma idx_list_elem (df : DataFrame) (c k : string) (i : nat) :
  i ∈ idx_list df c k <->
  exists fila, filas df !! i = Some fila /\ clean_rut (celda fila c) = clean_rut k.
Proof.
  unfold idx_list, ser_norm. rewrite indices_desde_elem, Nat.sub_0_r. split.
  - intros (_ & x & Hx & Hp). rewrite list_lookup_fmap in Hx.
    destruct (filas df !! i) as [fila|]; [| done]. injection Hx as <-.
    apply bool_decide_eq_true in Hp. eauto.
  - intros (fila & Hf & Hc). split; [lia |].
    exists (clean_rut (celda fila c)). rewrite list_lookup_fmap, Hf.
    split; [done | by apply bool_decide_eq_true].
Qed.

Lemma idx_list_primero (df : DataFrame) (c k : string) (i : nat) (otros : list nat) :
  idx_list df c k = i :: otros ->
  forall (j : nat) (fila : gmap string string),
    (j < i)%nat -> filas df !! j = Some fila ->
    clean_rut (celda fila c) <> clean_rut k.
Proof.
  unfold idx_list, ser_norm. intros H j fila Hj Hf Hc.
  assert (bool_decide (clean_rut (celda fila c) = clean_rut k) = false) as Hp.
  { apply (indices_desde_primero _ _ 0 i otros H j); [lia |].
    by rewrite Nat.sub_0_r, list_lookup_fmap, Hf. }
  by apply bool_decide_eq_false in Hp.
Qed.

Lemma idx_list_agregar (df : DataFrame) (c k : string) (nuevo : gmap string string) :
  clean_rut k = clean_rut (celda nuevo c) ->
  idx_list {| columns := columns df; filas := filas df ++ [nuevo] |} c k =
  idx_list df c k ++ [length (filas df)].
Proof.
  intros Hk. unfold idx_list, ser_norm. cbn [filas].
  rewrite map_app, indices_desde_app, length_map. cbn [map indices_desde].
  by rewrite bool_decide_eq_true_2.
Qed.

Lemma upper_c_lower_c (c : ascii) :
  upper_c (lower_c c) = upper_c c /\ es_separador (lower_c c) = es_separador c /\
  upper_c (upper_c c) = upper_c c.
Proof. destruct c as [[] [] [] [] [] [] [] []]; repeat split; reflexivity. Qed.

Lemma clean_rut_lower (s : string) : clean_rut (lower s) = clean_rut s.
Proof.
  unfold clean_rut, lower, upper. induction s as [|c s IH]; [done |].
  destruct (upper_c_lower_c c) as (H1 & H2 & _). simpl. rewrite H2.
  destruct (es_separador c); [done |]. simpl. by rewrite H1, IH.
Qed.

Lemma clean_rut_upper (s : string) : clean_rut (upper s) = clean_rut s.
Proof.
  unfold clean_rut, upper. induction s as [|c s IH]; [done |].
  destruct (upper_c_lower_c c) as (_ & _ & H3). simpl.
  rewrite upper_c_separador.
  destruct (es_separador c); [done |]. simpl. by rewrite H3, IH.
Qed.

Lemma clean_rut_separador (a b : string) (x : ascii) :
  es_separador x = true -> clean_rut (a +:+ String x b) = clean_rut (a +:+ b).
Proof.
  intros Hx. unfold clean_rut. f_equal.
  induction a as [|c a IH]; rewrite ?append_nil, ?append_cons; simpl.
  - by rewrite Hx.
  - by rewrite IH.
Qed.

End BusquedaPorClave.

Section BusquedaTeoremas.

(** The update option on a key that matches: the row edited is the head of
    the matches, and the warning is shown when there are several. *)
Lemma opcion_actualizar_encontrado (g : GestorDocentes) (df : DataFrame)
    (c linea : string) (ent : list string) (sal : list Evento) (i : nat)
    (otros : list nat) :
  ligada (col_rut g) = Some c ->
  idx_list df c (strip linea) = i :: otros ->
  opcion_actualizar g df {| entrada := linea :: ent; salida := sal |} =
  (df' ← actualizar_columnas g i (columnas g) df;
   mostrar_mensaje "Registro actualizado correctamente." exito;;
   emitir (Log INFO "Actualizado registro");;
   mret df')
    {| entrada := ent;
       salida := sal ++
         (if decide (otros = []) then []
          else [Mensaje advertencia
                  "Hay múltiples coincidencias. Se mostrará la primera."]) ++
         [Mensaje info "Registro actual:"] |}.
Proof.
  intros Hlig Hidx. unfold opcion_actualizar. rewrite Hlig.
  unfold mbind at 1. unfold io_bind at 1. unfold input at 1. cbn [entrada salida].
  rewrite Hidx.
  destruct otros as [|i2 otros]; cbn [length Nat.ltb Nat.leb].
  - rewrite decide_True by done.
    unfold mbind, io_bind, mret, io_ret, mostrar_mensaje, emitir. cbn [entrada salida].
    reflexivity.
  - rewrite decide_False by done.
    unfold mbind, io_bind, mret, io_ret, mostrar_mensaje, emitir. cbn [entrada salida].
    by rewrite <- app_assoc.
Qed.

Lemma opcion_actualizar_filas (g : GestorDocentes) (df : DataFrame) (w : Consola)
    (df' : DataFrame) (w' : Consola) :
  opcion_actualizar g df w = (Valor df', w') ->
  length (filas df') = length (filas df).
Proof.
  unfold opcion_actualizar.
  destruct (ligada (col_rut g)) as [c|]; [| by intros [= <- _]].
  unfold mbind at 1. unfold io_bind at 1. unfold input at 1.
  destruct (entrada w) as [|linea ent]; [discriminate |].
  destruct (idx_list df c (strip linea)) as [|i otros]; [by intros [= <- _] |].
  unfold mbind, io_bind, mostrar_mensaje, emitir. cbn [entrada salida].
  destruct (if (1 <? length (i :: otros))%nat then _ else _) as [[[]|e] w1] eqn:H1;
    [| discriminate].
  destruct (actualizar_columnas g i (columnas g) df _) as [[df1|e] w2] eqn:H2;
    [| discriminate].
  intros [= <- _].
  by destruct (actualizar_columnas_marco _ _ _ _ _ _ _ H2) as (_ & Hl & _).
Qed.

Lemma opcion_eliminar_confirmado (g : GestorDocentes) (df : DataFrame)
    (c linea conf : string) (ent : list string) (sal : list Evento) (i : nat)
    (otros : list nat) :
  ligada (col_rut g) = Some c ->
  idx_list df c (strip linea) = i :: otros ->
  lower (strip conf) = "s" ->
  fst (opcion_eliminar g df {| entrada := linea :: conf :: ent; salida := sal |}) =
  Valor {| columns := columns df; filas := delete i (filas df) |}.
Proof.
  intros Hlig Hidx Hconf. unfold opcion_eliminar. rewrite Hlig.
  unfold mbind, io_bind, input, mostrar_mensaje, emitir. cbn [entrada salida].
  rewrite Hidx. cbn [entrada salida]. rewrite Hconf. reflexivity.
Qed.

Lemma opcion_agregar_filas (g : GestorDocentes) (df : DataFrame) (w : Consola)
    (df' : DataFrame) (w' : Consola) :
  opcion_agregar g df w = (Valor df', w') ->
  exists nuevo : gmap string string,
    df' = {| columns := columns df; filas := filas df ++ [nuevo] |}.
Proof.
  unfold opcion_agregar, mbind, io_bind, mostrar_mensaje, emitir.
  cbn [entrada salida].
  destruct (pedir_valores g (columnas g) ∅ _) as [[nuevo|e] w1]; [| discriminate].
  case_bool_decide; [| discriminate].
  intros [= <- _]. by exists nuevo.
Qed.

End BusquedaTeoremas.

Section ClaveTeorema.

(** C3, as the code has it. With the ID role bound to column [c], the
    lookup of update and delete compares [clean_rut] of the key with
    [clean_rut] of every stored ID, so a key matches the same rows whatever
    its dots, hyphens, whitespace or case. When rows match, the row used is
    the first match in table order; the update shows a warning when there
    are several, and no option removes a duplicate: the update keeps the
    number of rows and a confirmed delete removes the first match only.
    After an insert, the lookup of the key of the new row finds the matches
    of the old table followed by the new row: it returns the index of the
    new row when no earlier row has the same normalized ID, and the index
    of the first such row otherwise. *)
Theorem busqueda_por_clave (g : GestorDocentes) (df : DataFrame) (c : string) :
  ligada (col_rut g) = Some c ->
  (forall (k : string) (i : nat),
     i ∈ idx_list df c k <->
     exists fila, filas df !! i = Some fila /\
                  clean_rut (celda fila c) = clean_rut k) /\
  (forall k1 k2 : string,
     clean_rut k1 = clean_rut k2 -> idx_list df c k1 = idx_list df c k2) /\
  (forall (a b : string) (x : ascii),
     es_separador x = true -> clean_rut (a +:+ String x b) = clean_rut (a +:+ b)) /\
  (forall s : string, clean_rut (lower s) = clean_rut s /\ clean_rut (upper s) = clean_rut s) /\
  (forall (k : string) (i : nat) (otros : list nat),
     idx_list df c k = i :: otros ->
     forall (j : nat) (fila : gmap string string),
       (j < i)%nat -> filas df !! j = Some fila ->
       clean_rut (celda fila c) <> clean_rut k) /\
  (forall (linea : string) (ent : list string) (sal : list Evento) (i : nat)
          (otros : list nat),
     idx_list df c (strip linea) = i :: otros ->
     opcion_actualizar g df {| entrada := linea :: ent; salida := sal |} =
     (df' ← actualizar_columnas g i (columnas g) df;
      mostrar_mensaje "Registro actualizado correctamente." exito;;
      emitir (Log INFO "Actualizado registro");;
      mret df')
       {| entrada := ent;
          salida := sal ++
            (if decide (otros = []) then []
             else [Mensaje advertencia
                     "Hay múltiples coincidencias. Se mostrará la primera."]) ++
            [Mensaje info "Registro actual:"] |}) /\
  (forall (w : Consola) (df' : DataFrame) (w' : Consola),
     opcion_actualizar g df w = (Valor df', w') ->
     length (filas df') = length (filas df)) /\
  (forall (linea conf : string) (ent : list string) (sal : list Evento) (i : nat)
          (otros : list nat),
     idx_list df c (strip linea) = i :: otros ->
     lower (strip conf) = "s" ->
     fst (opcion_eliminar g df {| entrada := linea :: conf :: ent; salida := sal |}) =
     Valor {| columns := columns df; filas := delete i (filas df) |}) /\
  (forall (w : Consola) (df' : DataFrame) (w' : Consola),
     opcion_agregar g df w = (Valor df', w') ->
     exists nuevo : gmap string string,
       filas df' = filas df ++ [nuevo] /\
       forall k : string,
         clean_rut k = clean_rut (celda nuevo c) ->
         idx_list df' c k = idx_list df c k ++ [length (filas df)] /\
         (idx_list df c k = [] -> head (idx_list df' c k) = Some (length (filas df)))).
Proof.
  intros Hlig. repeat apply conj.
  - apply idx_list_elem.
  - intros k1 k2 Hk. unfold idx_list. by rewrite Hk.
  - apply clean_rut_separador.
  - intros s. split; [apply clean_rut_lower | apply clean_rut_upper].
  - apply idx_list_primero.
  - intros. by apply (opcion_actualizar_encontrado g df c).
  - apply opcion_actualizar_filas.
  - intros. by eapply (opcion_eliminar_confirmado g df c).
  - intros w df' w' Hrun.
    destruct (opcion_agregar_filas g df w df' w' Hrun) as (nuevo & ->).
    exists nuevo. split; [done |]. intros k Hk.
    rewrite (idx_list_agregar df c k nuevo Hk). split; [done |].
    by intros ->.
Qed.

(** A first insert into an empty table, then the lookup of the new ID typed
    without separators. *)
Lemma busqueda_por_clave_testigo :
  let g := {| columnas := ["RUT"; "NOMBRE"]; col_rut := Some "RUT";
              col_email := None; col_tel := None; lock_timeout := 300 |} in
  let df := {| columns := ["RUT"; "NOMBRE"]; filas := [] |} in
  let w := {| entrada := ["12.345.678-5"; "Ana"]; salida := [] |} in
  exists nuevo : gmap string string,
    filas (match fst (opcion_agregar g df w) with Valor d => d | Lanza _ => df end) =
      filas df ++ [nuevo] /\
    celda nuevo "RUT" = "12345678-5" /\
    head (idx_list (match fst (opcion_agregar g df w) with Valor d => d | Lanza _ => df end)
            "RUT" "123456785") = Some 0%nat.
Proof.
  intros g df w.
  destruct (opcion_agregar g df w) as [r w'] eqn:Hrun.
  assert (Hr : r = Valor {| columns := ["RUT"; "NOMBRE"];
                            filas := [ {[ "RUT" := "12345678-5"; "NOMBRE" := "Ana" ]} ] |}).
  { apply (f_equal fst) in Hrun. cbn [fst] in Hrun. rewrite <- Hrun.
    vm_compute. reflexivity. }
  subst r. cbn [fst].
  destruct (busqueda_por_clave g df "RUT" eq_refl)
    as (_ & _ & _ & _ & _ & _ & _ & _ & Hagregar).
  destruct (Hagregar w _ w' Hrun) as (nuevo & Hfilas & Hk).
  exists nuevo. split; [exact Hfilas |].
  assert (nuevo = {[ "RUT" := "12345678-5"; "NOMBRE" := "Ana" ]}) as ->.
  { cbn [filas app] in Hfilas. by injection Hfilas as <-. }
  split; [vm_compute; reflexivity |].
  apply (Hk "123456785"); vm_compute; reflexivity.
Defined.

(** A second insert of an ID that the table already holds: the new row is
    at index 1 and the lookup of its key returns 0, the older row; and the
    delete option, given that key, shows no warning about the two
    matches. *)
Lemma clave_repetida_tras_agregar :
  let g := {| columnas := ["RUT"]; col_rut := Some "RUT";
              col_email := None; col_tel := None; lock_timeout := 300 |} in
  let df := {| columns := ["RUT"]; filas := [ {[ "RUT" := "12345678-5" ]} ] |} in
  let df' := {| columns := ["RUT"];
                filas := [ {[ "RUT" := "12345678-5" ]}; {[ "RUT" := "12345678-5" ]} ] |} in
  fst (opcion_agregar g df {| entrada := ["12.345.678-5"]; salida := [] |}) = Valor df' /\
  filas df' !! 1%nat = Some {[ "RUT" := "12345678-5" ]} /\
  idx_list df' "RUT" (clean_rut "12345678-5") = [0; 1]%nat /\
  head (idx_list df' "RUT" (clean_rut "12345678-5")) = Some 0%nat /\
  salida (snd (opcion_eliminar g df' {| entrada := ["123456785"; "n"]; salida := [] |})) =
    [Mensaje advertencia "Registro a eliminar:"; Mensaje info "Eliminación cancelada."].
Proof. vm_compute. auto 6. Qed.

End ClaveTeorema.

(** ** Lock, backup and save *)

Section Cerrojo.



Lemma esperar_termina (g : GestorDocentes) (e : Entorno) (s : Sistema) (m : nat) :
  vencido g e m = true ->
  forall fuel a : nat,
    (a <= m)%nat -> (m - a < fuel)%nat -> is_Some (esperar g e s fuel a).
Proof.
  intros Hm. induction fuel as [|fuel IH]; intros a Ha Hf; [lia |].
  cbn [esperar]. destruct (existe_cerrojo e s a); [| done].
  destruct (vencido g e a) eqn:Hv; [done |].
  assert (a <> m) by congruence. apply IH; lia.
Qed.

(** The reading of the [k]-th turn is at least the [k] seconds slept, and
    at least what the clock of the system shows. *)
Lemma lectura_dormido (e : Entorno) (k : nat) :
  (inject_Z (Z.of_nat k) <= lectura e k)%Q.
Proof.
  unfold lectura. cbv zeta.
  destruct (Qle_bool _ _) eqn:H; [by apply Qle_bool_iff | apply Qle_refl].
Qed.


(** The sleeps put the turn after [lock_timeout] past the time limit. *)
Lemma vencido_tras_timeout (g : GestorDocentes) (e : Entorno) :
  vencido g e (Z.to_nat (lock_timeout g) + 1) = true.
Proof.
  unfold vencido. apply negb_true_iff.
  destruct (Qle_bool _ _) eqn:Hle; [| done].
  apply Qle_bool_iff in Hle.
  pose proof (Qle_trans _ _ _ (lectura_dormido e (Z.to_nat (lock_timeout g) + 1)%nat) Hle)
    as H.
  rewrite <- Zle_Qle in H. lia.
Qed.

(** The loop gives up only in front of a sentinel. *)
Lemma esperar_vencido_cerrojo (g : GestorDocentes) (e : Entorno) (s : Sistema)
    (fuel a k : nat) :
  esperar g e s fuel a = Some (Vencido k) -> is_Some (cerrojo s).
Proof.
  revert a. induction fuel as [|fuel IH]; intros a; [discriminate |].
  cbn [esperar]. unfold existe_cerrojo at 1.
  destruct (cerrojo s) as [m|]; [eauto | discriminate].
Qed.


Lemma acquire_lock_vencido (g : GestorDocentes) (e : Entorno) (s : Sistema)
    (fuel k : nat) :
  esperar g e s fuel 0 = Some (Vencido k) ->
  acquire_lock g e fuel s =
  Some (false,
        anotar (Log WARNING "Timeout esperando lock")
          (anotar (Mensaje advertencia
             "El archivo está bloqueado por mucho tiempo. Verifique manualmente.") s)).
Proof. intros H. unfold acquire_lock. by rewrite H. Qed.

(** What [acquire_lock] hands to [guardar] with [True] is a state whose
    sentinel is the one just written. *)
Lemma acquire_lock_true (g : GestorDocentes) (e : Entorno) (s : Sistema)
    (fuel : nat) (s1 : Sistema) :
  acquire_lock g e fuel s = Some (true, s1) ->
  s1 = con_cerrojo (Some (marca e)) s /\ falla_crear e = false.
Proof.
  unfold acquire_lock. destruct (esperar g e s fuel 0) as [[k|k]|]; try discriminate.
  destruct (falla_crear e); [discriminate |]. by intros [= <-].
Qed.

(** The two ways in which [acquire_lock] returns [False]: the time limit,
    in front of a sentinel that stays, and a sentinel that could not be
    written, where the path holds what the failed write left. *)
Lemma acquire_lock_false (g : GestorDocentes) (e : Entorno) (s : Sistema)
    (fuel : nat) (s1 : Sistema) :
  acquire_lock g e fuel s = Some (false, s1) ->
  archivo s1 = archivo s /\ respaldos s1 = respaldos s /\
  ((is_Some (cerrojo s) /\ cerrojo s1 = cerrojo s /\
    last (eventos s1) = Some (Log WARNING "Timeout esperando lock")) \/
   (falla_crear e = true /\ cerrojo s1 = queda_cerrojo e /\
    last (eventos s1) = Some (Log ERROR "No se pudo crear archivo de lock"))).
Proof.
  unfold acquire_lock.
  destruct (esperar g e s fuel 0) as [[k|k]|] eqn:Hesp; try discriminate.
  - destruct (falla_crear e); [| discriminate]. intros [= <-].
    cbn [archivo respaldos cerrojo eventos anotar con_cerrojo].
    split; [done |]. split; [done |]. right. by rewrite last_snoc.
  - intros [= <-]. cbn [archivo respaldos cerrojo eventos anotar con_cerrojo].
    split; [done |]. split; [done |]. left.
    split; [by eapply esperar_vencido_cerrojo |]. by rewrite last_snoc.
Qed.

End Cerrojo.

Section CerrojoTeoremas.



(** A sentinel that its holder removes before the third test, and one that
    stays for a time limit of two seconds. *)
Example acquire_lock_tras_espera :
  let g := {| columnas := []; col_rut := None; col_email := None;
              col_tel := None; lock_timeout := 2 |} in
  let e k0 := {| liberado := fun k => (k0 <=? k)%nat;
                 transcurrido := fun k => inject_Z (Z.of_nat k);
                 marca := "1700000002.0";
                 falla_crear := false; queda_cerrojo := None;
                 sello := "20231114_221320"; falla_copia := false;
                 escritura := EscrituraOk; falla_borrar := false |} in
  let s := {| archivo := None; cerrojo := Some "1699999999.0"; respaldos := [];
              eventos := [] |} in
  fst <$> acquire_lock g (e 2%nat) 5 s = Some true /\
  (cerrojo ∘ snd) <$> acquire_lock g (e 2%nat) 5 s = Some (Some "1700000002.0") /\
  fst <$> acquire_lock g (e 9%nat) 5 s = Some false /\
  (cerrojo ∘ snd) <$> acquire_lock g (e 9%nat) 5 s = Some (Some "1699999999.0").
Proof. vm_compute. auto. Qed.

End CerrojoTeoremas.

Section Guardar.

Lemma guardar_con_cerrojo (g : GestorDocentes) (e : Entorno) (fuel : nat)
    (df : DataFrame) (s s1 : Sistema) :
  acquire_lock g e fuel s = Some (true, s1) ->
  guardar g e fuel df s = Some (release_lock e (tras_escribir e df s1)).
Proof. intros H. unfold guardar. by rewrite H. Qed.

Lemma cerrojo_backup (e : Entorno) (s : Sistema) : cerrojo (backup e s) = cerrojo s.
Proof. unfold backup. destruct (archivo s); [destruct (falla_copia e) |]; done. Qed.

Lemma cerrojo_tras_escribir (e : Entorno) (df : DataFrame) (s1 : Sistema) :
  cerrojo (tras_escribir e df s1) = cerrojo s1.
Proof.
  unfold tras_escribir.
  destruct (escritura e); cbn; (case_bool_decide; [apply cerrojo_backup | done]).
Qed.

End Guardar.

Section GuardarTeoremas.

(** C9, as the code has it. Every run of [guardar] that wrote the sentinel
    calls [release_lock] before it returns, whether the write of the table
    succeeded or raised: the sentinel is gone when its deletion succeeds,
    and when the deletion raises the error is logged and the sentinel
    stays. A run whose [acquire_lock] returned [False] deletes nothing and
    leaves the backing file as it was: after the time limit the sentinel
    of the other holder stays, and after a failed write of the sentinel
    the path holds what that write left, which can be a sentinel that this
    very run created. *)
Theorem guardar_libera_cerrojo (g : GestorDocentes) (e : Entorno) (fuel : nat)
    (df : DataFrame) (s s' : Sistema) :
  guardar g e fuel df s = Some s' ->
  (exists s1 : Sistema,
     acquire_lock g e fuel s = Some (true, s1) /\
     cerrojo s1 = Some (marca e) /\
     s' = release_lock e (tras_escribir e df s1) /\
     (falla_borrar e = false -> cerrojo s' = None) /\
     (falla_borrar e = true ->
      cerrojo s' = Some (marca e) /\
      last (eventos s') = Some (Log ERROR "No se pudo eliminar archivo de lock"))) \/
  (exists s1 : Sistema,
     acquire_lock g e fuel s = Some (false, s1) /\
     s' = anotar (Mensaje error "No se pudo obtener lock para guardar. Abortando.") s1 /\
     cerrojo s' = cerrojo s1 /\ archivo s' = archivo s /\
     ((is_Some (cerrojo s) /\ cerrojo s1 = cerrojo s /\
       last (eventos s1) = Some (Log WARNING "Timeout esperando lock")) \/
      (falla_crear e = true /\ cerrojo s1 = queda_cerrojo e /\
       last (eventos s1) = Some (Log ERROR "No se pudo crear archivo de lock")))).
Proof.
  intros Hrun.
  destruct (acquire_lock g e fuel s) as [[[] s1]|] eqn:Hacq.
  - left. exists s1. split; [done |].
    rewrite (guardar_con_cerrojo g e fuel df s s1 Hacq) in Hrun.
    injection Hrun as <-.
    destruct (acquire_lock_true g e s fuel s1 Hacq) as [-> _].
    split; [done |]. split; [done |].
    unfold release_lock. rewrite cerrojo_tras_escribir. cbn [cerrojo con_cerrojo].
    split; intros ->; cbn [cerrojo con_cerrojo anotar eventos].
    + done.
    + split; [apply cerrojo_tras_escribir | apply last_snoc].
  - right. exists s1. split; [done |].
    unfold guardar in Hrun. rewrite Hacq in Hrun. injection Hrun as <-.
    split; [done |]. split; [done |].
    destruct (acquire_lock_false g e s fuel s1 Hacq) as (Ha & _ & H).
    split; [exact Ha | exact H].
  - unfold guardar in Hrun. rewrite Hacq in Hrun. discriminate.
Qed.

(** A save over an existing file, everything succeeding. *)
Lemma guardar_libera_cerrojo_testigo :
  let g := {| columnas := ["N"]; col_rut := None; col_email := None;
              col_tel := None; lock_timeout := 300 |} in
  let e := {| liberado := fun _ => false;
              transcurrido := fun k => inject_Z (Z.of_nat k);
              marca := "1700000000.0";
              falla_crear := false; queda_cerrojo := None;
              sello := "20231114_221320"; falla_copia := false;
              escritura := EscrituraOk; falla_borrar := false |} in
  let s := {| archivo := Some (tabla_numerada 1); cerrojo := None;
              respaldos := []; eventos := [] |} in
  exists s' : Sistema,
    guardar g e 1 (tabla_numerada 2) s = Some s' /\
    cerrojo s' = None /\ archivo s' = Some (tabla_numerada 2) /\
    respaldos s' = [("20231114_221320", tabla_numerada 1)].
Proof.
  intros g e s.
  destruct (guardar g e 1 (tabla_numerada 2) s) as [s'|] eqn:Hrun;
    [| vm_compute in Hrun; discriminate].
  exists s'. split; [reflexivity |].
  destruct (guardar_libera_cerrojo g e 1 (tabla_numerada 2) s s' Hrun)
    as [(s1 & Hacq & _ & Hs' & Hok & _) | (s1 & Hacq & _)].
  - split; [by apply Hok |].
    assert (s1 = con_cerrojo (Some (marca e)) s) as ->
      by (vm_compute in Hacq; by injection Hacq as <-).
    rewrite Hs'. vm_compute. auto.
  - vm_compute in Hacq. discriminate.
Defined.

(** The sentinel was written and the table saved, and the deletion of the
    sentinel raises: [guardar] returns with the sentinel still there. *)
Lemma guardar_sin_poder_borrar_cerrojo :
  let g := {| columnas := ["N"]; col_rut := None; col_email := None;
              col_tel := None; lock_timeout := 300 |} in
  let e := {| liberado := fun _ => false;
              transcurrido := fun k => inject_Z (Z.of_nat k);
              marca := "1700000000.0";
              falla_crear := false; queda_cerrojo := None;
              sello := "20231114_221320"; falla_copia := false;
              escritura := EscrituraOk; falla_borrar := true |} in
  let s := {| archivo := None; cerrojo := None; respaldos := []; eventos := [] |} in
  acquire_lock g e 1 s =
    Some (true, {| archivo := None; cerrojo := Some "1700000000.0";
                   respaldos := []; eventos := [] |}) /\
  guardar g e 1 (tabla_numerada 1) s =
    Some {| archivo := Some (tabla_numerada 1);
            cerrojo := Some "1700000000.0";
            respaldos := [];
            eventos := [Log INFO "Archivo guardado correctamente.";
                        Mensaje exito "Archivo guardado exitosamente.";
                        Log ERROR "No se pudo eliminar archivo de lock"] |}.
Proof. vm_compute. auto. Qed.

(** The write of the sentinel raises after the file was created: the save
    gives up, and the empty sentinel that this run created stays, with
    nothing that removes it. *)
Example guardar_deja_cerrojo_sin_escribir :
  let g := {| columnas := ["N"]; col_rut := None; col_email := None;
              col_tel := None; lock_timeout := 300 |} in
  let e := {| liberado := fun _ => false;
              transcurrido := fun k => inject_Z (Z.of_nat k);
              marca := "1700000000.0";
              falla_crear := true; queda_cerrojo := Some "";
              sello := "20231114_221320"; falla_copia := false;
              escritura := EscrituraOk; falla_borrar := false |} in
  let s := {| archivo := None; cerrojo := None; respaldos := []; eventos := [] |} in
  guardar g e 1 (tabla_numerada 1) s =
    Some {| archivo := None;
            cerrojo := Some "";
            respaldos := [];
            eventos := [Log ERROR "No se pudo crear archivo de lock";
                        Mensaje error "No se pudo obtener lock para guardar. Abortando."] |}.
Proof. vm_compute. reflexivity. Qed.




End GuardarTeoremas.

(** ** Normalisation and format of an ID *)

Section Normalizacion.

Lemma quitar_sin (p : ascii -> bool) (s : string) :
  todos (fun c => negb (p c)) s = true -> quitar p s = s.
Proof.
  induction s as [|c s IH]; simpl; [done |].
  intros [Hc Hs]%andb_true_iff. apply negb_true_iff in Hc. by rewrite Hc, IH.
Qed.

Lemma upper_upper (s : string) : upper (upper s) = upper s.
Proof.
  unfold upper. induction s as [|c s IH]; simpl; [done |].
  destruct (upper_c_lower_c c) as (_ & _ & ->). by rewrite IH.
Qed.

Lemma upper_c_no_minuscula (c : ascii) : entre 97 122 (upper_c c) = false.
Proof. destruct c as [[] [] [] [] [] [] [] []]; reflexivity. Qed.

Lemma clean_rut_idem (x : string) : clean_rut (clean_rut x) = clean_rut x.
Proof.
  unfold clean_rut at 1. rewrite quitar_sin by apply clean_rut_sin_separador.
  unfold clean_rut. apply upper_upper.
Qed.

Lemma longitud_sin_ultimo (s : string) (c : ascii) :
  ultimo s = Some c -> String.length s = S (String.length (sin_ultimo s)).
Proof.
  intros H. rewrite (partir_ultimo s c H) at 1.
  rewrite longitud_append. simpl. lia.
Qed.

Lemma ultimo_no_vacia (s : string) : s <> "" -> exists c, ultimo s = Some c.
Proof.
  induction s as [|x s IH]; [done |]. intros _.
  destruct s as [|y s]; [by exists x |].
  destruct IH as [c Hc]; [done |]. by exists c.
Qed.

(** [format_rut] on a text whose cleaned form has at least two
    characters. *)
Lemma format_rut_largo (x : string) :
  (2 <= String.length (clean_rut x))%nat ->
  exists (cuerpo : string) (dv : ascii),
    clean_rut x = cuerpo +:+ caracter dv /\
    format_rut x = cuerpo +:+ "-" +:+ caracter dv.
Proof.
  intros Hl. unfold format_rut.
  destruct (Nat.ltb_spec (String.length (clean_rut x)) 2) as [? | _]; [lia |].
  destruct (ultimo_no_vacia (clean_rut x)) as [dv Hdv].
  { intros E. rewrite E in Hl. simpl in Hl. lia. }
  rewrite Hdv. exists (sin_ultimo (clean_rut x)), dv.
  split; [by apply partir_ultimo | done].
Qed.

Lemma clean_rut_format_rut (x : string) : clean_rut (format_rut x) = clean_rut x.
Proof.
  destruct (Nat.lt_ge_cases (String.length (clean_rut x)) 2) as [Hl | Hl].
  - unfold format_rut. apply Nat.ltb_lt in Hl. by rewrite Hl.
  - destruct (format_rut_largo x Hl) as (cuerpo & dv & Hc & ->).
    change ("-" +:+ caracter dv) with (String "-" (caracter dv)).
    rewrite clean_rut_separador by reflexivity.
    rewrite <- Hc. apply clean_rut_idem.
Qed.

Lemma validar_rut_por_limpio (x y : string) :
  clean_rut x = clean_rut y -> validar_rut x = validar_rut y.
Proof. intros H. unfold validar_rut. by rewrite H. Qed.

Lemma validar_rut_format_rut (x : string) : validar_rut (format_rut x) = validar_rut x.
Proof. apply validar_rut_por_limpio, clean_rut_format_rut. Qed.

Lemma format_rut_idem (x : string) : format_rut (format_rut x) = format_rut x.
Proof.
  destruct (Nat.lt_ge_cases (String.length (clean_rut x)) 2) as [Hl | Hl].
  - assert (format_rut x = x) as H; [| by rewrite !H].
    unfold format_rut. apply Nat.ltb_lt in Hl. by rewrite Hl.
  - unfold format_rut at 1. rewrite clean_rut_format_rut.
    unfold format_rut.
    destruct (Nat.ltb_spec (String.length (clean_rut x)) 2) as [? | _]; [lia | done].
Qed.

(** The validator in terms of the shape of the cleaned text. *)
Lemma validar_rut_forma (x : string) :
  validar_rut x = true <->
  exists (cuerpo : string) (dv : ascii),
    clean_rut x = cuerpo +:+ caracter dv /\
    (7 <= String.length cuerpo <= 8)%nat /\
    todos es_digito cuerpo = true /\ es_dv dv = true /\
    caracter_verificador cuerpo = dv.
Proof.
  unfold validar_rut.
  destruct (re_match patron_rut (clean_rut x)) eqn:Hm; simpl.
  - apply re_match_patron_rut in Hm as (cuerpo & dv & E & Hl & Ht & Hdv).
    rewrite E, sin_ultimo_append, ultimo_append, (reversed_digits_cuerpo _ Ht),
      bucle_rut_spec, dv_calculado_caracter, bool_decide_eq_true.
    split.
    + intros [= H]. exists cuerpo, dv. done.
    + intros (cuerpo' & dv' & E' & _ & _ & _ & H).
      assert (cuerpo' = cuerpo) as ->.
      { apply (f_equal sin_ultimo) in E'. by rewrite !sin_ultimo_append in E'. }
      assert (dv' = dv) as ->.
      { apply (f_equal ultimo) in E'. rewrite !ultimo_append in E'. congruence. }
      unfold caracter_verificador in H. cbv zeta in *. by rewrite H.
  - split; [discriminate |].
    intros (cuerpo & dv & E & Hl & Ht & Hdv & _).
    assert (re_match patron_rut (clean_rut x) = true) as Hm'; [| congruence].
    apply re_match_patron_rut. eauto 10.
Qed.

End Normalizacion.

Section NormalizacionTeoremas.

(** X1. [clean_rut] is idempotent, and what it returns holds no dot, no
    hyphen, no whitespace and no lowercase letter. *)
Theorem clean_rut_canonico (x : string) :
  clean_rut (clean_rut x) = clean_rut x /\
  todos (fun c => negb (es_separador c) && negb (entre 97 122 c)) (clean_rut x) = true.
Proof.
  split; [apply clean_rut_idem |].
  unfold clean_rut, upper. induction x as [|c x IH]; simpl; [done |].
  destruct (es_separador c) eqn:Hc; [done |]. simpl.
  by rewrite upper_c_separador, Hc, upper_c_no_minuscula, IH.
Qed.

(** X2. [format_rut] changes neither the cleaned form of a text nor the
    verdict of [validar_rut] on it, and formatting twice is formatting
    once: what the insert and the update store for an ID is a fixed point
    of [format_rut] that looks up like the text that was typed. *)
Theorem format_rut_conserva (x : string) :
  clean_rut (format_rut x) = clean_rut x /\
  validar_rut (format_rut x) = validar_rut x /\
  format_rut (format_rut x) = format_rut x.
Proof.
  split; [apply clean_rut_format_rut |].
  split; [apply validar_rut_format_rut | apply format_rut_idem].
Qed.

(** X3. For an ASCII text that [validar_rut] accepts, [format_rut] returns
    the 7 or 8 digits of the body, one hyphen and the check character,
    whatever separators and case the text was typed with. *)
Theorem format_rut_de_valido (x : string) :
  es_ascii x = true ->
  validar_rut x = true ->
  exists (cuerpo : string) (dv : ascii),
    format_rut x = cuerpo +:+ "-" +:+ caracter dv /\
    clean_rut x = cuerpo +:+ caracter dv /\
    (String.length cuerpo = 7%nat \/ String.length cuerpo = 8%nat) /\
    todos es_digito cuerpo = true /\
    (es_digito dv = true \/ dv = "K"%char).
Proof.
  intros _ H. apply validar_rut_forma in H as (cuerpo & dv & E & Hl & Ht & Hdv & _).
  destruct (format_rut_largo x) as (cuerpo' & dv' & E' & ->).
  { rewrite E, longitud_append. simpl. lia. }
  assert (cuerpo' = cuerpo) as ->.
  { rewrite E in E'. apply (f_equal sin_ultimo) in E'.
    by rewrite !sin_ultimo_append in E'. }
  assert (dv' = dv) as ->.
  { rewrite E in E'. apply (f_equal ultimo) in E'.
    rewrite !ultimo_append in E'. congruence. }
  exists cuerpo, dv. repeat split; auto; [lia | by apply es_dv_casos].
Qed.

(** An ID typed with dots and a lowercase check character. *)
Lemma format_rut_de_valido_testigo :
  exists (cuerpo : string) (dv : ascii),
    format_rut "11.111.112-k" = cuerpo +:+ "-" +:+ caracter dv /\
    clean_rut "11.111.112-k" = cuerpo +:+ caracter dv /\
    (String.length cuerpo = 7%nat \/ String.length cuerpo = 8%nat) /\
    todos es_digito cuerpo = true /\
    (es_digito dv = true \/ dv = "K"%char).
Proof. apply (format_rut_de_valido "11.111.112-k"); vm_compute; reflexivity. Defined.

Lemma es_dv_fijo (c : ascii) :
  es_dv c = true -> es_separador c = false /\ upper_c c = c.
Proof. destruct c as [[] [] [] [] [] [] [] []]; (discriminate || by split). Qed.

Lemma es_digito_es_dv (c : ascii) : es_digito c = true -> es_dv c = true.
Proof. unfold es_dv, es_digito. by intros ->. Qed.

Lemma clean_rut_fijo (s : string) : todos es_dv s = true -> clean_rut s = s.
Proof.
  unfold clean_rut, upper. induction s as [|c s IH]; simpl; [done |].
  intros [Hc Hs]%andb_true_iff. destruct (es_dv_fijo c Hc) as [-> Hu].
  simpl. by rewrite Hu, IH.
Qed.

Lemma es_dv_caracter_verificador (cuerpo : string) :
  es_dv (caracter_verificador cuerpo) = true.
Proof.
  unfold caracter_verificador.
  set (t := suma_ponderada (digitos_desde_unidades cuerpo)).
  assert (H : (0 <= t mod 11 < 11)%Z) by (apply Z.mod_pos_bound; lia).
  set (m := (t mod 11)%Z) in *. cbv zeta.
  assert (Hm : (m = 0 \/ m = 1 \/ m = 2 \/ m = 3 \/ m = 4 \/ m = 5 \/ m = 6 \/
               m = 7 \/ m = 8 \/ m = 9 \/ m = 10)%Z) by lia.
  destruct Hm as [-> | [-> | [-> | [-> | [-> | [-> | [-> | [-> | [-> | [-> | ->]]]]]]]]]];
    reflexivity.
Qed.

(** X4. Every body of 7 or 8 digits has exactly one check character that
    [validar_rut] accepts after it: among the digits and K, the character
    [dv] makes [cuerpo-dv] valid exactly when it is the check character of
    the body, which is itself a digit or K. *)
Theorem digito_verificador_unico (cuerpo : string) :
  (String.length cuerpo = 7%nat \/ String.length cuerpo = 8%nat) ->
  todos es_digito cuerpo = true ->
  es_dv (caracter_verificador cuerpo) = true /\
  validar_rut (cuerpo +:+ "-" +:+ caracter (caracter_verificador cuerpo)) = true /\
  forall dv : ascii,
    es_dv dv = true ->
    (validar_rut (cuerpo +:+ "-" +:+ caracter dv) = true <->
     dv = caracter_verificador cuerpo).
Proof.
  intros Hl Ht.
  assert (Hclean : forall dv, es_dv dv = true ->
            clean_rut (cuerpo +:+ "-" +:+ caracter dv) = cuerpo +:+ caracter dv).
  { intros dv Hdv. change ("-" +:+ caracter dv) with (String "-" (caracter dv)).
    rewrite clean_rut_separador by reflexivity. apply clean_rut_fijo.
    rewrite todos_append. simpl. rewrite Hdv, andb_true_r.
    apply todos_Forall. apply todos_Forall in Ht.
    eapply Forall_impl; [exact Ht |]. intros c. apply es_digito_es_dv. }
  assert (Hiff : forall dv, es_dv dv = true ->
            (validar_rut (cuerpo +:+ "-" +:+ caracter dv) = true <->
             dv = caracter_verificador cuerpo)).
  { intros dv Hdv. rewrite validar_rut_forma. split.
    - intros (cuerpo' & dv' & E & _ & _ & _ & H). rewrite (Hclean dv Hdv) in E.
      assert (cuerpo' = cuerpo) as ->.
      { apply (f_equal sin_ultimo) in E. by rewrite !sin_ultimo_append in E. }
      apply (f_equal ultimo) in E. rewrite !ultimo_append in E. congruence.
    - intros ->. exists cuerpo, (caracter_verificador cuerpo).
      split; [by apply Hclean |]. split; [lia |]. done. }
  split; [apply es_dv_caracter_verificador |]. split; [| exact Hiff].
  by apply Hiff; [apply es_dv_caracter_verificador |].
Qed.

(** The body of the sample ID. *)
Lemma digito_verificador_unico_testigo :
  es_dv (caracter_verificador "12345678") = true /\
  validar_rut ("12345678" +:+ "-" +:+ caracter (caracter_verificador "12345678")) = true /\
  forall dv : ascii,
    es_dv dv = true ->
    (validar_rut ("12345678" +:+ "-" +:+ caracter dv) = true <->
     dv = caracter_verificador "12345678").
Proof. apply (digito_verificador_unico "12345678"); [by right | reflexivity]. Defined.

End NormalizacionTeoremas.

(** ** The ID validator on arbitrary text *)

Section UnicodeRegex.

Lemma u_en_vacia_inv (s : Unicode.texto) : Unicode.en Unicode.Vacia s -> s = [].
Proof. by inversion 1. Qed.

Lemma u_en_clase_inv (p : N -> bool) (s : Unicode.texto) :
  Unicode.en (Unicode.Clase p) s <-> exists c, s = [c] /\ p c = true.
Proof.
  split.
  - inversion 1; subst. eauto.
  - intros (c & -> & Hc). by constructor.
Qed.

Lemma u_en_sec_inv (r1 r2 : Unicode.re) (s : Unicode.texto) :
  Unicode.en (Unicode.Sec r1 r2) s <->
  exists s1 s2, s = s1 ++ s2 /\ Unicode.en r1 s1 /\ Unicode.en r2 s2.
Proof.
  split.
  - inversion 1; subst. eauto.
  - intros (s1 & s2 & -> & H1 & H2). by constructor.
Qed.

Lemma u_anulable_en (r : Unicode.re) :
  Unicode.anulable r = true <-> Unicode.en r [].
Proof.
  split.
  - induction r; simpl; intros H; try discriminate.
    + constructor.
    + apply andb_true_iff in H as [H1 H2].
      change (@nil N) with (@nil N ++ []). constructor; auto.
    + apply orb_true_iff in H as [H|H];
        [apply Unicode.en_alt_i | apply Unicode.en_alt_d]; auto.
  - intros H. remember (@nil N) as s eqn:Hs.
    induction H as [| p c Hc | r1 r2 s1 s2 H1 IH1 H2 IH2 | r1 r2 s H1 IH1
                    | r1 r2 s H1 IH1]; simpl; try done.
    + apply app_eq_nil in Hs as [-> ->]. by rewrite IH1, IH2.
    + by rewrite IH1.
    + by rewrite IH1, orb_true_r.
Qed.

Lemma u_derivada_en (c : N) (r : Unicode.re) (s : Unicode.texto) :
  Unicode.en (Unicode.derivada c r) s <-> Unicode.en r (c :: s).
Proof.
  split.
  - revert s. induction r as [| | p | r1 IH1 r2 IH2 | r1 IH1 r2 IH2]; simpl; intros s H.
    + inversion H.
    + inversion H.
    + destruct (p c) eqn:Hp; inversion H; subst. by constructor.
    + destruct (Unicode.anulable r1) eqn:Hn.
      * inversion H as [| | | ? ? ? H1 | ? ? ? H1]; subst.
        -- inversion H1; subst.
           change (c :: s1 ++ s2) with ((c :: s1) ++ s2). constructor; auto.
        -- change (c :: s) with ([] ++ c :: s).
           constructor; [by apply u_anulable_en | auto].
      * inversion H; subst.
        change (c :: s1 ++ s2) with ((c :: s1) ++ s2). constructor; auto.
    + inversion H; subst; [apply Unicode.en_alt_i | apply Unicode.en_alt_d]; auto.
  - intros H. remember (c :: s) as t eqn:Ht. revert s Ht.
    induction H as [| p x Hx | r1 r2 s1 s2 H1 IH1 H2 IH2 | r1 r2 u H1 IH1
                    | r1 r2 u H1 IH1]; intros w Ht; simpl; try discriminate.
    + injection Ht as -> <-. rewrite Hx. constructor.
    + destruct s1 as [|x s1]; simpl in Ht.
      * subst s2. assert (Hn : Unicode.anulable r1 = true) by (by apply u_anulable_en).
        rewrite Hn. apply Unicode.en_alt_d. auto.
      * injection Ht as -> <-.
        destruct (Unicode.anulable r1); [apply Unicode.en_alt_i |]; constructor; auto.
    + apply Unicode.en_alt_i. auto.
    + apply Unicode.en_alt_d. auto.
Qed.

Lemma u_acepta_en (r : Unicode.re) (s : Unicode.texto) :
  Unicode.acepta r s = true <-> Unicode.en r s.
Proof.
  revert r. induction s as [|c s IH]; intros r; simpl.
  - apply u_anulable_en.
  - rewrite IH. apply u_derivada_en.
Qed.

Lemma u_en_veces_clase (p : N -> bool) (n : nat) (s : Unicode.texto) :
  Unicode.en (Unicode.Veces n (Unicode.Clase p)) s <->
  length s = n /\ Forall (fun c => p c = true) s.
Proof.
  revert s. induction n as [|n IH]; intros s; simpl.
  - split.
    + intros H. apply u_en_vacia_inv in H as ->. done.
    + intros [H _]. destruct s; [constructor | done].
  - split.
    + inversion 1 as [| | ? ? ? ? H1 H2 | |]; subst.
      apply u_en_clase_inv in H1 as (c & -> & Hc). apply IH in H2 as [<- Ht].
      simpl. split; [done | by constructor].
    + intros [Hl Ht]. destruct s as [|c s]; [done |]. simpl in Hl.
      apply Forall_cons in Ht as [Hc Ht].
      change (c :: s) with ([c] ++ s).
      constructor; [by constructor | apply IH; split; [lia | done]].
Qed.

Lemma u_en_veces_opc (p : N -> bool) (n : nat) (s : Unicode.texto) :
  Unicode.en (Unicode.Veces n (Unicode.Opc (Unicode.Clase p))) s <->
  (length s <= n)%nat /\ Forall (fun c => p c = true) s.
Proof.
  revert s. induction n as [|n IH]; intros s; simpl.
  - split.
    + intros H. apply u_en_vacia_inv in H as ->. done.
    + intros [H _]. destruct s; [constructor | simpl in H; lia].
  - split.
    + inversion 1 as [| | ? ? ? ? H1 H2 | |]; subst.
      apply IH in H2 as [Hl Ht].
      inversion H1 as [| | | ? ? ? H3 | ? ? ? H3]; subst.
      * apply u_en_vacia_inv in H3 as ->. simpl. split; [lia | done].
      * apply u_en_clase_inv in H3 as (c & -> & Hc). simpl.
        split; [lia | by constructor].
    + intros [Hl Ht]. destruct s as [|c s].
      * change (@nil N) with (@nil N ++ []). constructor.
        -- apply Unicode.en_alt_i. constructor.
        -- apply IH. simpl. split; [lia | done].
      * simpl in Hl. apply Forall_cons in Ht as [Hc Ht].
        change (c :: s) with ([c] ++ s). constructor.
        -- apply Unicode.en_alt_d. by constructor.
        -- apply IH. split; [lia | done].
Qed.

Lemma u_en_rango_clase (p : N -> bool) (n m : nat) (s : Unicode.texto) :
  (n <= m)%nat ->
  Unicode.en (Unicode.Rango n m (Unicode.Clase p)) s <->
  (n <= length s <= m)%nat /\ Forall (fun c => p c = true) s.
Proof.
  intros Hnm. unfold Unicode.Rango. split.
  - inversion 1 as [| | ? ? ? ? H1 H2 | |]; subst.
    apply u_en_veces_clase in H1 as [H1 T1]. apply u_en_veces_opc in H2 as [H2 T2].
    rewrite length_app, Forall_app. split; [lia | done].
  - intros [Hl Ht]. rewrite <- (take_drop n s) in Ht |- *.
    apply Forall_app in Ht as [Ta Tb].
    constructor; [apply u_en_veces_clase | apply u_en_veces_opc]; split; auto.
    + rewrite length_take. lia.
    + rewrite length_drop. lia.
Qed.

Lemma u_en_fin_de_texto (s : Unicode.texto) :
  Unicode.en Unicode.FinDeTexto s <-> s = [] \/ s = [10%N].
Proof.
  unfold Unicode.FinDeTexto, Unicode.Opc. split.
  - inversion 1 as [| | | ? ? ? H1 | ? ? ? H1]; subst.
    + apply u_en_vacia_inv in H1. auto.
    + apply u_en_clase_inv in H1 as (c & -> & Hc). right.
      apply N.eqb_eq in Hc. by subst.
  - intros [-> | ->].
    + apply Unicode.en_alt_i. constructor.
    + apply Unicode.en_alt_d. by constructor.
Qed.

End UnicodeRegex.
Section UnicodeValidador.

Variable U : Unicode.Caracteres.

(** The normalized form of the specification is what [clean_rut]
    computes. *)
Lemma normaliza_clean_rut (x n : Unicode.texto) :
  Unicode.normaliza U x n <-> n = Unicode.clean_rut U x.
Proof.
  split.
  - induction 1 as [| c x n Hc _ IH | c x n H1 H2 H3 _ IH];
      unfold Unicode.clean_rut, Unicode.upper in *; simpl.
    + done.
    + assert (Unicode.es_separador U c = true) as ->; [| exact IH].
      unfold Unicode.es_separador.
      destruct Hc as [-> | [-> | ->]]; [done | done | apply orb_true_r].
    + assert (Unicode.es_separador U c = false) as ->.
      { unfold Unicode.es_separador. rewrite H3.
        apply N.eqb_neq in H1, H2. by rewrite H1, H2. }
      simpl. by rewrite IH.
  - intros ->. induction x as [|c x IH]; [constructor |].
    unfold Unicode.clean_rut, Unicode.upper in *. simpl.
    destruct (Unicode.es_separador U c) eqn:Hc; simpl.
    + apply Unicode.normaliza_separador; [| exact IH].
      unfold Unicode.es_separador in Hc.
      apply orb_true_iff in Hc as [Hc | Hc]; [| auto].
      apply orb_true_iff in Hc as [Hc | Hc]; apply N.eqb_eq in Hc; auto.
    + unfold Unicode.es_separador in Hc.
      apply orb_false_iff in Hc as [Hc H3]. apply orb_false_iff in Hc as [H1 H2].
      apply N.eqb_neq in H1, H2. by apply Unicode.normaliza_caracter.
Qed.

Lemma u_clean_rut_sin_salto (x : Unicode.texto) :
  Unicode.sin_salto U -> ~ In 10%N (Unicode.clean_rut U x).
Proof.
  intros Hs. unfold Unicode.clean_rut, Unicode.upper.
  induction x as [|c x IH]; simpl; [tauto |].
  destruct (Unicode.es_separador U c) eqn:Hc; simpl; [exact IH |].
  rewrite in_app_iff. intros [H | H]; [| by apply IH].
  apply Hs in H. unfold Unicode.es_separador in Hc. rewrite H in Hc.
  by rewrite orb_true_r in Hc.
Qed.

Lemma es_decimal_is_Some (c : N) :
  Unicode.es_decimal U c = true <-> is_Some (Unicode.u_decimal U c).
Proof.
  unfold Unicode.es_decimal.
  destruct (Unicode.u_decimal U c); split; try done; by intros [? ?].
Qed.

(** What the pattern [^\d{7,8}[0-9K]$] accepts. *)
Lemma u_re_match_patron_rut (s : Unicode.texto) :
  Unicode.re_match (Unicode.patron_rut U) s = true <->
  exists (cuerpo : Unicode.texto) (dv : N) (fin : Unicode.texto),
    s = cuerpo ++ dv :: fin /\
    (7 <= length cuerpo <= 8)%nat /\
    Forall (fun c => is_Some (Unicode.u_decimal U c)) cuerpo /\
    Unicode.es_dv dv = true /\ (fin = [] \/ fin = [10%N]).
Proof.
  unfold Unicode.re_match. rewrite u_acepta_en. split.
  - intros H. apply u_en_sec_inv in H as (s1 & fin & -> & H1 & H2).
    apply u_en_sec_inv in H1 as (a & b & -> & Ha & Hb).
    apply u_en_rango_clase in Ha as [Hl Ht]; [| lia].
    apply u_en_clase_inv in Hb as (dv & -> & Hdv).
    apply u_en_fin_de_texto in H2.
    exists a, dv, fin. rewrite <- app_assoc. split; [done |]. split; [done |].
    split; [| done]. eapply Forall_impl; [exact Ht |].
    intros c. apply es_decimal_is_Some.
  - intros (cuerpo & dv & fin & -> & Hl & Ht & Hdv & Hfin).
    change (cuerpo ++ dv :: fin) with (cuerpo ++ [dv] ++ fin). rewrite app_assoc.
    constructor; [| by apply u_en_fin_de_texto].
    constructor; [| by constructor].
    apply u_en_rango_clase; [lia |]. split; [done |].
    eapply Forall_impl; [exact Ht |]. intros c. apply es_decimal_is_Some.
Qed.

Lemma u_reversed_digits_cuerpo (cuerpo : Unicode.texto) :
  Forall (fun c => is_Some (Unicode.u_decimal U c)) cuerpo ->
  Unicode.reversed_digits U cuerpo =
  Some (rev (map (Unicode.valor_decimal U) cuerpo)).
Proof.
  intros H. unfold Unicode.reversed_digits. rewrite <- map_rev.
  apply mapM_Some_2. apply Forall_rev in H.
  induction H as [|c l [d Hd] _ IH]; simpl; constructor; [| exact IH].
  unfold Unicode.valor_decimal. by rewrite Hd.
Qed.

(** [dv_calculado] is one ASCII character. *)
Lemma codigos_dv_calculado (total : Z) :
  Unicode.codigos (dv_calculado total) =
  [let r := (11 - total mod 11)%Z in
   if (r =? 10)%Z then 75%N else if (r =? 11)%Z then 48%N else Z.to_N (48 + r)].
Proof.
  unfold dv_calculado.
  assert (H : (0 <= total mod 11 < 11)%Z) by (apply Z.mod_pos_bound; lia).
  set (m := (total mod 11)%Z) in *. cbv zeta.
  assert (Hm : (m = 0 \/ m = 1 \/ m = 2 \/ m = 3 \/ m = 4 \/ m = 5 \/ m = 6 \/
               m = 7 \/ m = 8 \/ m = 9 \/ m = 10)%Z) by lia.
  destruct Hm as [-> | [-> | [-> | [-> | [-> | [-> | [-> | [-> | [-> | [-> | ->]]]]]]]]]];
    reflexivity.
Qed.

(** [validar_rut], on a text whose cleaned form holds no line feed. *)
Lemma u_validar_rut_forma (x : Unicode.texto) :
  ~ In 10%N (Unicode.clean_rut U x) ->
  Unicode.validar_rut U x = true <->
  exists (cuerpo : Unicode.texto) (dv : N),
    Unicode.clean_rut U x = cuerpo ++ [dv] /\
    (7 <= length cuerpo <= 8)%nat /\
    Forall (fun c => is_Some (Unicode.u_decimal U c)) cuerpo /\
    Unicode.es_dv dv = true /\
    Unicode.caracter_verificador U cuerpo = dv.
Proof.
  intros Hsalto. unfold Unicode.validar_rut. cbv zeta.
  destruct (Unicode.re_match (Unicode.patron_rut U) (Unicode.clean_rut U x)) eqn:Hm;
    simpl.
  - apply u_re_match_patron_rut in Hm as (cuerpo & dv & fin & E & Hl & Ht & Hdv & Hfin).
    destruct Hfin as [-> | ->].
    2:{ exfalso. apply Hsalto. rewrite E, in_app_iff. right. right. by left. }
    rewrite E, last_snoc, removelast_last, (u_reversed_digits_cuerpo _ Ht),
      bucle_rut_spec, codigos_dv_calculado.
    rewrite bool_decide_eq_true. split.
    + intros [= H]. exists cuerpo, dv. done.
    + intros (cuerpo' & dv' & E' & _ & _ & _ & H).
      apply app_inj_tail in E' as [<- <-].
      rewrite <- H. reflexivity.
  - split; [discriminate |].
    intros (cuerpo & dv & E & Hl & Ht & Hdv & _).
    assert (Unicode.re_match (Unicode.patron_rut U) (Unicode.clean_rut U x) = true)
      as Hm'; [| congruence].
    apply u_re_match_patron_rut. exists cuerpo, dv, []. rewrite E.
    split; [done |]. split; [done |]. split; [done |]. split; [done | by left].
Qed.

Lemma u_es_dv_casos (c : N) :
  Unicode.es_dv c = true <-> (48 <= c <= 57)%N \/ c = 75%N.
Proof.
  unfold Unicode.es_dv.
  rewrite orb_true_iff, andb_true_iff, !N.leb_le, N.eqb_eq. tauto.
Qed.

End UnicodeValidador.
(** On ASCII text the validator over code points is [validar_rut]. *)

Section UnicodeAscii.

Variable U : Unicode.Caracteres.
Hypothesis Husual : Unicode.ascii_usual U.

Lemma codigos_append (a b : string) :
  Unicode.codigos (a +:+ b) = Unicode.codigos a ++ Unicode.codigos b.
Proof. unfold Unicode.codigos. by rewrite lista_de_append, map_app. Qed.

Lemma longitud_codigos (s : string) : length (Unicode.codigos s) = String.length s.
Proof.
  unfold Unicode.codigos. rewrite length_map.
  induction s as [|c s IH]; simpl; [done | by rewrite IH].
Qed.

Lemma upper_c_ascii (a : ascii) :
  (ord a <? 128)%N = true ->
  (ord (upper_c a) <? 128)%N = true /\
  ord (upper_c a) = (if ((97 <=? ord a) && (ord a <=? 122))%N then ord a - 32 else ord a)%N.
Proof. destruct a as [[] [] [] [] [] [] [] []]; (discriminate || by split). Qed.

Lemma ascii_usual_caracter (a : ascii) :
  (ord a <? 128)%N = true ->
  Unicode.u_espacio U (ord a) = es_espacio a /\
  Unicode.u_decimal U (ord a) = int_de_caracter a /\
  Unicode.u_upper U (ord a) = [ord (upper_c a)] /\
  Unicode.es_separador U (ord a) = es_separador a.
Proof.
  intros Ha. destruct (Husual (ord a)) as (He & Hd & Hu); [by apply N.ltb_lt |].
  destruct (upper_c_ascii a Ha) as [_ Hup].
  split; [by rewrite He |]. split; [by rewrite Hd |].
  split; [by rewrite Hu, Hup |].
  unfold Unicode.es_separador. by rewrite He.
Qed.

Lemma u_clean_rut_cons (c : N) (x : Unicode.texto) :
  Unicode.clean_rut U (c :: x) =
  if Unicode.es_separador U c then Unicode.clean_rut U x
  else Unicode.u_upper U c ++ Unicode.clean_rut U x.
Proof.
  unfold Unicode.clean_rut, Unicode.upper. simpl.
  by destruct (Unicode.es_separador U c).
Qed.

Lemma clean_rut_cons (a : ascii) (x : string) :
  clean_rut (String a x) =
  if es_separador a then clean_rut x else String (upper_c a) (clean_rut x).
Proof. unfold clean_rut, upper. simpl. by destruct (es_separador a). Qed.

Lemma u_clean_rut_ascii (x : string) :
  es_ascii x = true ->
  Unicode.clean_rut U (Unicode.codigos x) = Unicode.codigos (clean_rut x) /\
  es_ascii (clean_rut x) = true.
Proof.
  induction x as [|a x IH]; [done |].
  change (es_ascii (String a x)) with ((ord a <? 128)%N && es_ascii x).
  intros [Ha Hx]%andb_true_iff. destruct (IH Hx) as [IH1 IH2].
  destruct (ascii_usual_caracter a Ha) as (_ & _ & Hu & Hs).
  change (Unicode.codigos (String a x)) with (ord a :: Unicode.codigos x).
  rewrite u_clean_rut_cons, clean_rut_cons, Hs.
  destruct (es_separador a); [done |].
  rewrite Hu, IH1. split; [done |].
  change (es_ascii (String (upper_c a) (clean_rut x)))
    with ((ord (upper_c a) <? 128)%N && es_ascii (clean_rut x)).
  rewrite IH2. by destruct (upper_c_ascii a Ha) as [-> _].
Qed.

Lemma todos_codigos (p : ascii -> bool) (s : string) (n : N) :
  todos p s = true -> In n (Unicode.codigos s) -> exists a, n = ord a /\ p a = true.
Proof.
  induction s as [|a s IH]; [by intros _ [] |].
  change (Unicode.codigos (String a s)) with (ord a :: Unicode.codigos s).
  change (todos p (String a s)) with (p a && todos p s).
  intros [Ha Hs]%andb_true_iff [<- | Hin]; [by exists a | by apply IH].
Qed.

Lemma codigos_clean_rut_sin_salto (x : string) :
  ~ In 10%N (Unicode.codigos (clean_rut x)).
Proof.
  intros H.
  destruct (todos_codigos _ _ _ (clean_rut_sin_separador x) H) as (a & Ha & Hp).
  assert (a = ascii_of_N 10) as -> by (by rewrite Ha, ascii_N_embedding).
  discriminate.
Qed.

Lemma decimales_ascii (s : string) :
  es_ascii s = true ->
  (Forall (fun c => is_Some (Unicode.u_decimal U c)) (Unicode.codigos s) <->
   todos es_digito s = true) /\
  (todos es_digito s = true ->
   map (Unicode.valor_decimal U) (Unicode.codigos s) =
   map valor_digito (list_ascii_of_string s)).
Proof.
  induction s as [|a s IH].
  - intros _. split; [split; [done | constructor] | done].
  - change (es_ascii (String a s)) with ((ord a <? 128)%N && es_ascii s).
    change (Unicode.codigos (String a s)) with (ord a :: Unicode.codigos s).
    change (todos es_digito (String a s)) with (es_digito a && todos es_digito s).
    change (list_ascii_of_string (String a s)) with (a :: list_ascii_of_string s).
    intros [Ha Hs]%andb_true_iff. destruct (IH Hs) as [IH1 IH2].
    destruct (ascii_usual_caracter a Ha) as (_ & Hd & _).
    split.
    + rewrite Forall_cons, IH1, Hd, andb_true_iff. unfold int_de_caracter.
      rewrite is_Some_alt. destruct (es_digito a); intuition discriminate.
    + intros [Hda Hds]%andb_true_iff. cbn [map]. rewrite (IH2 Hds). f_equal.
      unfold Unicode.valor_decimal. rewrite Hd. unfold int_de_caracter. by rewrite Hda.
Qed.

Lemma u_caracter_verificador_ascii (cuerpo : string) :
  es_ascii cuerpo = true -> todos es_digito cuerpo = true ->
  Unicode.caracter_verificador U (Unicode.codigos cuerpo) =
  ord (caracter_verificador cuerpo).
Proof.
  intros Ha Hd. unfold Unicode.caracter_verificador, caracter_verificador.
  destruct (decimales_ascii cuerpo Ha) as [_ ->]; [| done].
  fold (digitos_desde_unidades cuerpo).
  set (t := suma_ponderada (digitos_desde_unidades cuerpo)).
  assert (H : (0 <= t mod 11 < 11)%Z) by (apply Z.mod_pos_bound; lia).
  set (m := (t mod 11)%Z) in *. cbv zeta.
  assert (Hm : (m = 0 \/ m = 1 \/ m = 2 \/ m = 3 \/ m = 4 \/ m = 5 \/ m = 6 \/
               m = 7 \/ m = 8 \/ m = 9 \/ m = 10)%Z) by lia.
  destruct Hm as [-> | [-> | [-> | [-> | [-> | [-> | [-> | [-> | [-> | [-> | ->]]]]]]]]]];
    reflexivity.
Qed.

Lemma ord_inj (a b : ascii) : ord a = ord b -> a = b.
Proof.
  unfold ord. intros H.
  rewrite <- (ascii_N_embedding a), H. apply ascii_N_embedding.
Qed.

Lemma validar_rut_en_ascii (x : string) :
  es_ascii x = true -> Unicode.validar_rut U (Unicode.codigos x) = validar_rut x.
Proof.
  intros Hx. destruct (u_clean_rut_ascii x Hx) as [Hclean Hascii].
  apply eq_true_iff_eq. rewrite validar_rut_forma, u_validar_rut_forma.
  2:{ rewrite Hclean. apply codigos_clean_rut_sin_salto. }
  rewrite Hclean. split.
  - intros (cu & dvu & E & Hl & Ht & Hdv & Hcv).
    destruct (ultimo_no_vacia (clean_rut x)) as [dv Hult].
    { intros E0. rewrite E0 in E. by destruct cu. }
    pose proof (partir_ultimo _ _ Hult) as Hs.
    set (cuerpo := sin_ultimo (clean_rut x)) in *.
    rewrite Hs, codigos_append in E. apply app_inj_tail in E as [<- <-].
    assert (Hac : es_ascii cuerpo = true).
    { rewrite Hs in Hascii. unfold es_ascii in *. rewrite todos_append in Hascii.
      by apply andb_true_iff in Hascii as [? _]. }
    assert (Hdig : todos es_digito cuerpo = true) by (by apply decimales_ascii).
    exists cuerpo, dv. split; [done |].
    split; [by rewrite <- longitud_codigos |]. split; [done |]. split; [exact Hdv |].
    apply ord_inj. by rewrite <- u_caracter_verificador_ascii.
  - intros (cuerpo & dv & E & Hl & Ht & Hdv & Hcv).
    assert (Hac : es_ascii cuerpo = true).
    { rewrite E in Hascii. unfold es_ascii in *. rewrite todos_append in Hascii.
      by apply andb_true_iff in Hascii as [? _]. }
    exists (Unicode.codigos cuerpo), (ord dv).
    split; [by rewrite E, codigos_append |].
    split; [by rewrite longitud_codigos |].
    split; [by apply decimales_ascii |]. split; [exact Hdv |].
    by rewrite u_caracter_verificador_ascii, Hcv.
Qed.

End UnicodeAscii.

Section UnicodeTeoremas.

Lemma muestra_sin_salto : Unicode.sin_salto Unicode.muestra.
Proof.
  intros c. unfold Unicode.muestra. cbn [Unicode.u_upper Unicode.u_espacio].
  intros [H | []].
  destruct ((97 <=? c) && (c <=? 122))%N eqn:Hc.
  - apply andb_true_iff in Hc as [H1 H2]. apply N.leb_le in H1. lia.
  - by subst c.
Qed.

Lemma muestra_ascii_usual : Unicode.ascii_usual Unicode.muestra.
Proof.
  intros c Hc. unfold Unicode.muestra.
  cbn [Unicode.u_upper Unicode.u_espacio Unicode.u_decimal].
  split; [| split; [| done]].
  - rewrite (proj2 (N.eqb_neq c 133)), (proj2 (N.eqb_neq c 160)) by lia.
    by rewrite !orb_false_r.
  - destruct ((48 <=? c) && (c <=? 57))%N; [done |].
    by rewrite (proj2 (N.leb_gt 1632 c)) by lia.
Qed.

(** C1. Over every text, and with the character data that Python applies
    to it, [validar_rut] accepts a text exactly when its normalized form
    (the separators '.', '-' and whitespace removed, what is left
    uppercased) is a body of 7 or 8 digits, decimal digits of any script
    as the class [\d] has them, followed by one character among the ASCII
    digits and K, and that character is the check character of the body:
    digits from least to most significant, weights [[2,3,4,5,6,7]] taken
    cyclically, [11 - (sum mod 11)], 10 written K, 11 written 0, any other
    value written as its digit. The sample "12345678-5" is accepted. On
    ASCII text this validator is the one over strings of the other
    sections. *)
Theorem validar_rut_correcto (U : Unicode.Caracteres) :
  Unicode.sin_salto U -> Unicode.ascii_usual U ->
  (forall x : Unicode.texto,
     Unicode.validar_rut U x = true <->
     exists (n cuerpo : Unicode.texto) (dv : N),
       Unicode.normaliza U x n /\ n = cuerpo ++ [dv] /\
       (length cuerpo = 7%nat \/ length cuerpo = 8%nat) /\
       Forall (fun c => is_Some (Unicode.u_decimal U c)) cuerpo /\
       ((48 <= dv <= 57)%N \/ dv = 75%N) /\
       Unicode.caracter_verificador U cuerpo = dv) /\
  Unicode.validar_rut U (Unicode.codigos "12345678-5") = true /\
  (forall s : string,
     es_ascii s = true -> Unicode.validar_rut U (Unicode.codigos s) = validar_rut s).
Proof.
  intros Hs Hu. split; [| split; [| by apply validar_rut_en_ascii]].
  - intros x. rewrite (u_validar_rut_forma U x (u_clean_rut_sin_salto U x Hs)). split.
    + intros (cuerpo & dv & E & Hl & Ht & Hdv & Hcv).
      exists (Unicode.clean_rut U x), cuerpo, dv.
      split; [by apply normaliza_clean_rut |]. split; [done |].
      split; [lia |]. split; [done |]. split; [by apply u_es_dv_casos | done].
    + intros (n & cuerpo & dv & Hn & -> & Hl & Ht & Hdv & Hcv).
      apply normaliza_clean_rut in Hn. exists cuerpo, dv.
      split; [done |]. split; [lia |]. split; [done |].
      split; [by apply u_es_dv_casos | done].
  - rewrite (validar_rut_en_ascii U Hu "12345678-5" eq_refl). vm_compute. reflexivity.
Qed.

(** The sample ID with its body in Arabic-Indic digits, U+0661 to U+0668,
    a no-break space before the hyphen and the check character 5. *)
Lemma validar_rut_correcto_testigo :
  let x := [1633; 1634; 1635; 1636; 1637; 1638; 1639; 1640; 160; 45; 53]%N in
  Unicode.validar_rut Unicode.muestra x = true /\
  exists (n cuerpo : Unicode.texto) (dv : N),
    Unicode.normaliza Unicode.muestra x n /\ n = cuerpo ++ [dv] /\
    (length cuerpo = 7%nat \/ length cuerpo = 8%nat) /\
    Forall (fun c => is_Some (Unicode.u_decimal Unicode.muestra c)) cuerpo /\
    ((48 <= dv <= 57)%N \/ dv = 75%N) /\
    Unicode.caracter_verificador Unicode.muestra cuerpo = dv.
Proof.
  intros x. split; [vm_compute; reflexivity |].
  destruct (validar_rut_correcto Unicode.muestra muestra_sin_salto muestra_ascii_usual)
    as [H _].
  apply H. vm_compute. reflexivity.
Defined.

End UnicodeTeoremas.

(** ** The phone and email validators *)

Section TelefonoEmail.

Lemma digito_no_relleno (c : ascii) : es_digito c = true -> es_relleno_tel c = false.
Proof. destruct c as [[] [] [] [] [] [] [] []]; (discriminate || reflexivity). Qed.

Lemma todos_quitar_relleno (t : string) :
  todos es_digito (quitar es_relleno_tel t) =
  todos (fun c => es_digito c || es_relleno_tel c) t.
Proof.
  induction t as [|c t IH]; simpl; [done |].
  destruct (es_relleno_tel c) eqn:Hc.
  - by rewrite IH, orb_true_r.
  - simpl. by rewrite IH, orb_false_r.
Qed.

Lemma longitud_quitar_relleno (t : string) :
  todos (fun c => es_digito c || es_relleno_tel c) t = true ->
  String.length (quitar es_relleno_tel t) = contar es_digito t.
Proof.
  induction t as [|c t IH]; simpl; [done |].
  intros [Hc Ht]%andb_true_iff.
  destruct (es_digito c) eqn:Hd.
  - rewrite (digito_no_relleno c Hd). simpl. by rewrite IH.
  - simpl in Hc. rewrite Hc. by apply IH.
Qed.

Lemma isdigit_todos (s : string) :
  isdigit s = true <-> s <> "" /\ todos es_digito s = true.
Proof. destruct s; simpl; [split; [discriminate | by intros []] | split; [done | by intros []]]. Qed.

(** X5. [validar_telefono] accepts an ASCII text exactly when each of its
    characters is a digit, a space, a hyphen or a parenthesis and its
    digits number between 7 and 15. *)
Theorem validar_telefono_caracteres (t : string) :
  es_ascii t = true ->
  validar_telefono t = true <->
  todos (fun c => es_digito c || es_relleno_tel c) t = true /\
  (7 <= contar es_digito t <= 15)%nat.
Proof.
  intros _. unfold validar_telefono. cbv zeta.
  rewrite !andb_true_iff, isdigit_todos, todos_quitar_relleno,
    Nat.leb_le, Nat.leb_le.
  split.
  - intros [[[_ Ht] H7] H15]. rewrite longitud_quitar_relleno in H7, H15 by done.
    done.
  - intros [Ht [H7 H15]]. rewrite longitud_quitar_relleno by done.
    repeat split; try done.
    intros E. apply (f_equal String.length) in E.
    rewrite longitud_quitar_relleno in E by done. simpl in E. lia.
Qed.

(** A phone number written with parentheses, spaces and a hyphen. *)
Lemma validar_telefono_caracteres_testigo :
  es_ascii "(56) 9-1234 5678" = true /\
  todos (fun c => es_digito c || es_relleno_tel c) "(56) 9-1234 5678" = true /\
  (7 <= contar es_digito "(56) 9-1234 5678" <= 15)%nat.
Proof.
  split; [reflexivity |].
  apply (validar_telefono_caracteres "(56) 9-1234 5678"); reflexivity.
Defined.

Lemma en_estrella_clase (p : ascii -> bool) (s : string) :
  Regex.en (Estrella (Clase p)) s <-> todos p s = true.
Proof.
  split.
  - intros H. remember (Estrella (Clase p)) as r eqn:Hr.
    induction H as [| | | | | r0 | r0 s1 s2 H1 _ H2 IH2]; try discriminate; [done |].
    injection Hr as ->.
    apply RegexLemas.en_clase_inv in H1 as (c & -> & Hc).
    unfold caracter. rewrite append_cons, append_nil. simpl.
    by rewrite Hc, IH2.
  - induction s as [|c s IH]; simpl; [intros _; constructor |].
    intros [Hc Hs]%andb_true_iff.
    change (String c s) with (caracter c +:+ s).
    constructor; [by constructor | auto].
Qed.

Lemma en_mas_clase (p : ascii -> bool) (s : string) :
  Regex.en (Mas (Clase p)) s <-> s <> "" /\ todos p s = true.
Proof.
  unfold Mas. rewrite RegexLemas.en_sec_inv. split.
  - intros (s1 & s2 & -> & H1 & H2).
    apply RegexLemas.en_clase_inv in H1 as (c & -> & Hc).
    apply en_estrella_clase in H2.
    unfold caracter. rewrite append_cons, append_nil. simpl.
    by rewrite Hc, H2.
  - intros [Hne Ht]. destruct s as [|c s]; [done |]. simpl in Ht.
    apply andb_true_iff in Ht as [Hc Hs].
    exists (caracter c), s. split; [done |].
    split; [by constructor | by apply en_estrella_clase].
Qed.

Lemma en_literal (n : N) (s : string) :
  (n < 256)%N ->
  Regex.en (Clase (fun c => (ord c =? n)%N)) s <-> s = caracter (ascii_of_N n).
Proof.
  intros Hn. rewrite RegexLemas.en_clase_inv. split.
  - intros (c & -> & Hc). apply N.eqb_eq in Hc. unfold ord in Hc.
    by rewrite <- Hc, ascii_N_embedding.
  - intros ->. eexists. split; [done |]. apply N.eqb_eq. unfold ord.
    by apply N_ascii_embedding.
Qed.

(** X6. [validar_email] accepts an ASCII text exactly when it is a
    non-empty run of ASCII letters, digits, underscores, dots and hyphens,
    an at sign, another such run, a dot and a non-empty run of ASCII
    letters, digits and underscores, optionally followed by one line feed
    (the final [$] of the pattern lets it through). *)
Theorem validar_email_forma (s : string) :
  es_ascii s = true ->
  validar_email s = true <->
  exists l d t fin : string,
    s = l +:+ "@" +:+ d +:+ "." +:+ t +:+ fin /\
    l <> "" /\ d <> "" /\ t <> "" /\
    todos es_local l = true /\ todos es_local d = true /\
    todos es_palabra t = true /\
    (fin = "" \/ fin = caracter (ascii_of_N 10)).
Proof.
  intros _. unfold validar_email, re_match, patron_email.
  rewrite RegexLemas.acepta_en. split.
  - intros H.
    apply RegexLemas.en_sec_inv in H as (s1 & fin & -> & H & Hfin).
    apply RegexLemas.en_sec_inv in H as (l & s2 & -> & Hl & H).
    apply RegexLemas.en_sec_inv in H as (a & s3 & -> & Ha & H).
    apply RegexLemas.en_sec_inv in H as (d & s4 & -> & Hd & H).
    apply RegexLemas.en_sec_inv in H as (b & t & -> & Hb & Ht).
    apply en_mas_clase in Hl as [Hl1 Hl2]. apply en_mas_clase in Hd as [Hd1 Hd2].
    apply en_mas_clase in Ht as [Ht1 Ht2].
    apply en_literal in Ha as ->; [| done]. apply en_literal in Hb as ->; [| done].
    apply RegexLemas.en_fin_de_texto in Hfin.
    exists l, d, t, fin. repeat split; try done.
    by rewrite !append_asoc.
  - intros (l & d & t & fin & -> & Hl & Hd & Ht & Hl2 & Hd2 & Ht2 & Hfin).
    replace (l +:+ "@" +:+ d +:+ "." +:+ t +:+ fin)
      with ((l +:+ "@" +:+ d +:+ "." +:+ t) +:+ fin) by (by rewrite !append_asoc).
    constructor; [| by apply RegexLemas.en_fin_de_texto].
    constructor; [by apply en_mas_clase |].
    change ("@" +:+ d +:+ "." +:+ t) with (caracter (ascii_of_N 64) +:+ d +:+ "." +:+ t).
    constructor; [by apply en_literal |].
    constructor; [by apply en_mas_clase |].
    change ("." +:+ t) with (caracter (ascii_of_N 46) +:+ t).
    constructor; [by apply en_literal | by apply en_mas_clase].
Qed.

(** An address, and the parts that the pattern finds in it. *)
Lemma validar_email_forma_testigo :
  es_ascii "ana.perez@liceo.cl" = true /\
  exists l d t fin : string,
    "ana.perez@liceo.cl" = l +:+ "@" +:+ d +:+ "." +:+ t +:+ fin /\
    l <> "" /\ d <> "" /\ t <> "" /\
    todos es_local l = true /\ todos es_local d = true /\
    todos es_palabra t = true /\
    (fin = "" \/ fin = caracter (ascii_of_N 10)).
Proof.
  split; [reflexivity |].
  apply (validar_email_forma "ana.perez@liceo.cl"); reflexivity.
Defined.

End TelefonoEmail.

(** ** Validated input and the insert *)

Section Agregar.

(** What a call of [input_validado] does with the pending lines: it skips
    the rejected ones, one error message each, and stops at the first line
    that is accepted, or at the end of the input. *)
Lemma input_validado_desde_spec (validacion : string -> bool) (mensaje : string)
    (formato : option (string -> string)) (opcional : bool)
    (pend : list string) (sal : list Evento) :
  let r := input_validado_desde validacion mensaje formato opcional pend sal in
  exists n : nat,
    salida (snd r) = sal ++ replicate n (Mensaje error mensaje) /\
    (forall (j : nat) (linea : string),
       (j < n)%nat -> pend !! j = Some linea ->
       (opcional = false \/ strip linea <> "") /\
       validacion (formateado formato (strip linea)) = false) /\
    match fst r with
    | Valor v =>
        entrada (snd r) = drop (S n) pend /\
        exists linea : string,
          pend !! n = Some linea /\
          ((opcional = true /\ strip linea = "" /\ v = "") \/
           (v = formateado formato (strip linea) /\ validacion v = true))
    | Lanza e => e = EOFError /\ entrada (snd r) = [] /\ n = length pend
    end.
Proof.
  cbv zeta. revert sal. induction pend as [|linea resto IH]; intros sal.
  - exists 0%nat. cbn. rewrite app_nil_r. repeat split; try done; intros; lia.
  - cbn [input_validado_desde].
    destruct (opcional && bool_decide (strip linea = "")) eqn:Hop.
    { apply andb_true_iff in Hop as [-> He]. apply bool_decide_eq_true in He.
      exists 0%nat. cbn. rewrite app_nil_r.
      split; [done |]. split; [intros; lia |]. split; [done |].
      exists linea. split; [done |]. left. done. }
    fold (formateado formato (strip linea)).
    destruct (validacion (formateado formato (strip linea))) eqn:Hv.
    { exists 0%nat. cbn. rewrite app_nil_r.
      split; [done |]. split; [intros; lia |]. split; [done |].
      exists linea. split; [done |]. right. done. }
    destruct (IH (sal ++ [Mensaje error mensaje])) as (n & Hsal & Hrej & Hres).
    exists (S n). split; [| split].
    + rewrite Hsal, <- app_assoc. done.
    + intros j l Hj Hl. destruct j as [|j].
      * injection Hl as <-. split; [| done].
        apply andb_false_iff in Hop as [? | He]; [by left | right].
        by apply bool_decide_eq_false in He.
      * apply (Hrej j l); [lia | done].
    + destruct (fst (input_validado_desde _ _ _ _ resto _)) as [v|e].
      * destruct Hres as (Hent & l & Hl & Hcase). split; [done |]. by exists l.
      * destruct Hres as (-> & Hent & ->). done.
Qed.

(** X7. [input_validado] returns the first pending line that it accepts: an
    empty answer when the field is optional, else the formatted answer when
    the validator accepts it. Every line before it was rejected and got one
    error message, no other output is produced, and the accepted line is
    the last one consumed; when no pending line is accepted the call ends
    with the end-of-input error after consuming them all. *)
Theorem input_validado_primera_aceptada (validacion : string -> bool)
    (mensaje : string) (formato : option (string -> string)) (opcional : bool)
    (w : Consola) :
  let r := input_validado validacion mensaje formato opcional w in
  exists n : nat,
    salida (snd r) = salida w ++ replicate n (Mensaje error mensaje) /\
    (forall (j : nat) (linea : string),
       (j < n)%nat -> entrada w !! j = Some linea ->
       (opcional = false \/ strip linea <> "") /\
       validacion (formateado formato (strip linea)) = false) /\
    match fst r with
    | Valor v =>
        entrada (snd r) = drop (S n) (entrada w) /\
        exists linea : string,
          entrada w !! n = Some linea /\
          ((opcional = true /\ strip linea = "" /\ v = "") \/
           (v = formateado formato (strip linea) /\ validacion v = true))
    | Lanza e => e = EOFError /\ entrada (snd r) = [] /\ n = length (entrada w)
    end.
Proof.
  apply (input_validado_desde_spec validacion mensaje formato opcional
           (entrada w) (salida w)).
Qed.

Lemma input_validado_valor (validacion : string -> bool) (mensaje : string)
    (formato : option (string -> string)) (opcional : bool) (w : Consola)
    (v : string) (w' : Consola) :
  input_validado validacion mensaje formato opcional w = (Valor v, w') ->
  (opcional = true /\ v = "") \/
  (validacion v = true /\ exists x, v = formateado formato x).
Proof.
  intros Hrun.
  destruct (input_validado_desde_spec validacion mensaje formato opcional
              (entrada w) (salida w)) as (n & _ & _ & Hres).
  unfold input_validado in Hrun. rewrite Hrun in Hres. cbn in Hres.
  destruct Hres as (_ & l & _ & [(? & _ & ?) | (Hv & ?)]); [by left | right].
  split; [done |]. by exists (strip l).
Qed.

Lemma pedir_valor_admitida (g : GestorDocentes) (col : string) (w : Consola)
    (v : string) (w' : Consola) :
  pedir_valor g col w = (Valor v, w') -> celda_admitida g col v.
Proof.
  unfold pedir_valor, celda_admitida, rol_de, ligado.
  destruct (es_columna (col_rut g) col).
  { intros [[? ?] | (Hv & x & ->)]%input_validado_valor; [done |].
    split; [done |]. apply format_rut_idem. }
  destruct (es_columna (col_email g) col).
  { intros [[_ ->] | (Hv & _)]%input_validado_valor; [by left | by right]. }
  destruct (es_columna (col_tel g) col); [| done].
  intros [[_ ->] | (Hv & _)]%input_validado_valor; [by left | by right].
Qed.

Lemma pedir_valores_inv (g : GestorDocentes) (cols : list string) :
  forall (nuevo : gmap string string) (w : Consola)
         (nuevo' : gmap string string) (w' : Consola),
  pedir_valores g cols nuevo w = (Valor nuevo', w') ->
  (forall c : string, c ∈ cols ->
     exists v, nuevo' !! c = Some v /\ celda_admitida g c v) /\
  (forall c : string, c ∉ cols -> nuevo' !! c = nuevo !! c).
Proof.
  induction cols as [|col resto IH]; intros nuevo w nuevo' w' Hrun.
  - injection Hrun as <- _. split; [by intros c ?%elem_of_nil | done].
  - cbn [pedir_valores] in Hrun. unfold mbind, io_bind in Hrun.
    destruct (pedir_valor g col w) as [[v|e] w1] eqn:Hv; [| discriminate].
    destruct (IH _ _ _ _ Hrun) as [Hin Hout]. split.
    + intros c Hc. destruct (decide (c ∈ resto)) as [Hr | Hr]; [by apply Hin |].
      apply elem_of_cons in Hc as [-> | ?]; [| done].
      exists v. rewrite (Hout col Hr), lookup_insert_eq.
      split; [done | by eapply pedir_valor_admitida].
    + intros c Hc. apply not_elem_of_cons in Hc as [Hne Hr].
      by rewrite (Hout c Hr), lookup_insert_ne.
Qed.

(** X8. An insert that returns was made on a table whose column names are
    distinct, has appended exactly one row to the table and changed nothing
    else. The new row has a cell for every name of [columnas] and for no
    other name. Each cell is judged under one role, the first of ID, email,
    phone bound to its column ([rol_de], the branch that the [if] / [elif]
    chain of the insert takes): under the ID role it is a valid ID in the
    form [format_rut] gives it, under the email or the phone role it is
    empty or passes the validator of that role; the validators of further
    roles bound to the same column are not run. *)
Theorem opcion_agregar_fila_admitida (g : GestorDocentes) (df : DataFrame)
    (w : Consola) (df' : DataFrame) (w' : Consola) :
  opcion_agregar g df w = (Valor df', w') ->
  NoDup (columns df) /\
  exists nuevo : gmap string string,
    df' = {| columns := columns df; filas := filas df ++ [nuevo] |} /\
    (forall c : string, c ∈ columnas g ->
       exists v, nuevo !! c = Some v /\
         match rol_de g c with
         | Some ID => validar_rut v = true /\ format_rut v = v
         | Some EMAIL => v = "" \/ validar_email v = true
         | Some PHONE => v = "" \/ validar_telefono v = true
         | None => True
         end) /\
    (forall c : string, c ∉ columnas g -> nuevo !! c = None).
Proof.
  unfold opcion_agregar, mbind, io_bind, mostrar_mensaje, emitir.
  cbn [entrada salida].
  destruct (pedir_valores g (columnas g) ∅ _) as [[nuevo|e] w1] eqn:Hp;
    [| discriminate].
  case_bool_decide as Hnd; [| discriminate].
  intros [= <- _]. split; [exact Hnd |]. exists nuevo. split; [done |].
  destruct (pedir_valores_inv _ _ _ _ _ _ Hp) as [Hin Hout].
  split.
  - intros c Hc. destruct (Hin c Hc) as (v & Hv & Had). exists v. split; [done |].
    unfold celda_admitida in Had. by destruct (rol_de g c) as [[]|].
  - intros c Hc. by rewrite (Hout c Hc).
Qed.

(** An insert whose first answer for the ID is rejected. *)
Lemma opcion_agregar_fila_admitida_testigo :
  let g := {| columnas := ["RUT"; "EMAIL"]; col_rut := Some "RUT";
              col_email := Some "EMAIL"; col_tel := None; lock_timeout := 300 |} in
  let df := {| columns := ["RUT"; "EMAIL"]; filas := [] |} in
  let w := {| entrada := ["1-9"; "12.345.678-5"; ""]; salida := [] |} in
  exists nuevo : gmap string string,
    fst (opcion_agregar g df w) =
      Valor {| columns := columns df; filas := filas df ++ [nuevo] |} /\
    (exists v, nuevo !! "RUT" = Some v /\ validar_rut v = true /\ format_rut v = v) /\
    (exists v, nuevo !! "EMAIL" = Some v /\ (v = "" \/ validar_email v = true)) /\
    (forall c : string, c ∉ columnas g -> nuevo !! c = None).
Proof.
  intros g df w.
  destruct (opcion_agregar g df w) as [[df'|e] w'] eqn:Hrun;
    [| vm_compute in Hrun; discriminate].
  destruct (opcion_agregar_fila_admitida g df w df' w' Hrun)
    as (_ & nuevo & -> & Hin & Hout).
  exists nuevo. split; [done |].
  split; [apply (Hin "RUT"); apply list_elem_of_here |].
  split; [apply (Hin "EMAIL"); apply list_elem_of_further, list_elem_of_here | exact Hout].
Defined.

End Agregar.

(** ** What the options store and remove *)

Section Opciones.

(** One turn of the update loop stores nothing, or a value that the
    validator of the first role bound to the column accepted. *)
Lemma actualizar_columna_forma_rol (g : GestorDocentes) (idx : nat) (df : DataFrame)
    (col linea : string) (ent : list string) (sal : list Evento) :
  exists df1 sal1,
    actualizar_columna g idx df col {| entrada := linea :: ent; salida := sal |} =
      (Valor df1, {| entrada := ent; salida := sal1 |}) /\
    (df1 = df \/ exists v, celda_actualizada g col v /\ df1 = at_set df idx col v).
Proof.
  unfold actualizar_columna, mbind, io_bind, input. cbn [entrada salida].
  unfold celda_actualizada, rol_de, ligado.
  destruct (decide (strip linea = "")) as [He | Hne].
  - rewrite bool_decide_eq_true_2 by done. eexists _, _. split; [reflexivity | by left].
  - rewrite bool_decide_eq_false_2 by done.
    destruct (es_columna (col_rut g) col).
    { destruct (validar_rut (strip linea)) eqn:Hv; cbn.
      - eexists _, _. split; [reflexivity |]. right. eexists. split; [| reflexivity].
        split; [by apply format_rut_no_vacio |].
        split; [by rewrite validar_rut_format_rut | apply format_rut_idem].
      - eexists _, _. split; [reflexivity | by left]. }
    destruct (es_columna (col_email g) col).
    { destruct (validar_email (strip linea)) eqn:Hv; cbn.
      - eexists _, _. split; [reflexivity |]. right. eauto.
      - eexists _, _. split; [reflexivity | by left]. }
    destruct (es_columna (col_tel g) col).
    { destruct (validar_telefono (strip linea)) eqn:Hv; cbn.
      - eexists _, _. split; [reflexivity |]. right. eauto.
      - eexists _, _. split; [reflexivity | by left]. }
    eexists _, _. split; [reflexivity |]. right. eauto.
Qed.

Lemma actualizar_columnas_validez (g : GestorDocentes) (idx : nat) (cols : list string) :
  forall (df : DataFrame) (w : Consola) (df' : DataFrame) (w' : Consola),
  actualizar_columnas g idx cols df w = (Valor df', w') ->
  forall (i : nat) (fila' : gmap string string),
    filas df' !! i = Some fila' ->
    exists fila : gmap string string,
      filas df !! i = Some fila /\
      forall c : string,
        fila' !! c = fila !! c \/
        exists v, fila' !! c = Some v /\ celda_actualizada g c v.
Proof.
  induction cols as [|col resto IH]; intros df w df' w' Hrun i fila' Hf'.
  - injection Hrun as <- _. exists fila'. auto.
  - rewrite actualizar_columnas_cons in Hrun.
    destruct w as [[|linea ent] sal].
    { rewrite actualizar_columna_eof in Hrun. discriminate. }
    destruct (actualizar_columna_forma_rol g idx df col linea ent sal)
      as (df1 & sal1 & Hpaso & Hdf1).
    rewrite Hpaso in Hrun.
    destruct (IH _ _ _ _ Hrun i fila' Hf') as (fila1 & Hf1 & Hcel). clear IH.
    destruct Hdf1 as [-> | (v & Hv & ->)]; [by exists fila1 |].
    cbn [at_set filas] in Hf1. rewrite list_lookup_alter in Hf1.
    destruct (decide (idx = i)) as [-> | Hne]; [| by exists fila1].
    destruct (filas df !! i) as [fila|] eqn:Hf; [| discriminate].
    injection Hf1 as <-. exists fila. split; [done |].
    intros c. destruct (Hcel c) as [H | H]; [| by right].
    destruct (decide (c = col)) as [-> | Hcc].
    + right. exists v. by rewrite H, lookup_insert_eq.
    + left. by rewrite H, lookup_insert_ne.
Qed.

Lemma opcion_actualizar_forma (g : GestorDocentes) (df : DataFrame) (w : Consola)
    (df' : DataFrame) (w' : Consola) :
  opcion_actualizar g df w = (Valor df', w') ->
  df' = df \/
  exists (i : nat) (w1 w2 : Consola),
    actualizar_columnas g i (columnas g) df w1 = (Valor df', w2).
Proof.
  unfold opcion_actualizar.
  destruct (ligada (col_rut g)) as [c|]; [| intros [= <- _]; by left].
  unfold mbind at 1. unfold io_bind at 1. unfold input at 1.
  destruct (entrada w) as [|linea ent]; [discriminate |].
  destruct (idx_list df c (strip linea)) as [|i otros]; [intros [= <- _]; by left |].
  unfold mbind, io_bind, mostrar_mensaje, emitir. cbn [entrada salida].
  destruct (if (1 <? length (i :: otros))%nat then _ else _) as [[[]|e] w1] eqn:H1;
    [| discriminate].
  destruct (actualizar_columnas g i (columnas g) df _) as [[df1|e] w2] eqn:H2;
    [| discriminate].
  intros [= <- _]. right. eauto.
Qed.

(** X9. Whatever the answers, an update that returns has kept the columns
    and the number of rows, and every cell of the new table either is the
    cell of the old table or holds a non-empty text that one validator
    accepted: the validator of the first of ID, email, phone bound to the
    column of the cell ([rol_de], the branch that the [if] / [elif] chain
    of the update takes; an ID is stored in the form [format_rut] gives
    it). The update never stores a value that this validator rejects; the
    validators of further roles bound to the same column are not run. *)
Theorem opcion_actualizar_celdas (g : GestorDocentes) (df : DataFrame) (w : Consola)
    (df' : DataFrame) (w' : Consola) :
  opcion_actualizar g df w = (Valor df', w') ->
  columns df' = columns df /\
  length (filas df') = length (filas df) /\
  forall (i : nat) (fila' : gmap string string),
    filas df' !! i = Some fila' ->
    exists fila : gmap string string,
      filas df !! i = Some fila /\
      forall c : string,
        fila' !! c = fila !! c \/
        exists v, fila' !! c = Some v /\ celda_actualizada g c v.
Proof.
  intros Hrun.
  destruct (opcion_actualizar_forma g df w df' w' Hrun) as [-> | (i & w1 & w2 & H)].
  - repeat split; try done. intros i fila' Hf. exists fila'. auto.
  - destruct (actualizar_columnas_marco _ _ _ _ _ _ _ H) as (Hc & Hl & _).
    split; [done |]. split; [done |].
    by apply (actualizar_columnas_validez g i (columnas g) df w1 df' w2).
Qed.

(** An update that retypes the name and gives an invalid email. *)
Lemma opcion_actualizar_celdas_testigo :
  let g := {| columnas := ["RUT"; "NOMBRE"; "EMAIL"]; col_rut := Some "RUT";
              col_email := Some "EMAIL"; col_tel := None; lock_timeout := 300 |} in
  let df := {| columns := ["RUT"; "NOMBRE"; "EMAIL"];
               filas := [ {[ "RUT" := "12345678-5"; "NOMBRE" := "Ana"; "EMAIL" := "" ]} ] |} in
  let w := {| entrada := ["12.345.678-5"; ""; "Ana Rosa"; "ana"]; salida := [] |} in
  exists (df' : DataFrame) (w' : Consola),
    opcion_actualizar g df w = (Valor df', w') /\
    columns df' = columns df /\
    length (filas df') = length (filas df).
Proof.
  intros g df w.
  destruct (opcion_actualizar g df w) as [[df'|e] w'] eqn:Hrun;
    [| vm_compute in Hrun; discriminate].
  exists df', w'. split; [reflexivity |].
  destruct (opcion_actualizar_celdas g df w df' w' Hrun) as (Hc & Hl & _).
  by split.
Defined.

Lemma opcion_eliminar_forma (g : GestorDocentes) (df : DataFrame) (w : Consola)
    (df' : DataFrame) (w' : Consola) :
  opcion_eliminar g df w = (Valor df', w') ->
  df' = df \/
  exists i : nat, df' = {| columns := columns df; filas := delete i (filas df) |}.
Proof.
  unfold opcion_eliminar.
  destruct (ligada (col_rut g)) as [c|]; [| intros [= <- _]; by left].
  unfold mbind, io_bind, input, mostrar_mensaje, emitir. cbn [entrada salida].
  destruct (entrada w) as [|linea ent]; [discriminate |].
  destruct (idx_list df c (strip linea)) as [|i otros]; [intros [= <- _]; by left |].
  cbn [entrada salida]. destruct ent as [|conf ent]; [discriminate |].
  destruct (bool_decide (lower (strip conf) = "s")); intros [= <- _]; [right | left];
    eauto.
Qed.

Lemma celda_actualizada_valida (g : GestorDocentes) (c v : string) :
  celda_actualizada g c v -> celda_valida g c v.
Proof.
  unfold celda_actualizada, celda_valida. intros [_ H].
  destruct (rol_de g c) as [[]|]; [right; apply H | by right | by right | done].
Qed.

Lemma celda_admitida_valida (g : GestorDocentes) (c v : string) :
  celda_admitida g c v -> celda_valida g c v.
Proof.
  unfold celda_admitida, celda_valida.
  destruct (rol_de g c) as [[]|]; [intros [H _]; by right | done | done | done].
Qed.

(** X10. The three options that change the table keep it valid under the
    first bound role: when every cell of a column bound to a role is empty
    or passes the validator of the first of ID, email, phone bound to that
    column ([tabla_valida]), the same holds of the table that an insert, an
    update or a delete returns, whatever the answers. Nothing is said of
    the validators of further roles bound to the same column, which the
    options do not run. *)
Theorem opciones_conservan_validez (g : GestorDocentes) (df : DataFrame) :
  tabla_valida g df ->
  forall (w : Consola) (df' : DataFrame) (w' : Consola),
    opcion_agregar g df w = (Valor df', w') \/
    opcion_actualizar g df w = (Valor df', w') \/
    opcion_eliminar g df w = (Valor df', w') ->
    tabla_valida g df'.
Proof.
  intros Hdf w df' w' [Hrun | [Hrun | Hrun]].
  - unfold opcion_agregar, mbind, io_bind, mostrar_mensaje, emitir in Hrun.
    cbn [entrada salida] in Hrun.
    destruct (pedir_valores g (columnas g) ∅ _) as [[nuevo|e] w1] eqn:Hp;
      [| discriminate].
    case_bool_decide; [| discriminate].
    injection Hrun as <- _.
    destruct (pedir_valores_inv _ _ _ _ _ _ Hp) as [Hin Hout].
    intros fila col v Hf Hv. cbn [filas] in Hf.
    apply elem_of_app in Hf as [Hf | Hf]; [by apply (Hdf fila) |].
    apply list_elem_of_singleton in Hf as ->.
    destruct (decide (col ∈ columnas g)) as [Hc | Hc].
    + destruct (Hin col Hc) as (v' & Hv' & Ha).
      rewrite Hv in Hv'. injection Hv' as <-. by apply celda_admitida_valida.
    + rewrite (Hout col Hc), lookup_empty in Hv. discriminate.
  - destruct (opcion_actualizar_forma g df w df' w' Hrun) as [-> | (i & w1 & w2 & H)];
      [done |].
    intros fila' col v Hf' Hv.
    apply list_elem_of_lookup in Hf' as [j Hj].
    destruct (actualizar_columnas_validez _ _ _ _ _ _ _ H j fila' Hj)
      as (fila & Hfila & Hcel).
    destruct (Hcel col) as [Heq | (v' & Hv' & Ha)].
    + apply (Hdf fila col v); [by eapply list_elem_of_lookup_2 | congruence].
    + rewrite Hv in Hv'. injection Hv' as <-. by apply celda_actualizada_valida.
  - destruct (opcion_eliminar_forma g df w df' w' Hrun) as [-> | (i & ->)]; [done |].
    intros fila col v Hf Hv. cbn [filas] in Hf.
    apply (Hdf fila col v); [by eapply list_elem_of_delete_inv | done].
Qed.

(** A first insert into the empty table. *)
Lemma opciones_conservan_validez_testigo :
  let g := {| columnas := ["RUT"; "EMAIL"]; col_rut := Some "RUT";
              col_email := Some "EMAIL"; col_tel := None; lock_timeout := 300 |} in
  let df := {| columns := ["RUT"; "EMAIL"]; filas := [] |} in
  let w := {| entrada := ["12.345.678-5"; "ana@liceo.cl"]; salida := [] |} in
  exists (df' : DataFrame) (w' : Consola),
    opcion_agregar g df w = (Valor df', w') /\
    length (filas df') = 1%nat /\ tabla_valida g df'.
Proof.
  intros g df w.
  destruct (opcion_agregar g df w) as [[df'|e] w'] eqn:Hrun;
    [| vm_compute in Hrun; discriminate].
  exists df', w'. split; [reflexivity |]. split.
  - apply (f_equal fst) in Hrun. cbn [fst] in Hrun.
    assert (Hd : fst (opcion_agregar g df w) =
                 Valor {| columns := ["RUT"; "EMAIL"];
                          filas := [ {[ "RUT" := "12345678-5"; "EMAIL" := "ana@liceo.cl" ]} ] |})
      by (vm_compute; reflexivity).
    rewrite Hd in Hrun. by injection Hrun as <-.
  - apply (opciones_conservan_validez g df) with (w := w) (w' := w').
    + intros fila col v Hf. by apply elem_of_nil in Hf.
    + by left.
Defined.

End Opciones.

(** ** Delete, then look up; keys that match nothing *)

Section Eliminar.

Lemma indices_desde_S {A : Type} (p : A -> bool) (l : list A) (k : nat) :
  indices_desde p l (S k) = map S (indices_desde p l k).
Proof.
  revert k. induction l as [|x l IH]; intros k; simpl; [done |].
  rewrite (IH (S k)). by destruct (p x).
Qed.

Lemma indices_desde_delete {A : Type} (p : A -> bool) (l : list A) (k i : nat)
    (otros : list nat) :
  indices_desde p l k = i :: otros ->
  indices_desde p (delete (i - k)%nat l) k = map Nat.pred otros.
Proof.
  revert k. induction l as [|x l IH]; intros k H; simpl in H; [done |].
  destruct (p x) eqn:Hx.
  - injection H as <- <-. rewrite Nat.sub_diag. cbn [delete list_delete].
    rewrite indices_desde_S, map_map. simpl. by rewrite map_id.
  - assert (Hk : (S k <= i)%nat).
    { assert (Hi : i ∈ indices_desde p l (S k)) by (rewrite H; left).
      by apply indices_desde_elem in Hi as [Hi _]. }
    replace (i - k)%nat with (S (i - S k)) by lia.
    cbn [delete list_delete indices_desde]. rewrite Hx. by apply IH.
Qed.

Lemma idx_list_vacia (df : DataFrame) (c k : string) :
  idx_list df c k = [] <->
  forall fila : gmap string string,
    fila ∈ filas df -> clean_rut (celda fila c) <> clean_rut k.
Proof.
  split.
  - intros H fila Hf Hc. apply list_elem_of_lookup in Hf as [i Hi].
    assert (i ∈ idx_list df c k) as Hin by (apply idx_list_elem; eauto).
    rewrite H in Hin. by apply elem_of_nil in Hin.
  - intros H. destruct (idx_list df c k) as [|i otros] eqn:E; [done |].
    assert (i ∈ idx_list df c k) as Hin by (rewrite E; left).
    apply idx_list_elem in Hin as (fila & Hf & Hc).
    exfalso. apply (H fila); [by eapply list_elem_of_lookup_2 | done].
Qed.

(** X11. A confirmed delete removes the first row that matches the key and
    nothing else: the table has one row less, and the same key then finds
    the other matches, each one place earlier. When the key matched a
    single row, every text with the same cleaned form finds nothing after
    the delete. *)
Theorem eliminar_y_buscar (g : GestorDocentes) (df : DataFrame)
    (c linea conf : string) (ent : list string) (sal : list Evento) (i : nat)
    (otros : list nat) :
  ligada (col_rut g) = Some c ->
  idx_list df c (strip linea) = i :: otros ->
  lower (strip conf) = "s" ->
  exists df' : DataFrame,
    fst (opcion_eliminar g df {| entrada := linea :: conf :: ent; salida := sal |}) =
      Valor df' /\
    columns df' = columns df /\
    filas df' = delete i (filas df) /\
    S (length (filas df')) = length (filas df) /\
    idx_list df' c (strip linea) = map Nat.pred otros /\
    (otros = [] ->
     forall k : string,
       clean_rut k = clean_rut (strip linea) -> idx_list df' c k = []).
Proof.
  intros Hlig Hidx Hconf. eexists. split.
  { by apply (opcion_eliminar_confirmado g df c linea conf ent sal i otros). }
  assert (Hdel : idx_list {| columns := columns df; filas := delete i (filas df) |}
                   c (strip linea) = map Nat.pred otros).
  { unfold idx_list, ser_norm in *. cbn [filas].
    change (map ?f (delete i (filas df))) with (f <$> delete i (filas df)).
    rewrite list_fmap_delete. rewrite <- (Nat.sub_0_r i) at 1.
    by apply indices_desde_delete. }
  cbn [columns filas]. repeat split; try done.
  - assert (Hi : i ∈ idx_list df c (strip linea)) by (rewrite Hidx; left).
    apply idx_list_elem in Hi as (fila & Hf & _).
    apply lookup_lt_Some in Hf. rewrite length_delete by eauto using lookup_lt_is_Some_2.
    lia.
  - intros -> k Hk. unfold idx_list in *. rewrite Hk. exact Hdel.
Qed.

(** Two rows with the same ID, typed differently, and a third one. *)
Lemma eliminar_y_buscar_testigo :
  let g := {| columnas := ["RUT"]; col_rut := Some "RUT"; col_email := None;
              col_tel := None; lock_timeout := 300 |} in
  let df := {| columns := ["RUT"];
               filas := [ {[ "RUT" := "11111111-1" ]}; {[ "RUT" := "12345678-5" ]};
                          {[ "RUT" := "12.345.678-5" ]} ] |} in
  exists df' : DataFrame,
    fst (opcion_eliminar g df {| entrada := ["123456785"; "S"]; salida := [] |}) =
      Valor df' /\
    columns df' = columns df /\
    filas df' = delete 1%nat (filas df) /\
    S (length (filas df')) = length (filas df) /\
    idx_list df' "RUT" (strip "123456785") = map Nat.pred [2%nat] /\
    ([2%nat] = [] ->
     forall k : string,
       clean_rut k = clean_rut (strip "123456785") -> idx_list df' "RUT" k = []).
Proof.
  intros g df.
  apply (eliminar_y_buscar g df "RUT" "123456785" "S" [] [] 1%nat [2%nat]);
    vm_compute; reflexivity.
Defined.

(** X12. A key that matches no row changes nothing: when no stored ID has
    the cleaned form of the typed key, the update and the delete return the
    table as it was, having read the key only and shown one error message
    that quotes it; and when the ID role is not bound they return the table
    without reading anything. *)
Theorem clave_sin_coincidencias (g : GestorDocentes) (df : DataFrame) :
  (forall (c linea : string) (ent : list string) (sal : list Evento),
     ligada (col_rut g) = Some c ->
     (forall fila : gmap string string,
        fila ∈ filas df -> clean_rut (celda fila c) <> clean_rut (strip linea)) ->
     let w := {| entrada := linea :: ent; salida := sal |} in
     let w' := {| entrada := ent;
                  salida := sal ++ [Mensaje error
                    ("No se encontró un registro con " +:+ c +:+ " = " +:+
                     strip linea +:+ ".")] |} in
     opcion_actualizar g df w = (Valor df, w') /\
     opcion_eliminar g df w = (Valor df, w')) /\
  (ligada (col_rut g) = None ->
   forall w : Consola,
     fst (opcion_actualizar g df w) = Valor df /\
     fst (opcion_eliminar g df w) = Valor df /\
     entrada (snd (opcion_actualizar g df w)) = entrada w /\
     entrada (snd (opcion_eliminar g df w)) = entrada w).
Proof.
  split.
  - intros c linea ent sal Hlig Hno. cbv zeta.
    apply idx_list_vacia in Hno.
    unfold opcion_actualizar, opcion_eliminar. rewrite Hlig.
    unfold mbind, io_bind, input, mostrar_mensaje, emitir. cbn [entrada salida].
    by rewrite Hno.
  - intros Hlig w. unfold opcion_actualizar, opcion_eliminar. rewrite Hlig.
    done.
Qed.

End Eliminar.

(** ** A held lock, and the backups *)

Section GuardarExtras.

Lemma esperar_ocupado (g : GestorDocentes) (e : Entorno) (s : Sistema) :
  (forall k : nat, existe_cerrojo e s k = true) ->
  forall (fuel a : nat) (r : Espera),
    esperar g e s fuel a = Some r -> exists k, r = Vencido k.
Proof.
  intros Hocc. induction fuel as [|fuel IH]; intros a r H; [discriminate |].
  cbn [esperar] in H. rewrite Hocc in H.
  destruct (vencido g e a); [injection H as <-; eauto | eauto].
Qed.

(** X13. A sentinel that nobody removes blocks the save: with sleeps of at
    least one second, [guardar] returns after at most [lock_timeout + 2]
    tests, and the backing file, the backups and the sentinel are as they
    were. A sentinel left behind by a save whose deletion failed therefore
    makes the next save give up. *)
Theorem guardar_con_cerrojo_ajeno (g : GestorDocentes) (e : Entorno) (fuel : nat)
    (df : DataFrame) (s : Sistema) (marca_ajena : string) :
  cerrojo s = Some marca_ajena ->
  (forall k : nat, liberado e k = false) ->
  (forall k : nat, (inject_Z (Z.of_nat k) <= transcurrido e k)%Q) ->
  (Z.to_nat (lock_timeout g) + 1 < fuel)%nat ->
  exists s' : Sistema,
    guardar g e fuel df s = Some s' /\
    archivo s' = archivo s /\
    respaldos s' = respaldos s /\
    cerrojo s' = Some marca_ajena.
Proof.
  intros Hc Hlib Hreloj Hfuel.
  assert (Hocc : forall k, existe_cerrojo e s k = true).
  { intros k. unfold existe_cerrojo. by rewrite Hc, Hlib. }
  destruct (esperar_termina g e s _ (vencido_tras_timeout g e) fuel 0)
    as [r Hr]; [lia | lia |].
  destruct (esperar_ocupado g e s Hocc fuel 0 r Hr) as [k ->].
  unfold guardar. rewrite (acquire_lock_vencido g e s fuel k Hr).
  eexists. split; [reflexivity |]. done.
Qed.

(** A sentinel left by another run, and a time limit of two seconds. *)
Lemma guardar_con_cerrojo_ajeno_testigo :
  let g := {| columnas := ["N"]; col_rut := None; col_email := None;
              col_tel := None; lock_timeout := 2 |} in
  let e := {| liberado := fun _ => false;
              transcurrido := fun k => inject_Z (Z.of_nat k);
              marca := "1700000000.0";
              falla_crear := false; queda_cerrojo := None;
              sello := "20231114_221320"; falla_copia := false;
              escritura := EscrituraOk; falla_borrar := false |} in
  let s := {| archivo := Some (tabla_numerada 1); cerrojo := Some "1699999999.0";
              respaldos := []; eventos := [] |} in
  exists s' : Sistema,
    guardar g e 4 (tabla_numerada 2) s = Some s' /\
    archivo s' = archivo s /\
    respaldos s' = respaldos s /\
    cerrojo s' = Some "1699999999.0".
Proof.
  intros g e s.
  apply (guardar_con_cerrojo_ajeno g e 4 (tabla_numerada 2) s "1699999999.0").
  - reflexivity.
  - reflexivity.
  - intros k. apply Qle_refl.
  - vm_compute. lia.
Defined.

Lemma respaldos_release_lock (e : Entorno) (s : Sistema) :
  respaldos (release_lock e s) = respaldos s /\
  archivo (release_lock e s) = archivo s.
Proof. unfold release_lock. destruct (cerrojo s); [destruct (falla_borrar e) |]; done. Qed.

Lemma respaldo_de_copiar (destino nombre : string) (contenido : DataFrame)
    (rs : list (string * DataFrame)) :
  respaldo_de nombre (copiar destino contenido rs) =
  if bool_decide (nombre = destino) then Some contenido else respaldo_de nombre rs.
Proof.
  induction rs as [|[n c] r IH]; cbn [copiar respaldo_de].
  - repeat case_bool_decide; congruence.
  - destruct (decide (n = destino)) as [-> | Hn].
    + rewrite (bool_decide_eq_true_2 (destino = destino)) by done.
      cbn [respaldo_de]. repeat case_bool_decide; congruence.
    + rewrite (bool_decide_eq_false_2 (n = destino)) by done.
      cbn [respaldo_de]. rewrite IH. repeat case_bool_decide; congruence.
Qed.

(** X14. What a run of [guardar] does to the backups and to the backing
    file. Without the lock it touches neither. With the lock, over an
    existing file whose copy succeeds, the directory of backups then holds
    the previous contents of the backing file under the name of the current
    second, in the place of a backup made earlier in the same second if
    there is one, and the backups of every other name are as they were; the
    backup is there whether the write that follows succeeds or raises.
    With the lock and no backing file, the backups are as they were. With
    the lock, the backing file ends as the write left it. *)
Theorem guardar_respaldos (g : GestorDocentes) (e : Entorno) (fuel : nat)
    (df : DataFrame) (s s' : Sistema) :
  guardar g e fuel df s = Some s' ->
  (exists s1 : Sistema,
     acquire_lock g e fuel s = Some (true, s1) /\
     (forall contenido : DataFrame,
        archivo s = Some contenido -> falla_copia e = false ->
        forall nombre : string,
          respaldo_de nombre (respaldos s') =
          if bool_decide (nombre = sello e) then Some contenido
          else respaldo_de nombre (respaldos s)) /\
     (archivo s = None -> respaldos s' = respaldos s) /\
     archivo s' =
       match escritura e with
       | EscrituraOk => Some df
       | EscrituraFalla queda => queda
       end) \/
  (exists s1 : Sistema,
     acquire_lock g e fuel s = Some (false, s1) /\
     respaldos s' = respaldos s /\ archivo s' = archivo s).
Proof.
  intros Hrun.
  destruct (acquire_lock g e fuel s) as [[[] s1]|] eqn:Hacq.
  - left. exists s1. split; [done |].
    rewrite (guardar_con_cerrojo g e fuel df s s1 Hacq) in Hrun.
    injection Hrun as <-.
    destruct (acquire_lock_true g e s fuel s1 Hacq) as [-> _].
    destruct (respaldos_release_lock e
                (tras_escribir e df (con_cerrojo (Some (marca e)) s))) as [-> ->].
    unfold tras_escribir, backup. cbn [archivo con_cerrojo].
    split; [| split].
    + intros contenido Ha Hcopia nombre. rewrite Ha, Hcopia.
      rewrite bool_decide_eq_true_2 by eauto.
      destruct (escritura e); cbn; apply respaldo_de_copiar.
    + intros Ha. rewrite Ha.
      rewrite bool_decide_eq_false_2 by (intros [? ?]; done).
      by destruct (escritura e).
    + destruct (archivo s) as [contenido|] eqn:Ha.
      * rewrite bool_decide_eq_true_2 by eauto.
        by destruct (falla_copia e), (escritura e).
      * rewrite bool_decide_eq_false_2 by (intros [? ?]; done).
        by destruct (escritura e).
  - right. exists s1. split; [done |].
    unfold guardar in Hrun. rewrite Hacq in Hrun. injection Hrun as <-.
    destruct (acquire_lock_false g e s fuel s1 Hacq) as (Ha & Hr & _).
    done.
  - unfold guardar in Hrun. rewrite Hacq in Hrun. discriminate.
Qed.

(** Two saves in the same second: the backup of the first, one row, is
    replaced by the backup of the second, two rows; the older backup stays;
    the write raises and leaves the file empty. *)
Lemma guardar_respaldos_testigo :
  let g := {| columnas := ["N"]; col_rut := None; col_email := None;
              col_tel := None; lock_timeout := 300 |} in
  let e := {| liberado := fun _ => false;
              transcurrido := fun k => inject_Z (Z.of_nat k);
              marca := "1700000000.0";
              falla_crear := false; queda_cerrojo := None;
              sello := "20231114_221320"; falla_copia := false;
              escritura := EscrituraFalla (Some (tabla_numerada 0));
              falla_borrar := false |} in
  let s := {| archivo := Some (tabla_numerada 2); cerrojo := None;
              respaldos := [("20231114_221319", tabla_numerada 0);
                            ("20231114_221320", tabla_numerada 1)];
              eventos := [] |} in
  exists s' : Sistema,
    guardar g e 1 (tabla_numerada 3) s = Some s' /\
    respaldo_de "20231114_221320" (respaldos s') = Some (tabla_numerada 2) /\
    respaldo_de "20231114_221319" (respaldos s') = Some (tabla_numerada 0) /\
    archivo s' = Some (tabla_numerada 0).
Proof.
  intros g e s.
  destruct (guardar g e 1 (tabla_numerada 3) s) as [s'|] eqn:Hrun;
    [| vm_compute in Hrun; discriminate].
  exists s'. split; [reflexivity |].
  destruct (guardar_respaldos g e 1 (tabla_numerada 3) s s' Hrun)
    as [(s1 & _ & Hr & _ & Ha) | (s1 & Hacq & _)].
  - split; [exact (Hr (tabla_numerada 2) eq_refl eq_refl "20231114_221320") |].
    split; [exact (Hr (tabla_numerada 2) eq_refl eq_refl "20231114_221319") |].
    exact Ha.
  - vm_compute in Hacq. discriminate.
Defined.

End GuardarExtras.

(** ** Pagination, whatever the answers *)

Section PaginarCota.

Lemma iloc_sublist {A : Type} (l : list A) (a b : Z) : iloc l a b `sublist_of` l.
Proof.
  unfold iloc. etrans; [apply sublist_take | apply sublist_drop].
Qed.

Lemma paginar_desde_cota (df : DataFrame) (total : Z) (pendientes : list Z) :
  forall (page_size pages : Z) (w : Consola),
  exists P : list (list (gmap string string)),
    paginas_impresas
      (salida (snd (paginar_desde df total pendientes page_size pages w))) =
      paginas_impresas (salida w) ++ P /\
    (length P <= length pendientes)%nat /\
    Forall (fun t => t `sublist_of` filas df) P /\
    match pendientes with
    | i :: _ =>
        head P = Some (iloc (filas df) (i * page_size) (i * page_size + page_size))
    | [] => P = []
    end.
Proof.
  induction pendientes as [|i resto IH]; intros page_size pages w.
  - exists []. cbn. by rewrite app_nil_r.
  - cbn [paginar_desde].
    unfold mbind, io_bind, emitir, mostrar_mensaje, emitir. cbn [entrada salida].
    set (t := iloc (filas df) (i * page_size) (i * page_size + page_size)).
    set (sal2 := (salida w ++ [Impreso t]) ++
                 [Mensaje info (pie_de_pagina i pages (i * page_size)
                                  (i * page_size + page_size) total)]).
    assert (Hsal2 : paginas_impresas sal2 = paginas_impresas (salida w) ++ [t]).
    { unfold sal2. rewrite !paginas_impresas_app. simpl. by rewrite app_nil_r. }
    assert (Hrec : forall ps' pages' ent',
      exists P', paginas_impresas
        (salida (snd (paginar_desde df total resto ps' pages'
                        {| entrada := ent'; salida := sal2 |}))) =
        (paginas_impresas (salida w) ++ [t]) ++ P' /\
        (length P' <= length resto)%nat /\
        Forall (fun t => t `sublist_of` filas df) P').
    { intros ps' pages' ent'.
      destruct (IH ps' pages' {| entrada := ent'; salida := sal2 |})
        as (P' & H1 & H2 & H3 & _).
      exists P'. cbn [salida] in H1. by rewrite H1, Hsal2. }
    assert (Hfin : exists P',
      paginas_impresas sal2 = (paginas_impresas (salida w) ++ [t]) ++ P' /\
      (length P' <= length resto)%nat /\
      Forall (fun t => t `sublist_of` filas df) P').
    { exists []. rewrite app_nil_r. repeat split; [done | simpl; lia | done]. }
    match goal with
    | |- exists P, paginas_impresas (salida (snd ?R)) = _ /\ _ =>
        enough (Hgoal : exists P',
          paginas_impresas (salida (snd R)) =
            (paginas_impresas (salida w) ++ [t]) ++ P' /\
          (length P' <= length resto)%nat /\
          Forall (fun t => t `sublist_of` filas df) P')
    end.
    { destruct Hgoal as (P' & H1 & H2 & H3). exists (t :: P').
      split; [by rewrite H1, <- app_assoc |].
      split; [simpl; lia |].
      split; [constructor; [apply iloc_sublist | done] | done]. }
    destruct (i <? pages - 1)%Z; [| apply Hrec].
    unfold input. cbn [entrada salida].
    destruct (entrada w) as [|linea ent]; [exact Hfin |].
    cbv zeta. destruct (bool_decide (lower (strip linea) = "q")); [exact Hfin |].
    destruct (bool_decide (lower (strip linea) = "s")); [| apply Hrec].
    cbn [entrada salida]. destruct ent as [|linea2 ent]; [exact Hfin |].
    destruct (isdigit (strip linea2) && (0 <? int_de_digitos (strip linea2))%Z);
      apply Hrec.
Qed.

(** X15. Whatever is answered at its prompts, also when the page size is
    changed or the input ends, a call of [paginar] with a page size of at
    least 1 prints at most [ceil(n / page_size)] tables, the number fixed
    before the loop; each of them is made of rows of the table in table
    order, and the first one, when the table has rows, is its first
    [page_size] rows. *)
Theorem paginar_cota (df : DataFrame) (page_size : Z) (w : Consola) :
  (1 <= page_size)%Z ->
  exists P : list (list (gmap string string)),
    paginas_impresas (salida (snd (paginar df page_size w))) =
      paginas_impresas (salida w) ++ P /\
    (length P * Z.to_nat page_size < length (filas df) + Z.to_nat page_size)%nat /\
    Forall (fun t => t `sublist_of` filas df) P /\
    (filas df <> [] -> head P = Some (take (Z.to_nat page_size) (filas df))).
Proof.
  intros Hps. unfold paginar.
  set (n := Z.of_nat (length (filas df))).
  destruct (Z.eqb_spec n 0) as [Hn0 | Hn0].
  - exists []. unfold mostrar_mensaje, emitir. cbn [snd salida].
    rewrite paginas_impresas_app. simpl.
    split; [done |]. split; [lia |]. split; [done |].
    intros Hne. destruct (filas df); [done | simpl in *; lia].
  - destruct (Z.eqb_spec page_size 0) as [? | _]; [lia |].
    destruct (techo_paginas n page_size ltac:(lia) Hps) as (Hp0 & Hp1 & Hp2).
    set (pages := ((n + page_size - 1) / page_size)%Z) in *.
    destruct (paginar_desde_cota df n (range pages) page_size pages w)
      as (P & H1 & H2 & H3 & H4).
    exists P. split; [exact H1 |].
    unfold range in H2. rewrite length_map, length_seq in H2.
    split; [| split; [exact H3 |]].
    + assert (Z.of_nat (length P) * page_size < n + page_size)%Z by nia.
      unfold n in *. nia.
    + intros _. unfold range in H4.
      destruct (Z.to_nat pages) as [|k] eqn:Hk; [lia |].
      cbn [seq map] in H4. rewrite H4. f_equal.
      rewrite iloc_no_negativo by lia. cbn [Z.of_nat Z.mul].
      rewrite Z.add_0_l, Z.sub_0_r. by rewrite drop_0.
Qed.

(** Seven rows in pages of three, a change to pages of two after the first
    page, and the end of the input. *)
Lemma paginar_cota_testigo :
  exists P : list (list (gmap string string)),
    paginas_impresas
      (salida (snd (paginar (tabla_numerada 7) 3
                      {| entrada := ["s"; "2"]; salida := [] |}))) = [] ++ P /\
    (length P * 3 < 7 + 3)%nat /\
    Forall (fun t => t `sublist_of` filas (tabla_numerada 7)) P /\
    (filas (tabla_numerada 7) <> [] ->
     head P = Some (take 3 (filas (tabla_numerada 7)))).
Proof.
  apply (paginar_cota (tabla_numerada 7) 3 {| entrada := ["s"; "2"]; salida := [] |}).
  lia.
Defined.

End PaginarCota.

(** ** Searches compose; case and outer whitespace of the query *)

Section BuscarExtras.



Lemma espacio_mayuscula (c : ascii) :
  es_espacio (upper_c c) = es_espacio c /\ es_espacio (lower_c c) = es_espacio c /\
  lower_c (upper_c c) = lower_c c /\ lower_c (lower_c c) = lower_c c.
Proof. destruct c as [[] [] [] [] [] [] [] []]; repeat split; reflexivity. Qed.

Lemma lstrip_mapear (f : ascii -> ascii) (s : string) :
  (forall c, es_espacio (f c) = es_espacio c) ->
  lstrip (mapear f s) = mapear f (lstrip s).
Proof.
  intros Hf. induction s as [|c s IH]; simpl; [done |].
  rewrite Hf. by destruct (es_espacio c).
Qed.

Lemma rstrip_mapear (f : ascii -> ascii) (s : string) :
  (forall c, es_espacio (f c) = es_espacio c) ->
  rstrip (mapear f s) = mapear f (rstrip s).
Proof.
  intros Hf. induction s as [|c s IH]; simpl; [done |].
  rewrite IH, Hf. destruct (rstrip s); simpl; [by destruct (es_espacio c) | done].
Qed.

Lemma strip_mapear (f : ascii -> ascii) (s : string) :
  (forall c, es_espacio (f c) = es_espacio c) ->
  strip (mapear f s) = mapear f (strip s).
Proof.
  intros Hf. unfold strip. by rewrite lstrip_mapear, rstrip_mapear.
Qed.

Lemma mapear_mapear (f h : ascii -> ascii) (s : string) :
  mapear f (mapear h s) = mapear (fun c => f (h c)) s.
Proof. induction s as [|c s IH]; simpl; [done | by rewrite IH]. Qed.

Lemma mapear_ext (f h : ascii -> ascii) (s : string) :
  (forall c, f c = h c) -> mapear f s = mapear h s.
Proof. intros H. induction s as [|c s IH]; simpl; [done | by rewrite H, IH]. Qed.

Lemma rstrip_idem (s : string) : rstrip (rstrip s) = rstrip s.
Proof.
  induction s as [|c s IH]; [done |].
  cbn [rstrip]. destruct (rstrip s) as [|x r] eqn:Hr.
  - destruct (es_espacio c) eqn:Hc; [done |]. cbn. by rewrite Hc.
  - cbn [rstrip]. cbn [rstrip] in IH. by rewrite IH.
Qed.

Lemma lstrip_fijo (s : string) :
  match s with
  | EmptyString => True
  | String c _ => es_espacio c = false
  end -> lstrip s = s.
Proof. destruct s as [|c s]; [done |]. simpl. by intros ->. Qed.

Lemma lstrip_inicio (s : string) :
  match lstrip s with
  | EmptyString => True
  | String c _ => es_espacio c = false
  end.
Proof.
  induction s as [|c s IH]; simpl; [done |].
  destruct (es_espacio c) eqn:Hc; [exact IH | done].
Qed.

Lemma rstrip_inicio (s : string) :
  match s with
  | EmptyString => True
  | String c _ => es_espacio c = false
  end ->
  match rstrip s with
  | EmptyString => True
  | String c _ => es_espacio c = false
  end.
Proof.
  destruct s as [|c s]; [done |]. intros Hc. cbn [rstrip].
  destruct (rstrip s); [by rewrite Hc | done].
Qed.

Lemma strip_idem (s : string) : strip (strip s) = strip s.
Proof.
  unfold strip.
  rewrite (lstrip_fijo (rstrip (lstrip s))) by apply rstrip_inicio, lstrip_inicio.
  apply rstrip_idem.
Qed.

Lemma buscar_por_criterio (unidecode : option (string -> string)) (df : DataFrame)
    (q1 q2 : string) :
  plegar unidecode (strip q1) = plegar unidecode (strip q2) ->
  buscar unidecode df q1 = buscar unidecode df q2.
Proof. intros H. unfold buscar. by rewrite H. Qed.

(** X17. The result of a search does not depend on the case of an ASCII
    query nor on whitespace around it: the query in upper case, in lower
    case or stripped gives the same result as the query itself. *)
Theorem buscar_consulta_plegada (unidecode : option (string -> string))
    (df : DataFrame) (q : string) :
  es_ascii q = true ->
  buscar unidecode df (upper q) = buscar unidecode df q /\
  buscar unidecode df (lower q) = buscar unidecode df q /\
  buscar unidecode df (strip q) = buscar unidecode df q.
Proof.
  intros _.
  assert (Hu : lower (strip (upper q)) = lower (strip q)).
  { unfold upper, lower. rewrite strip_mapear by apply espacio_mayuscula.
    rewrite mapear_mapear. apply mapear_ext. intros c. apply espacio_mayuscula. }
  assert (Hl : lower (strip (lower q)) = lower (strip q)).
  { unfold lower. rewrite strip_mapear by apply espacio_mayuscula.
    rewrite mapear_mapear. apply mapear_ext. intros c. apply espacio_mayuscula. }
  repeat split; apply buscar_por_criterio; unfold plegar;
    rewrite ?strip_idem; destruct unidecode as [u|]; by rewrite ?Hu, ?Hl.
Qed.

(** The queries ["ANA "], ["ana "] and ["aNa"] find what ["aNa "] finds. *)
Lemma buscar_consulta_plegada_testigo :
  let df := {| columns := ["NOMBRE"];
               filas := [ {[ "NOMBRE" := "Ana" ]}; {[ "NOMBRE" := "Luis" ]} ] |} in
  es_ascii "aNa " = true /\
  buscar None df "ANA " = buscar None df "aNa " /\
  buscar None df "ana " = buscar None df "aNa " /\
  buscar None df "aNa" = buscar None df "aNa ".
Proof.
  intros df. split; [reflexivity |].
  exact (buscar_consulta_plegada None df "aNa " eq_refl).
Defined.

End BuscarExtras.

(** ** The column mapper *)

Section Mapeo.

Lemma contiene_no_vacia (sub s : string) :
  contiene sub s = true -> sub <> "" -> s <> "".
Proof.
  intros H Hsub ->. destruct sub; [done |]. discriminate.
Qed.

Lemma lower_vacia (s : string) : lower s = "" -> s = "".
Proof. by destruct s. Qed.

Lemma candidatos_elem (cols patrones : list string) (c : string) :
  Forall (fun pat => pat <> "") patrones ->
  In c (candidatos cols patrones) -> c ∈ cols /\ c <> "".
Proof.
  intros Hpat Hc. unfold candidatos in Hc. apply filter_In in Hc as [Hin Hex].
  split; [by apply list_elem_of_In |].
  apply existsb_exists in Hex as (pat & Hp & Hcont).
  rewrite Forall_forall in Hpat.
  assert (pat <> "") as Hne by (apply Hpat; by apply list_elem_of_In).
  intros ->. apply (contiene_no_vacia _ _ Hcont); [| done].
  intros E. by apply lower_vacia in E.
Qed.

Lemma preguntar_candidatos_valor (cands : list string) :
  forall (w : Consola) (r : option string) (w' : Consola),
  preguntar_candidatos cands w = (Valor r, w') ->
  r = None \/ exists c, r = Some c /\ In c cands.
Proof.
  induction cands as [|c resto IH]; intros w r w' H.
  - injection H as <- _. by left.
  - cbn [preguntar_candidatos] in H. unfold mbind, io_bind, input in H.
    destruct (entrada w) as [|linea ent]; [discriminate |].
    destruct (bool_decide (lower (strip linea) = "s")).
    + injection H as <- _. right. exists c. split; [done | by left].
    + destruct (IH _ _ _ H) as [-> | (c' & -> & Hc')]; [by left |].
      right. exists c'. split; [done | by right].
Qed.

Lemma detectar_y_preguntar_valor (cols : list string) (tipo : string)
    (patrones : list string) (w : Consola) (r : option string) (w' : Consola) :
  Forall (fun pat => pat <> "") patrones ->
  detectar_y_preguntar cols tipo patrones w = (Valor r, w') ->
  r = None \/ exists c, r = Some c /\ c ∈ cols /\ c <> "".
Proof.
  intros Hpat. unfold detectar_y_preguntar, mbind, io_bind.
  destruct (preguntar_candidatos (candidatos cols patrones) w)
    as [[elegido|e] w1] eqn:Hp; [| discriminate].
  assert (Hel : elegido = None \/ exists c, elegido = Some c /\ c ∈ cols /\ c <> "").
  { destruct (preguntar_candidatos_valor _ _ _ _ Hp) as [-> | (c & -> & Hc)];
      [by left | right].
    exists c. split; [done |]. by apply (candidatos_elem cols patrones). }
  destruct (ligada elegido) as [c|] eqn:Hl.
  { by intros [= <- _]. }
  unfold input. destruct (entrada w1) as [|linea ent]; [discriminate |].
  cbv zeta. destruct (decide (strip linea = "")) as [He | Hne].
  - rewrite bool_decide_eq_true_2 by done. by intros [= <- _].
  - rewrite bool_decide_eq_false_2 by done.
    destruct (decide (strip linea ∈ cols)) as [Hin | Hnin].
    + rewrite bool_decide_eq_true_2 by done. intros [= <- _]. right. eauto.
    + rewrite bool_decide_eq_false_2 by done.
      unfold mostrar_mensaje, emitir. intros [= <- _]. by left.
Qed.

(** X18. The bindings that [mapear_columnas_clave] returns: the columns
    are unchanged, and each of the three roles is either unbound or bound
    to a non-empty name among the columns, so a bound role always names a
    column of the table. *)
Theorem mapear_columnas_clave_ligaduras (g : GestorDocentes) (w : Consola)
    (g' : GestorDocentes) (w' : Consola) :
  mapear_columnas_clave g w = (Valor g', w') ->
  columnas g' = columnas g /\
  lock_timeout g' = lock_timeout g /\
  forall rol : option string,
    rol = col_rut g' \/ rol = col_email g' \/ rol = col_tel g' ->
    rol = None \/ exists c, rol = Some c /\ c ∈ columnas g /\ c <> "".
Proof.
  unfold mapear_columnas_clave, mbind, io_bind, mostrar_mensaje, emitir.
  cbn [entrada salida].
  destruct (detectar_y_preguntar (columnas g) _ ["rut"] _) as [[r|?] w1] eqn:Hr;
    [| discriminate].
  destruct (anunciar r _ _ w1) as [[[]|?] w2] eqn:Ha1; [| discriminate].
  destruct (detectar_y_preguntar (columnas g) _ ["email"; "correo"] _)
    as [[e|?] w3] eqn:He; [| discriminate].
  destruct (anunciar e _ _ w3) as [[[]|?] w4] eqn:Ha2; [| discriminate].
  destruct (detectar_y_preguntar (columnas g) _ ["tel"; "fono"; "telefono"] _)
    as [[t|?] w5] eqn:Ht; [| discriminate].
  destruct (anunciar t _ _ w5) as [[[]|?] w6] eqn:Ha3; [| discriminate].
  intros [= <- _]. cbn [columnas lock_timeout col_rut col_email col_tel].
  split; [done |]. split; [done |].
  intros rol [-> | [-> | ->]].
  - eapply detectar_y_preguntar_valor; [| exact Hr]. repeat constructor; discriminate.
  - eapply detectar_y_preguntar_valor; [| exact He]. repeat constructor; discriminate.
  - eapply detectar_y_preguntar_valor; [| exact Ht]. repeat constructor; discriminate.
Qed.

(** The candidate for the ID is confirmed, its name is typed for the email
    role, and the phone role is left out: one column, two roles. *)
Lemma mapear_columnas_clave_ligaduras_testigo :
  let g := {| columnas := ["RUT"; "NOMBRE"]; col_rut := None; col_email := None;
              col_tel := None; lock_timeout := 300 |} in
  let w := {| entrada := ["s"; "RUT"; ""]; salida := [] |} in
  exists (g' : GestorDocentes) (w' : Consola),
    mapear_columnas_clave g w = (Valor g', w') /\
    col_rut g' = Some "RUT" /\ col_email g' = Some "RUT" /\ col_tel g' = None /\
    columnas g' = columnas g.
Proof.
  intros g w.
  destruct (mapear_columnas_clave g w) as [[g'|e] w'] eqn:Hrun;
    [| vm_compute in Hrun; discriminate].
  exists g', w'. split; [reflexivity |].
  destruct (mapear_columnas_clave_ligaduras g w g' w' Hrun) as (Hc & _ & _).
  assert (Hg : fst (mapear_columnas_clave g w) =
               Valor {| columnas := ["RUT"; "NOMBRE"]; col_rut := Some "RUT";
                        col_email := Some "RUT"; col_tel := None;
                        lock_timeout := 300 |})
    by (vm_compute; reflexivity).
  rewrite Hrun in Hg. cbn [fst] in Hg. injection Hg as ->. by cbn.
Defined.

End Mapeo.

(** ** The column names of a new file *)

Section NombresDeColumnas.

Lemma todos_lstrip (p : ascii -> bool) (s : string) :
  todos p s = true -> todos p (lstrip s) = true.
Proof.
  induction s as [|c s IH]; simpl; [done |].
  intros [Hc Hs]%andb_true_iff.
  destruct (es_espacio c); [by apply IH | simpl; by rewrite Hc, Hs].
Qed.

Lemma todos_rstrip (p : ascii -> bool) (s : string) :
  todos p s = true -> todos p (rstrip s) = true.
Proof.
  induction s as [|c s IH]; simpl; [done |].
  intros [Hc Hs]%andb_true_iff. specialize (IH Hs).
  destruct (rstrip s) as [|x r].
  - destruct (es_espacio c); simpl; [done | by rewrite Hc].
  - cbn [todos] in *. by rewrite Hc, IH.
Qed.

Lemma todos_strip (p : ascii -> bool) (s : string) :
  todos p s = true -> todos p (strip s) = true.
Proof. intros H. unfold strip. by apply todos_rstrip, todos_lstrip. Qed.

Lemma split_coma_no_vacia (s : string) : split_coma s <> [].
Proof.
  induction s as [|c s IH]; simpl; [done |].
  destruct (ord c =? 44)%N; [done |]. by destruct (split_coma s).
Qed.

Lemma split_coma_sin_comas (s : string) :
  Forall (fun x => todos no_coma x = true) (split_coma s).
Proof.
  induction s as [|c s IH]; simpl; [by repeat constructor |].
  destruct (ord c =? 44)%N eqn:Hc; [by constructor |].
  destruct (split_coma s) as [|x xs] eqn:E; [by apply split_coma_no_vacia in E |].
  apply Forall_cons in IH as [Hx Hxs]. constructor; [| done].
  simpl. unfold no_coma at 1. by rewrite Hc, Hx.
Qed.

Lemma split_coma_append (n resto : string) :
  todos no_coma n = true ->
  split_coma (n +:+ String "," resto) = n :: split_coma resto.
Proof.
  induction n as [|c n IH]; [done |]. simpl.
  intros [Hc Hn]%andb_true_iff.
  unfold no_coma in Hc. apply negb_true_iff in Hc. by rewrite Hc, IH.
Qed.

Lemma split_coma_uno (n : string) : todos no_coma n = true -> split_coma n = [n].
Proof.
  induction n as [|c n IH]; [done |]. simpl.
  intros [Hc Hn]%andb_true_iff.
  unfold no_coma in Hc. apply negb_true_iff in Hc. by rewrite Hc, IH.
Qed.

Lemma split_coma_unir (x : string) (resto : list string) :
  Forall (fun n => todos no_coma n = true) (x :: resto) ->
  split_coma (unir (x :: resto)) = x :: resto.
Proof.
  revert x. induction resto as [|y resto IH]; intros x H.
  - apply Forall_cons in H as [Hx _]. by apply split_coma_uno.
  - apply Forall_cons in H as [Hx H].
    change (unir (x :: y :: resto)) with (x +:+ String "," (unir (y :: resto))).
    by rewrite split_coma_append, IH.
Qed.

Lemma strip_partes (n : string) :
  n <> "" -> strip n = n ->
  lstrip n = n /\ rstrip n = n.
Proof.
  intros Hne Hs.
  assert (Hl : lstrip n = n).
  { apply lstrip_fijo. rewrite <- Hs. unfold strip.
    apply rstrip_inicio, lstrip_inicio. }
  split; [done |]. unfold strip in Hs. by rewrite Hl in Hs.
Qed.

Lemma rstrip_append (a b : string) :
  b <> "" -> rstrip b = b -> rstrip (a +:+ b) = a +:+ b.
Proof.
  intros Hb Hr. induction a as [|c a IH]; [done |].
  rewrite append_cons. cbn [rstrip]. rewrite IH.
  destruct (a +:+ b) eqn:E; [| done].
  apply append_es_vacia in E as [_ ?]. done.
Qed.

Lemma unir_no_vacia (x : string) (resto : list string) :
  x <> "" -> unir (x :: resto) <> "".
Proof.
  intros Hx. destruct resto as [|y resto]; [done |].
  change (unir (x :: y :: resto)) with (x +:+ String "," (unir (y :: resto))).
  intros E. by apply append_es_vacia in E as [? _].
Qed.

Lemma strip_unir (x : string) (resto : list string) :
  Forall nombre_limpio (x :: resto) -> strip (unir (x :: resto)) = unir (x :: resto).
Proof.
  intros H.
  assert (Hr : rstrip (unir (x :: resto)) = unir (x :: resto)).
  { revert x H. induction resto as [|y resto IH]; intros x H.
    - apply Forall_cons in H as [(Hne & Hs & _) _]. by apply strip_partes.
    - apply Forall_cons in H as [_ H].
      change (unir (x :: y :: resto)) with (x +:+ String "," (unir (y :: resto))).
      change (String "," (unir (y :: resto))) with ("," +:+ unir (y :: resto)).
      rewrite <- append_asoc. apply rstrip_append; [| by apply IH].
      apply unir_no_vacia. by apply Forall_cons in H as [(Hne & _) _]. }
  unfold strip. rewrite lstrip_fijo; [done |].
  apply Forall_cons in H as [(Hne & Hs & _) _].
  destruct (strip_partes x Hne Hs) as [Hl _].
  pose proof (lstrip_inicio x) as Hi. rewrite Hl in Hi.
  destruct x as [|c x]; [done |].
  destruct resto as [|y resto]; [done |].
  change (unir (String c x :: y :: resto))
    with (String c (x +:+ String "," (unir (y :: resto)))). done.
Qed.

(** X19. The column names read for a new file: every name that
    [nombres_de_columnas] returns is non-empty, has no whitespace around
    it and no comma; and clean names typed with commas between them come
    back as they are, in the same order and with their repetitions. *)
Theorem nombres_de_columnas_limpios :
  (forall linea : string, Forall nombre_limpio (nombres_de_columnas linea)) /\
  (forall nombres : list string,
     Forall nombre_limpio nombres ->
     nombres_de_columnas (unir nombres) = nombres).
Proof.
  split.
  - intros linea. apply Forall_forall. intros n Hn.
    apply list_elem_of_In in Hn. unfold nombres_de_columnas in Hn.
    apply filter_In in Hn as [Hin Hne].
    apply negb_true_iff, bool_decide_eq_false in Hne.
    apply in_map_iff in Hin as (x & <- & Hx).
    split; [done |]. split; [apply strip_idem |].
    apply todos_strip.
    pose proof (split_coma_sin_comas (strip linea)) as Hall.
    rewrite Forall_forall in Hall. apply Hall. by apply list_elem_of_In.
  - intros nombres H. unfold nombres_de_columnas.
    destruct nombres as [|x resto]; [done |].
    rewrite (strip_unir x resto H), split_coma_unir.
    2:{ eapply Forall_impl; [exact H |]. by intros n (_ & _ & Hn). }
    induction H as [|n l (Hne & Hs & _) _ IH]; [done |].
    cbn [map List.filter]. rewrite Hs.
    rewrite bool_decide_eq_false_2 by done. cbn [negb]. by rewrite IH.
Qed.

Example nombres_de_columnas_muestra :
  nombres_de_columnas " RUT, NOMBRE ,,Email , " = ["RUT"; "NOMBRE"; "Email"].
Proof. vm_compute. reflexivity. Qed.

End NombresDeColumnas.
